(** * merhbe: the matchmaking and relay core of [backend/src/socket.ts]

    A shallow embedding of the socket handlers installed by
    [setupSocketHandlers].  The two module-level [Map]s and the socket
    objects they share are modelled as an explicit store; every handler is
    a function from the store to a new store and the list of events it
    emitted, in emission order. *)

From stdpp Require Import gmap strings list fin_maps.
From Stdlib Require Import ZArith.

Open Scope string_scope.
Open Scope nat_scope.
Open Scope list_scope.
Open Scope stdpp_scope.

(** ** JavaScript values *)

(** [!x] for an optional string: [undefined] and the empty string are
    falsy, every other string is truthy. *)
Definition truthy (o : option string) : bool :=
  match o with
  | Some s => negb (String.eqb s "")
  | None => false
  end.

(** [a || b] on an optional string with a string fallback. *)
Definition js_or (o : option string) (d : string) : string :=
  match o with
  | Some s => if String.eqb s "" then d else s
  | None => d
  end.

(** [s.startsWith(p)] *)
Definition startsWith (s p : string) : bool := String.prefix p s.

(** A JavaScript string is a sequence of UTF-16 code units, and
    [substring] counts code units.  A [string] here holds the UTF-8 bytes
    of the text, which is what a string literal denotes; a surrogate that
    stands alone is held in its three-byte form.  Prefix tests, equality
    and the removal of an ASCII pattern agree on bytes and on code units;
    [substring] does not, so it goes through the code units. *)

(** The six payload bits of a continuation byte. *)
Definition cont (c : Ascii.ascii) : N := N.land (Ascii.N_of_ascii c) 63.

(** The UTF-16 code units of a string. *)
Fixpoint utf16 (s : string) : list N :=
  match s with
  | EmptyString => []
  | String c0 s1 =>
      let b0 := Ascii.N_of_ascii c0 in
      if (b0 <? 192)%N then b0 :: utf16 s1
      else if (b0 <? 224)%N then
        match s1 with
        | String c1 s2 => (N.shiftl (N.land b0 31) 6 + cont c1)%N :: utf16 s2
        | EmptyString => [b0]
        end
      else if (b0 <? 240)%N then
        match s1 with
        | String c1 (String c2 s3) =>
            (N.shiftl (N.land b0 15) 12 + N.shiftl (cont c1) 6 + cont c2)%N :: utf16 s3
        | _ => b0 :: utf16 s1
        end
      else
        match s1 with
        | String c1 (String c2 (String c3 s4)) =>
            let cp := (N.shiftl (N.land b0 7) 18 + N.shiftl (cont c1) 12
                       + N.shiftl (cont c2) 6 + cont c3)%N in
            let v := (cp - 65536)%N in
            (55296 + N.shiftr v 10)%N :: (56320 + N.land v 1023)%N :: utf16 s4
        | _ => b0 :: utf16 s1
        end
  end.

(** The three-byte form of a code unit from [0x800] up. *)
Definition utf8_3 (u : N) (rest : string) : string :=
  String (Ascii.ascii_of_N (224 + N.shiftr u 12))
    (String (Ascii.ascii_of_N (128 + N.land (N.shiftr u 6) 63))
       (String (Ascii.ascii_of_N (128 + N.land u 63)) rest)).

(** The string made of the given code units; a high surrogate followed by
    a low one is one four-byte character. *)
Fixpoint utf8 (l : list N) : string :=
  match l with
  | [] => EmptyString
  | u :: l1 =>
      if (u <? 128)%N then String (Ascii.ascii_of_N u) (utf8 l1)
      else if (u <? 2048)%N then
        String (Ascii.ascii_of_N (192 + N.shiftr u 6))
          (String (Ascii.ascii_of_N (128 + N.land u 63)) (utf8 l1))
      else if (55296 <=? u)%N && (u <? 56320)%N then
        match l1 with
        | v :: l2 =>
            if (56320 <=? v)%N && (v <? 57344)%N then
              let cp := (65536 + N.shiftl (u - 55296) 10 + (v - 56320))%N in
              String (Ascii.ascii_of_N (240 + N.shiftr cp 18))
                (String (Ascii.ascii_of_N (128 + N.land (N.shiftr cp 12) 63))
                   (String (Ascii.ascii_of_N (128 + N.land (N.shiftr cp 6) 63))
                      (String (Ascii.ascii_of_N (128 + N.land cp 63)) (utf8 l2))))
            else utf8_3 u (utf8 l1)
        | [] => utf8_3 u EmptyString
        end
      else utf8_3 u (utf8 l1)
  end.

(** [s.substring(a, b)] for [a <= b]: the code units from index [a] up to,
    not including, index [b]. *)
Definition js_substring (a b : nat) (s : string) : string :=
  utf8 (take (b - a) (drop a (utf16 s))).

(** The strings made of ASCII characters only; in them a byte is a code
    unit. *)
Fixpoint ascii_only (s : string) : bool :=
  match s with
  | EmptyString => true
  | String c s' => (Ascii.N_of_ascii c <? 128)%N && ascii_only s'
  end.

(** [s.replace(pat, rep)] with a string pattern: the first occurrence only. *)
Fixpoint js_replace (pat rep s : string) : string :=
  if String.prefix pat s
  then rep +:+ String.substring (String.length pat)
                 (String.length s - String.length pat) s
  else match s with
       | EmptyString => EmptyString
       | String c s' => String c (js_replace pat rep s')
       end.

(** ** Insertion-ordered maps

    A JavaScript [Map] iterates its keys in insertion order; [set] on a key
    already present replaces the value and keeps the key's position.  The
    waiting pool is searched with [Array.from(keys()).find(..)], so the
    order is part of its behaviour. *)
Module OMap.
Definition t : Type := list (string * nat).

Fixpoint set (k : string) (v : nat) (m : t) : t :=
  match m with
  | [] => [(k, v)]
  | (k', v') :: m' =>
      if String.eqb k' k then (k, v) :: m' else (k', v') :: set k v m'
  end.

Fixpoint get (k : string) (m : t) : option nat :=
  match m with
  | [] => None
  | (k', v') :: m' => if String.eqb k' k then Some v' else get k m'
  end.

Fixpoint delete (k : string) (m : t) : t :=
  match m with
  | [] => []
  | (k', v') :: m' =>
      if String.eqb k' k then delete k m' else (k', v') :: delete k m'
  end.

Definition keys (m : t) : list string := map fst m.

Definition size (m : t) : nat := length m.
End OMap.

(** ** The store *)

(** [UserSocket]: a socket.io [Socket] with the optional fields the
    handlers attach to it.  [connected] is socket.io's own flag. *)
Record UserSocket : Type := mkUserSocket {
  connected : bool;
  userId : option string;
  username : option string;
  chatPartnerId : option string;
  partnerId : option string;
  searching : option bool
}.

(** The object socket.io hands to the [connection] callback. *)
Definition new_socket : UserSocket :=
  mkUserSocket true None None None None None.

(** Socket objects live in [sockets], addressed by handle, so that the
    two maps and the handlers alias the same object. *)
Record State : Type := mkState {
  sockets : gmap nat UserSocket;
  userSockets : gmap string nat;
  waitingUsers : OMap.t
}.

Definition init : State := mkState ∅ ∅ [].

Definition sock (st : State) (h : nat) : UserSocket :=
  default new_socket (sockets st !! h).

Definition upd_sock (h : nat) (f : UserSocket → UserSocket) (st : State) : State :=
  mkState (<[h := f (sock st h)]> (sockets st)) (userSockets st) (waitingUsers st).

Definition set_connected (b : bool) (s : UserSocket) : UserSocket :=
  mkUserSocket b (userId s) (username s) (chatPartnerId s) (partnerId s) (searching s).

Definition set_identity (u n : option string) (s : UserSocket) : UserSocket :=
  mkUserSocket (connected s) u n (chatPartnerId s) (partnerId s) (searching s).

Definition set_chatPartnerId (p : option string) (s : UserSocket) : UserSocket :=
  mkUserSocket (connected s) (userId s) (username s) p (partnerId s) (searching s).

Definition with_userSockets (f : gmap string nat → gmap string nat) (st : State) : State :=
  mkState (sockets st) (f (userSockets st)) (waitingUsers st).

Definition with_waitingUsers (f : OMap.t → OMap.t) (st : State) : State :=
  mkState (sockets st) (userSockets st) (f (waitingUsers st)).

(** ** Emitted events *)

Inductive Emit : Type :=
| E_authenticated (userId : string) (username : option string)
| E_searching
| E_chat_connected (partnerId : string) (username : option string)
| E_error (msg : string)
| E_receive_message (id content : string) (senderId : option string) (timestamp : Z)
| E_message_sent (id : string) (timestamp : Z)
| E_partner_typing (isTyping : bool)
| E_partner_left
| E_chat_ended
| E_video_call_ended (from : option string).

(** One [emit]: the receiving socket and the event. *)
Definition Out : Type := (nat * Emit)%type.

Definition Result : Type := (State * list Out)%type.

(** ** Handlers *)

(** The identity [authenticate] settles on.  [decoded] is what
    [verifyToken] resolved to ([None] for [null] or a throw), [rnd] the
    string [Math.random().toString(36).substring(2, 15)] produced. *)
Definition auth_identity (token : string) (decoded : option (string * string))
    (rnd : string) : string * option string :=
  if truthy (Some token) && startsWith token "mock_token_" then
    let uid := js_replace "mock_token_" "" token in
    (uid, Some ("User_" +:+ js_substring 0 5 uid))
  else
    let '(uid, uname) :=
      match decoded with
      | Some (u, n) => (Some u, Some n)
      | None => (None, None)
      end in
    if truthy uid then (default "" uid, uname)
    else (rnd, Some ("Anonymous_" +:+ js_substring 0 5 rnd)).

(** [socket.on('authenticate', ...)] *)
Definition authenticate (st : State) (h : nat) (token : string)
    (decoded : option (string * string)) (rnd : string) : Result :=
  let '(uid, uname) := auth_identity token decoded rnd in
  let st1 := with_userSockets (insert uid h) st in
  let st2 := upd_sock h (set_identity (Some uid) uname) st1 in
  (st2, [(h, E_authenticated uid uname)]).

(** The auto-authentication block at the head of [search_chat]. *)
Definition auto_authenticate (st : State) (h : nat) (rnd : string) : State :=
  if truthy (userId (sock st h)) then st
  else
    let anonymousName := "Anonymous_" +:+ js_substring 0 5 rnd in
    let st1 := upd_sock h (set_identity (Some rnd) (Some anonymousName)) st in
    with_userSockets (insert rnd h) st1.

(** [waitingUserIds.find(id => id !== socket.userId)] *)
Definition find_partner (uid : string) (ids : list string) : option string :=
  List.find (λ id, negb (String.eqb id uid)) ids.

(** The matching part of [search_chat], run with [socket.userId] set. *)
Definition match_waiting (st : State) (h : nat) : Result :=
  let uid := default "" (userId (sock st h)) in
  let st1 := with_waitingUsers (OMap.set uid h) st in
  let out := [(h, E_searching)] in
  if 2 <=? OMap.size (waitingUsers st1) then
    match find_partner uid (OMap.keys (waitingUsers st1)) with
    | Some pid =>
        if truthy (Some pid) then
          match OMap.get pid (waitingUsers st1) with
          | Some ph =>
              let st2 := with_waitingUsers (OMap.delete uid) st1 in
              let st3 := with_waitingUsers (OMap.delete pid) st2 in
              let st4 := upd_sock h (set_chatPartnerId (Some pid)) st3 in
              let st5 := upd_sock ph (set_chatPartnerId (userId (sock st4 h))) st4 in
              (st5, out ++ [(h, E_chat_connected pid (username (sock st5 ph)));
                            (ph, E_chat_connected uid (username (sock st5 h)))])
          | None => (st1, out)
          end
        else (st1, out)
    | None => (st1, out)
    end
  else (st1, out).

(** [socket.on('search_chat', ...)] *)
Definition search_chat (st : State) (h : nat) (rnd : string) : Result :=
  match_waiting (auto_authenticate st h rnd) h.

(** [socket.on('send_message', ...)] runs in two turns of the event loop:
    the guard when the event arrives, the rest when the [await] of
    [prisma.chatMessage.create] returns, in whatever store the handlers
    that ran in between have left.  The handler never writes to the
    store. *)

(** The guard [!socket.userId || !socket.chatPartnerId], read on arrival. *)
Definition not_in_session (st : State) (h : nat) : bool :=
  let s := sock st h in
  negb (truthy (userId s)) || negb (truthy (chatPartnerId s)).

(** What the arrival of the event emits at once. *)
Definition send_message_arrival (st : State) (h : nat) : list Out :=
  if not_in_session st h then [(h, E_error "Not in a chat session")] else [].

(** What is emitted once the write has returned.  [stored] is the record
    [prisma.chatMessage.create] resolved to (its id and [createdAt]),
    [None] when it threw; [rnd] is the fallback id and [caught] the clock
    read in the [catch] block; [now] is the clock read at the relay.
    [userSockets.get(socket.chatPartnerId)] and [socket.userId] are read
    here, from the store [st] of this later turn; the link is not tested
    for truthiness again, and a link that is [undefined] finds no socket. *)
Definition send_message_resume (st : State) (h : nat) (message : string)
    (stored : option (string * Z)) (rnd : string) (caught now : Z) : list Out :=
  let s := sock st h in
  let chatMessage := default (rnd, caught) stored in
  let to_partner :=
    match chatPartnerId s ≫= (λ pid, userSockets st !! pid) with
    | Some ph => [(ph, E_receive_message chatMessage.1 message (userId s) now)]
    | None => []
    end in
  to_partner ++ [(h, E_message_sent chatMessage.1 chatMessage.2)].

(** Everything one [send_message] event emits: it arrives in store [st]
    and its write returns in store [st']. *)
Definition send_message (st st' : State) (h : nat) (message : string)
    (stored : option (string * Z)) (rnd : string) (caught now : Z) : list Out :=
  if not_in_session st h then send_message_arrival st h
  else send_message_resume st' h message stored rnd caught now.

(** [socket.on('typing', ...)] *)
Definition typing (st : State) (h : nat) (isTyping : bool) : Result :=
  let s := sock st h in
  if negb (truthy (userId s)) || negb (truthy (chatPartnerId s)) then (st, [])
  else
    match userSockets st !! default "" (chatPartnerId s) with
    | Some ph => (st, [(ph, E_partner_typing isTyping)])
    | None => (st, [])
    end.

(** [socket.on('leave_chat', ...)] *)
Definition leave_chat (st : State) (h : nat) : Result :=
  let s := sock st h in
  if negb (truthy (userId s)) || negb (truthy (chatPartnerId s)) then (st, [])
  else
    let '(st1, out) :=
      match userSockets st !! default "" (chatPartnerId s) with
      | Some ph => (upd_sock ph (set_chatPartnerId None) st, [(ph, E_partner_left)])
      | None => (st, [])
      end in
    (upd_sock h (set_chatPartnerId None) st1, out ++ [(h, E_chat_ended)]).

(** [socket.on('start_chat_with_friend', ...)] *)
Definition start_chat_with_friend (st : State) (h : nat) (friendId : string) : Result :=
  if negb (truthy (userId (sock st h))) then
    (st, [(h, E_error "Not authenticated")])
  else
    match userSockets st !! friendId with
    | Some fh =>
        let st1 := upd_sock h (set_chatPartnerId (Some friendId)) st in
        let st2 := upd_sock fh (set_chatPartnerId (userId (sock st1 h))) st1 in
        (st2, [(h, E_chat_connected friendId
                     (Some (js_or (username (sock st2 fh)) "Friend")));
               (fh, E_chat_connected (default "" (userId (sock st2 h)))
                      (Some (js_or (username (sock st2 h)) "Friend")))])
    | None =>
        (st, [(h, E_error "This friend is currently offline. You can still send messages that they will receive when they come online.")])
    end.

(** [socket.on('end_video_call', ...)] *)
Definition end_video_call (st : State) (h : nat) : Result :=
  let s := sock st h in
  if negb (truthy (chatPartnerId s)) then (st, [])
  else
    match userSockets st !! default "" (chatPartnerId s) with
    | Some ph => (st, [(ph, E_video_call_ended (userId s))])
    | None => (st, [])
    end.

(** [socket.on('disconnect', ...)] *)
Definition disconnect (st : State) (h : nat) : Result :=
  let s := sock st h in
  if truthy (userId s) then
    let uid := default "" (userId s) in
    let st1 := with_userSockets (delete uid) st in
    let st2 := with_waitingUsers (OMap.delete uid) st1 in
    if truthy (chatPartnerId s) then
      match userSockets st2 !! default "" (chatPartnerId s) with
      | Some ph => (upd_sock ph (set_chatPartnerId None) st2, [(ph, E_partner_left)])
      | None => (st2, [])
      end
    else (st2, [])
  else (st, []).

(** ** The event loop *)

(** What a client (or the transport) can make a socket receive, together
    with the outcome of the external calls the handler makes.
    [authenticate] reads and writes the store only after its [await] of
    [verifyToken], so it is one step.  [send_message] is two:
    [SendMessage] is the arrival of the event, [MessageStored] the return
    of the database write of a message that passed the guard, at which
    the rest of the handler runs; any other event may come in between.
    With a [string] token the [auth_error] branch cannot be reached.  The
    remaining
    handlers ([video_offer],
    [video_answer], [ice_candidate], [report_user], [friend_request],
    [friend_request_response], [update_online_status],
    [check_friends_status]) only emit and never write to the store; they
    are left out. *)
Inductive Event : Type :=
| Authenticate (token : string) (decoded : option (string * string)) (rnd : string)
| SearchChat (rnd : string)
| SendMessage (message : string)
| MessageStored (message : string) (stored : option (string * Z)) (rnd : string)
    (caught now : Z)
| Typing (isTyping : bool)
| LeaveChat
| StartChatWithFriend (friendId : string)
| EndVideoCall
| Disconnect.

Definition handle (st : State) (h : nat) (e : Event) : Result :=
  match e with
  | Authenticate token decoded rnd => authenticate st h token decoded rnd
  | SearchChat rnd => search_chat st h rnd
  | SendMessage message => (st, send_message_arrival st h)
  | MessageStored message stored rnd caught now =>
      (st, send_message_resume st h message stored rnd caught now)
  | Typing b => typing st h b
  | LeaveChat => leave_chat st h
  | StartChatWithFriend friendId => start_chat_with_friend st h friendId
  | EndVideoCall => end_video_call st h
  | Disconnect => disconnect (upd_sock h (set_connected false) st) h
  end.

(** The events that no client sends: the return of an [await]. *)
Definition is_resumption (e : Event) : bool :=
  match e with
  | MessageStored _ _ _ _ _ => true
  | _ => false
  end.

(** socket.io delivers events to a socket only while it is connected, and
    clears [connected] before it fires [disconnect]; a pending write
    returns whether or not the socket is still connected. *)
Definition step (st : State) (he : nat * Event) : Result :=
  if connected (sock st he.1) || is_resumption he.2
  then handle st he.1 he.2 else (st, []).

(** Runs a trace, collecting every emission. *)
Fixpoint run (st : State) (tr : list (nat * Event)) : Result :=
  match tr with
  | [] => (st, [])
  | he :: tr' =>
      let '(st1, out1) := step st he in
      let '(st2, out2) := run st1 tr' in
      (st2, out1 ++ out2)
  end.

(** ** The two outcomes of matching *)

(** The state and emissions when a partner [pid], held by socket [ph], is
    taken from the pool. *)
Definition paired (st : State) (h : nat) (pid : string) (ph : nat) : Result :=
  let uid := default "" (userId (sock st h)) in
  let st3 := with_waitingUsers (λ w, OMap.delete pid (OMap.delete uid (OMap.set uid h w))) st in
  let st4 := upd_sock h (set_chatPartnerId (Some pid)) st3 in
  let st5 := upd_sock ph (set_chatPartnerId (userId (sock st4 h))) st4 in
  (st5, [(h, E_searching);
         (h, E_chat_connected pid (username (sock st5 ph)));
         (ph, E_chat_connected uid (username (sock st5 h)))]).

(** The state and emissions when nobody is taken. *)
Definition enqueued (st : State) (h : nat) : Result :=
  (with_waitingUsers (OMap.set (default "" (userId (sock st h))) h) st, [(h, E_searching)]).

(** ** Example stores *)

(** Two anonymous users, matched by the pool: socket 1 is user [a],
    socket 2 is user [b]. *)
Definition st_pair : State :=
  (run init [(1, SearchChat "a"); (2, SearchChat "b")]).1.

(** User [a] on socket 1 matched with user [b] on socket 2; [b] has a
    second connection, socket 3, which registered last and then closed. *)
Definition st_partner_gone : State :=
  (run init [(1, Authenticate "mock_token_a" None "r1");
             (2, Authenticate "mock_token_b" None "r2");
             (3, Authenticate "mock_token_b" None "r3");
             (1, SearchChat "r4"); (2, SearchChat "r5");
             (3, Disconnect)]).1.

(** Three anonymous users: [a] and [b] are matched, then [c] asks for a
    match and waits. *)
Definition st_pair_and_waiting : State :=
  (run init [(1, SearchChat "a"); (2, SearchChat "b"); (3, SearchChat "c")]).1.

(** Three sockets asked for a match, in the order 1, 2, 3.  For the first
    [Math.random()] returned [0], whose base-36 text [0] has nothing from
    index 2 on, so its generated id is the empty string; the other two got
    the ids [b] and [c].  All three wait. *)
Definition st_empty_head : State :=
  (run init [(1, SearchChat ""); (2, SearchChat "b"); (3, SearchChat "c")]).1.

(** Socket 1 asked for a match as anonymous user [a], waits, and then
    authenticated with the token of user [b]. *)
Definition st_reauth_waiting : State :=
  (run init [(1, SearchChat "a"); (1, Authenticate "mock_token_b" None "r")]).1.

(** One user, authenticated twice: socket 2 registered after socket 1 and
    replaced it in the registry, then asked for a match. *)
Definition st_two_connections : State :=
  (run init [(1, Authenticate "mock_token_a" None "r1");
             (2, Authenticate "mock_token_a" None "r2");
             (2, SearchChat "r3")]).1.

(** Anonymous user [a] on socket 1 asked for a match and waits. *)
Definition st_one_waiting : State := (step init (1, SearchChat "a")).1.

(** [a] and [b] are matched by the pool, [c] authenticates, and [a] starts
    a chat with friend [c]. *)
Definition st_second_pairing : State :=
  (run init [(1, SearchChat "a"); (2, SearchChat "b");
             (3, Authenticate "mock_token_c" None "r");
             (1, StartChatWithFriend "c")]).1.

(** ** Session links *)


(** ** Reachable stores *)

(** The stores reached from [init] by delivering events, each allowed by
    [ok] in the store it arrives in. *)
Inductive reachable (ok : State → nat → Event → Prop) : State → Prop :=
| reachable_init : reachable ok init
| reachable_step st h e :
    reachable ok st → ok st h e → reachable ok (step st (h, e)).1.

(** No socket authenticates a second time: [authenticate] arrives only at
    sockets without a (truthy) [userId]. *)
Definition no_reauth (st : State) (h : nat) (e : Event) : Prop :=
  match e with
  | Authenticate _ _ _ => truthy (userId (sock st h)) = false
  | _ => True
  end.

(** Every non-empty key of the waiting pool is the [userId] of the socket
    stored under it. *)
Definition waiting_wf (st : State) : Prop :=
  ∀ k ph, OMap.get k (waitingUsers st) = Some ph → k ≠ "" →
    userId (sock st ph) = Some k.

(** An id no registered connection holds. *)
Definition fresh_id (st : State) (u : string) : Prop :=
  u ≠ "" ∧ userSockets st !! u = None.

(** Orderly use of the handlers: a socket authenticates once, under a
    fresh id; [search_chat] comes from a user without a partner; and
    [start_chat_with_friend] joins two different users, neither of whom
    has a partner or is waiting. *)
Definition orderly (st : State) (h : nat) (e : Event) : Prop :=
  match e with
  | Authenticate token decoded rnd =>
      userId (sock st h) = None ∧ fresh_id st (auth_identity token decoded rnd).1
  | SearchChat rnd =>
      truthy (chatPartnerId (sock st h)) = false ∧
      (userId (sock st h) = None → fresh_id st rnd)
  | StartChatWithFriend friendId =>
      truthy (chatPartnerId (sock st h)) = false ∧
      OMap.get (default "" (userId (sock st h))) (waitingUsers st) = None ∧
      friendId ≠ default "" (userId (sock st h)) ∧
      OMap.get friendId (waitingUsers st) = None ∧
      ∀ fh, userSockets st !! friendId = Some fh →
        truthy (chatPartnerId (sock st fh)) = false
  | _ => True
  end.

(** What orderly use maintains. *)
Record consistent (st : State) : Prop := mkConsistent {
  c_id : ∀ h u, userId (sock st h) = Some u → u ≠ "";
  c_reg : ∀ u h, userSockets st !! u = Some h →
    userId (sock st h) = Some u ∧ connected (sock st h) = true;
  c_live : ∀ h u, connected (sock st h) = true → userId (sock st h) = Some u →
    userSockets st !! u = Some h;
  c_wait : ∀ k h, OMap.get k (waitingUsers st) = Some h →
    userSockets st !! k = Some h ∧ truthy (chatPartnerId (sock st h)) = false;
  c_anon : ∀ h, userId (sock st h) = None → chatPartnerId (sock st h) = None;
  c_sym : ∀ a ha b, userSockets st !! a = Some ha →
    chatPartnerId (sock st ha) = Some b →
    b ≠ a ∧ ∃ hb, userSockets st !! b = Some hb ∧ chatPartnerId (sock st hb) = Some a
}.

(** ** Handlers that only relay *)

(** A signalling or request payload: opaque to the server, carried as it
    came. *)
Definition Payload : Type := string.

(** The events of the relay-only handlers; [R_event] carries the events
    they share with the handlers above ([error]). *)
Inductive Relay : Type :=
| R_event (e : Emit)
| R_video_offer (offer : Payload) (from : option string)
| R_video_answer (answer : Payload) (from : option string)
| R_ice_candidate (candidate : Payload) (from : option string)
| R_friend_request_received (fromUserId fromUsername : string) (timestamp : Z)
| R_friend_request_accepted (userId username : string)
| R_friend_request_rejected (userId username : string)
| R_friends_status_update (statuses : list (string * bool)).

(** The body shared by [video_offer], [video_answer] and [ice_candidate]:
    the check on [socket.chatPartnerId], then the lookup and the emit. *)
Definition relay_to_partner (st : State) (h : nat)
    (event : option string → Relay) : list (nat * Relay) :=
  let s := sock st h in
  if negb (truthy (chatPartnerId s)) then
    [(h, R_event (E_error "Not in a chat session"))]
  else
    match userSockets st !! default "" (chatPartnerId s) with
    | Some ph => [(ph, event (userId s))]
    | None => []
    end.

(** [socket.on('video_offer', ...)] *)
Definition video_offer (st : State) (h : nat) (offer : Payload) : list (nat * Relay) :=
  relay_to_partner st h (R_video_offer offer).

(** [socket.on('video_answer', ...)] *)
Definition video_answer (st : State) (h : nat) (answer : Payload) : list (nat * Relay) :=
  relay_to_partner st h (R_video_answer answer).

(** [socket.on('ice_candidate', ...)] *)
Definition ice_candidate (st : State) (h : nat) (candidate : Payload) : list (nat * Relay) :=
  relay_to_partner st h (R_ice_candidate candidate).

(** [socket.on('friend_request', ...)]; [now] is the clock. *)
Definition friend_request (st : State) (h : nat)
    (toUserId fromUserId fromUsername : string) (now : Z) : list (nat * Relay) :=
  match userSockets st !! toUserId with
  | Some th => [(th, R_friend_request_received fromUserId fromUsername now)]
  | None =>
      [(h, R_event (E_error "User is not online. The request will be stored but they will not receive it in real-time."))]
  end.

(** [socket.on('friend_request_response', ...)] *)
Definition friend_request_response (st : State) (h : nat)
    (toUserId fromUserId fromUsername response : string) : list (nat * Relay) :=
  match userSockets st !! toUserId with
  | Some th =>
      if String.eqb response "accepted"
      then [(th, R_friend_request_accepted fromUserId fromUsername)]
      else [(th, R_friend_request_rejected fromUserId fromUsername)]
  | None =>
      [(h, R_event (E_error "User is not online. They will see the response when they reconnect."))]
  end.

(** [userSockets.has(id)] *)
Definition has (m : gmap string nat) (id : string) : bool :=
  match m !! id with
  | Some _ => true
  | None => false
  end.

(** [socket.on('check_friends_status', ...)]; [friendIds] is [None] when
    the field is missing or not an array. *)
Definition check_friends_status (st : State) (h : nat)
    (friendIds : option (list string)) : list (nat * Relay) :=
  if negb (truthy (userId (sock st h))) then
    [(h, R_event (E_error "Not authenticated"))]
  else
    match friendIds with
    | None => []
    | Some [] => []
    | Some ids =>
        [(h, R_friends_status_update (map (λ friendId, (friendId, has (userSockets st) friendId)) ids))]
    end.

(** ** The waiting pool in a run *)

(** Generated ids are not empty: [search_chat] on a socket without a
    (truthy) [userId] draws a non-empty [rnd]. *)
Definition nonempty_rnd (st : State) (h : nat) (e : Event) : Prop :=
  match e with
  | SearchChat rnd => truthy (userId (sock st h)) = false → rnd ≠ ""
  | _ => True
  end.

(** At most one user waits, under a non-empty id. *)
Definition pool_small (st : State) : Prop :=
  length (waitingUsers st) ≤ 1 ∧ ∀ k, k ∈ OMap.keys (waitingUsers st) → k ≠ "".

(** Anonymous user [a] waits and socket 2 has authenticated as [b]. *)
Definition st_waiting_and_idle : State :=
  (run init [(1, SearchChat "a"); (2, Authenticate "mock_token_b" None "r")]).1.

(** Anonymous user [a] waits; sockets 2 and 3 have authenticated as [b]
    and [c]. *)
Definition st_waiting_and_two_idle : State :=
  (run init [(1, SearchChat "a"); (2, Authenticate "mock_token_b" None "r");
             (3, Authenticate "mock_token_c" None "r")]).1.

(** ** [middleware/auth.ts] *)

From Stdlib Require Import Ascii.

(** [s.split(sep)] for a one-character separator: the pieces between the
    separators, an empty piece where two separators meet or the string
    begins or ends with one. *)
Fixpoint js_split (sep : Ascii.ascii) (s : string) : list string :=
  match s with
  | EmptyString => [EmptyString]
  | String c s' =>
      if Ascii.eqb c sep then EmptyString :: js_split sep s'
      else match js_split sep s' with
           | [] => [String c EmptyString]
           | piece :: pieces => String c piece :: pieces
           end
  end.

(** No space occurs in the string. *)
Fixpoint spaceless (s : string) : bool :=
  match s with
  | EmptyString => true
  | String c s' => negb (Ascii.eqb c " "%char) && spaceless s'
  end.

(** What the middleware does with the request: answer with a status and a
    message, or attach the user and call [next]. *)
Inductive Outcome : Type :=
| Respond (status : nat) (message : string)
| Next (user : string * string).

(** [authenticateToken]; [authorization] is the request header, [None]
    when absent, and [verifyToken] resolves a token to its payload or to
    [null]. *)
Definition authenticateToken (verifyToken : string → option (string * string))
    (authorization : option string) : Outcome :=
  let token :=
    if truthy authorization
    then js_split " "%char (default "" authorization) !! 1
    else authorization in
  if negb (truthy token) then Respond 401 "Access token required"
  else
    match verifyToken (default "" token) with
    | None => Respond 401 "Invalid or expired token"
    | Some user => Next user
    end.

(** ** [utils/friends.ts]

    The friends list and the friend requests a browser keeps in
    [localStorage].  The module uses four families of keys,
    [tn4_friends_<userId>], [tn4_sent_requests_<userId>],
    [tn4_received_requests_<userId>] and [username_<userId>]; their
    prefixes differ, so no two families share a key and each is modelled as
    its own map from the user id.  An item holds what [JSON.parse] makes of
    it: a list that [JSON.stringify] wrote, dates revived, or something
    the readers cannot use. *)
Module Friends.

Record Friend : Type := mkFriend {
  friend_id : string;
  friend_username : string;
  friend_avatar : string;
  friend_lastSeen : Z;
  friend_isOnline : option bool
}.

Inductive Status : Type := pending | accepted | rejected.

Record FriendRequest : Type := mkFriendRequest {
  request_id : string;
  request_username : string;
  request_avatar : string;
  request_timestamp : Z;
  request_status : Status
}.

(** An item under one key: [Unreadable] when it is empty, is not JSON or
    is not an array. *)
Inductive Stored (A : Type) : Type :=
| Unreadable
| Readable (items : list A).
Arguments Unreadable {A}.
Arguments Readable {A} items.

Record LocalStorage : Type := mkLocalStorage {
  friends : gmap string (Stored Friend);
  sent_requests : gmap string (Stored FriendRequest);
  received_requests : gmap string (Stored FriendRequest);
  usernames : gmap string string
}.

(** [getItem], the [if (!data) return []] and the [try]/[catch] around
    [JSON.parse] and [map]. *)
Definition read {A : Type} (item : option (Stored A)) : list A :=
  match item with
  | Some (Readable items) => items
  | _ => []
  end.

Definition set_friends (userId : string) (l : list Friend) (ls : LocalStorage) : LocalStorage :=
  mkLocalStorage (<[userId := Readable l]> (friends ls)) (sent_requests ls)
    (received_requests ls) (usernames ls).

Definition set_sent (userId : string) (l : list FriendRequest) (ls : LocalStorage)
    : LocalStorage :=
  mkLocalStorage (friends ls) (<[userId := Readable l]> (sent_requests ls))
    (received_requests ls) (usernames ls).

Definition set_received (userId : string) (l : list FriendRequest) (ls : LocalStorage)
    : LocalStorage :=
  mkLocalStorage (friends ls) (sent_requests ls)
    (<[userId := Readable l]> (received_requests ls)) (usernames ls).

(** [l.findIndex(p)], [None] for [-1]. *)
Fixpoint findIndex {A : Type} (p : A → bool) (l : list A) : option nat :=
  match l with
  | [] => None
  | x :: l' => if p x then Some 0 else S <$> findIndex p l'
  end.

Definition getFriends (ls : LocalStorage) (userId : string) : list Friend :=
  read (friends ls !! userId).

Definition getSentRequests (ls : LocalStorage) (userId : string) : list FriendRequest :=
  read (sent_requests ls !! userId).

Definition getReceivedRequests (ls : LocalStorage) (userId : string) : list FriendRequest :=
  read (received_requests ls !! userId).

(** [{...friend, lastSeen: new Date()}] *)
Definition seen (now : Z) (friend : Friend) : Friend :=
  mkFriend (friend_id friend) (friend_username friend) (friend_avatar friend) now
    (friend_isOnline friend).

Definition addFriend (ls : LocalStorage) (userId : string) (friend : Friend) (now : Z)
    : LocalStorage :=
  let friends := getFriends ls userId in
  let friends' :=
    match findIndex (λ f, String.eqb (friend_id f) (friend_id friend)) friends with
    | Some existingIndex => <[existingIndex := seen now friend]> friends
    | None => friends ++ [seen now friend]
    end in
  set_friends userId friends' ls.

Definition removeFriend (ls : LocalStorage) (userId friendId : string) : LocalStorage :=
  let friends := getFriends ls userId in
  set_friends userId (filter (λ f, friend_id f ≠ friendId) friends) ls.

Definition avatar_of (seed : string) : string :=
  "https://api.dicebear.com/7.x/bottts/svg?seed=" +:+ seed.

Definition accept (r : FriendRequest) : FriendRequest :=
  mkFriendRequest (request_id r) (request_username r) (request_avatar r)
    (request_timestamp r) accepted.

Definition acceptFriendRequest (ls : LocalStorage) (userId requesterId : string) (now : Z)
    : LocalStorage :=
  let receivedRequests := getReceivedRequests ls userId in
  match findIndex (λ req, String.eqb (request_id req) requesterId) receivedRequests with
  | Some requestIndex =>
      match receivedRequests !! requestIndex with
      | Some request =>
          let receivedRequests' := <[requestIndex := accept request]> receivedRequests in
          let ls1 :=
            addFriend ls userId
              (mkFriend (request_id request) (request_username request)
                 (request_avatar request) now None) now in
          let requesterSentRequests := getSentRequests ls1 requesterId in
          let ls2 :=
            match findIndex (λ req, String.eqb (request_id req) userId)
                    requesterSentRequests with
            | Some sentRequestIndex =>
                set_sent requesterId (alter accept sentRequestIndex requesterSentRequests) ls1
            | None => ls1
            end in
          let currentUserInfo :=
            mkFriend userId (js_or (usernames ls2 !! userId) "User") (avatar_of userId)
              now None in
          let ls3 := addFriend ls2 requesterId currentUserInfo now in
          set_received userId receivedRequests' ls3
      | None => ls
      end
  | None => ls
  end.

Definition sendFriendRequest (ls : LocalStorage)
    (userId username targetId targetUsername : string) (now : Z) : LocalStorage :=
  let newSentRequest :=
    mkFriendRequest targetId targetUsername (avatar_of targetId) now pending in
  let ls1 := set_sent userId (getSentRequests ls userId ++ [newSentRequest]) ls in
  let newReceivedRequest :=
    mkFriendRequest userId username (avatar_of userId) now pending in
  let ls2 :=
    set_received targetId (getReceivedRequests ls1 targetId ++ [newReceivedRequest]) ls1 in
  let targetSentRequests := getSentRequests ls2 targetId in
  match List.find (λ req, String.eqb (request_id req) userId) targetSentRequests with
  | Some mutualRequest =>
      acceptFriendRequest (acceptFriendRequest ls2 userId targetId now) targetId userId now
  | None => ls2
  end.

Definition rejectFriendRequest (ls : LocalStorage) (userId requesterId : string)
    : LocalStorage :=
  let receivedRequests := getReceivedRequests ls userId in
  set_received userId (filter (λ req, request_id req ≠ requesterId) receivedRequests) ls.

Definition updateFriendStatus (ls : LocalStorage) (userId friendId : string)
    (isOnline : bool) (now : Z) : LocalStorage :=
  let friends := getFriends ls userId in
  match findIndex (λ f, String.eqb (friend_id f) friendId) friends with
  | Some friendIndex =>
      set_friends userId
        (alter (λ f, mkFriend (friend_id f) (friend_username f) (friend_avatar f) now
                       (Some isOnline)) friendIndex friends) ls
  | None => ls
  end.

(** The store after [acceptFriendRequest] found the request at index [i]. *)
Definition accepted_store (ls : LocalStorage) (u q : string) (now : Z) (i : nat)
    (req : FriendRequest) : LocalStorage :=
  let ls1 := addFriend ls u (mkFriend (request_id req) (request_username req)
                               (request_avatar req) now None) now in
  let ls2 :=
    match findIndex (λ r, String.eqb (request_id r) u) (getSentRequests ls1 q) with
    | Some j => set_sent q (alter accept j (getSentRequests ls1 q)) ls1
    | None => ls1
    end in
  let ls3 := addFriend ls2 q (mkFriend u (js_or (usernames ls2 !! u) "User") (avatar_of u)
                               now None) now in
  set_received u (<[i := accept req]> (getReceivedRequests ls u)) ls3.

(** The ids in a friends list, in order. *)
Definition ids (l : list Friend) : list string := map friend_id l.

(** A browser with nothing stored. *)
Definition empty : LocalStorage := mkLocalStorage ∅ ∅ ∅ ∅.

(** A friend as a caller hands it to [addFriend]. *)
Definition friend_bob : Friend :=
  mkFriend "bob" "Bob" (avatar_of "bob") 0 None.

End Friends.

(** * Properties *)

(** ** Reading and writing the store *)

Lemma truthy_Some (s : string) : truthy (Some s) = true ↔ s ≠ "".
Proof.
  unfold truthy. destruct (String.eqb_spec s ""); simpl; split; congruence.
Qed.

Lemma truthy_true (o : option string) :
  truthy o = true → ∃ s, o = Some s ∧ s ≠ "".
Proof.
  destruct o as [s|]; [|discriminate].
  intros H. exists s. split; [done|]. by apply truthy_Some.
Qed.

Lemma truthy_default (o : option string) :
  truthy o = true → o = Some (default "" o).
Proof. intros (s & -> & _)%truthy_true. done. Qed.

Lemma sock_upd_sock st h f h' :
  sock (upd_sock h f st) h' = if decide (h = h') then f (sock st h) else sock st h'.
Proof.
  unfold sock, upd_sock. simpl. rewrite lookup_insert.
  by repeat case_decide.
Qed.

Lemma sock_upd_sock_eq st h f : sock (upd_sock h f st) h = f (sock st h).
Proof. rewrite sock_upd_sock. by rewrite decide_True. Qed.

Lemma sock_upd_sock_ne st h f h' : h ≠ h' → sock (upd_sock h f st) h' = sock st h'.
Proof. intros. rewrite sock_upd_sock. by rewrite decide_False. Qed.

Lemma sock_with_userSockets st f h : sock (with_userSockets f st) h = sock st h.
Proof. done. Qed.

Lemma sock_with_waitingUsers st f h : sock (with_waitingUsers f st) h = sock st h.
Proof. done. Qed.

(** ** Insertion-ordered maps *)

Module OMapFacts.
Import OMap.

Lemma get_set_eq k v m : get k (set k v m) = Some v.
Proof.
  induction m as [|[k' v'] m IH]; simpl.
  - by rewrite String.eqb_refl.
  - destruct (String.eqb_spec k' k) as [->|Hne]; simpl.
    + by rewrite String.eqb_refl.
    + by destruct (String.eqb_spec k' k).
Qed.

Lemma get_set_ne k k' v m : k ≠ k' → get k' (set k v m) = get k' m.
Proof.
  intros Hne. induction m as [|[k0 v0] m IH]; simpl.
  - by destruct (String.eqb_spec k k').
  - destruct (String.eqb_spec k0 k) as [->|Hne0]; simpl.
    + by destruct (String.eqb_spec k k').
    + by rewrite IH.
Qed.

Lemma get_delete_eq k m : get k (delete k m) = None.
Proof.
  induction m as [|[k0 v0] m IH]; simpl; [done|].
  destruct (String.eqb_spec k0 k) as [->|Hne]; simpl; [done|].
  by destruct (String.eqb_spec k0 k).
Qed.

Lemma get_delete_ne k k' m : k ≠ k' → get k' (delete k m) = get k' m.
Proof.
  intros Hne. induction m as [|[k0 v0] m IH]; simpl; [done|].
  destruct (String.eqb_spec k0 k) as [->|Hne0]; simpl.
  - by destruct (String.eqb_spec k k').
  - by rewrite IH.
Qed.

Lemma get_delete_None k k' m : get k' m = None → get k' (delete k m) = None.
Proof.
  intros H. destruct (decide (k = k')) as [->|Hne].
  - apply get_delete_eq.
  - by rewrite get_delete_ne.
Qed.

Lemma get_delete_Some k k' v m : get k' (delete k m) = Some v → k ≠ k' ∧ get k' m = Some v.
Proof.
  intros H. destruct (decide (k = k')) as [->|Hne].
  - by rewrite get_delete_eq in H.
  - by rewrite get_delete_ne in H.
Qed.


Lemma get_is_Some k m : is_Some (get k m) ↔ k ∈ keys m.
Proof.
  unfold keys. induction m as [|[k0 v0] m IH]; simpl.
  - split; [by intros [? ?]|by intros ?%elem_of_nil].
  - destruct (String.eqb_spec k0 k) as [->|Hne].
    + split; [intros _; by left|by eauto].
    + rewrite IH, elem_of_cons. split; [by right|]. by intros [?|?]; [congruence|].
Qed.

Lemma keys_set_present k v m : is_Some (get k m) → keys (set k v m) = keys m.
Proof.
  unfold keys. induction m as [|[k0 v0] m IH]; simpl.
  - by intros [? ?].
  - destruct (String.eqb_spec k0 k) as [->|Hne]; simpl; [done|].
    intros H. by rewrite IH.
Qed.

Lemma keys_set_absent k v m : get k m = None → keys (set k v m) = keys m ++ [k].
Proof.
  unfold keys. induction m as [|[k0 v0] m IH]; simpl; [done|].
  destruct (String.eqb_spec k0 k) as [->|Hne]; simpl; [done|].
  intros H. by rewrite IH.
Qed.

Lemma keys_delete k m : keys (delete k m) = filter (λ x, x ≠ k) (keys m).
Proof.
  unfold keys. induction m as [|[k0 v0] m IH]; simpl; [done|].
  destruct (String.eqb_spec k0 k) as [->|Hne]; simpl.
  - rewrite filter_cons_False; [done|]. by intros ?.
  - rewrite filter_cons_True; [|done]. by rewrite IH.
Qed.
End OMapFacts.

(** ** Choosing a partner *)

Lemma find_partner_Some uid ids pid :
  find_partner uid ids = Some pid → pid ∈ ids ∧ pid ≠ uid.
Proof.
  unfold find_partner. intros [Hin Hne]%find_some. split.
  - by apply list_elem_of_In.
  - destruct (String.eqb_spec pid uid); [done|done].
Qed.

Lemma find_partner_None uid ids :
  find_partner uid ids = None ↔ ∀ k, k ∈ ids → k = uid.
Proof.
  unfold find_partner. induction ids as [|k0 ids IH]; simpl.
  - split; [by intros _ k ?%elem_of_nil|done].
  - destruct (String.eqb_spec k0 uid) as [->|Hne]; simpl.
    + rewrite IH. split.
      * intros H k [->|?]%elem_of_cons; [done|by apply H].
      * intros H k Hk. apply H. by right.
    + split; [done|]. intros H. destruct Hne. apply H. by left.
Qed.

(** The chosen id is the first one in iteration order that is not the
    requester's own. *)
Lemma find_partner_first uid ids pid :
  find_partner uid ids = Some pid ↔
  ∃ before after, ids = before ++ pid :: after ∧
    (∀ k, k ∈ before → k = uid) ∧ pid ≠ uid.
Proof.
  unfold find_partner. split.
  - induction ids as [|k0 ids IH]; simpl; [done|].
    destruct (String.eqb_spec k0 uid) as [->|Hne]; simpl.
    + intros (before & after & -> & Hb & Hp)%IH.
      exists (uid :: before), after. split_and!; [done| |done].
      intros k [->|?]%elem_of_cons; [done|by apply Hb].
    + intros [= ->]. exists [], ids. split_and!; [done| |done].
      by intros k ?%elem_of_nil.
  - intros (before & after & -> & Hb & Hp).
    induction before as [|b before IH]; simpl.
    + by destruct (String.eqb_spec pid uid).
    + rewrite (Hb b) by (by left). rewrite String.eqb_refl. simpl.
      apply IH. intros k Hk. apply Hb. by right.
Qed.

Lemma find_partner_app uid l1 l2 :
  find_partner uid (l1 ++ l2) =
  match find_partner uid l1 with Some p => Some p | None => find_partner uid l2 end.
Proof.
  unfold find_partner. induction l1 as [|k l1 IH]; simpl; [done|].
  by destruct (negb (String.eqb k uid)).
Qed.

(** Enqueuing the requester does not change whom [find] returns. *)
Lemma find_partner_set uid h w :
  find_partner uid (OMap.keys (OMap.set uid h w)) = find_partner uid (OMap.keys w).
Proof.
  destruct (OMap.get uid w) as [v|] eqn:Hg.
  - by rewrite OMapFacts.keys_set_present.
  - rewrite OMapFacts.keys_set_absent by done. rewrite find_partner_app.
    destruct (find_partner uid (OMap.keys w)); [done|].
    unfold find_partner. simpl. by rewrite String.eqb_refl.
Qed.

Lemma size_ge_2 uid h w pid :
  find_partner uid (OMap.keys w) = Some pid →
  (2 <=? OMap.size (OMap.set uid h w)) = true.
Proof.
  intros Hf. apply Nat.leb_le.
  assert (uid ∈ OMap.keys (OMap.set uid h w)) as Hu.
  { apply OMapFacts.get_is_Some. rewrite OMapFacts.get_set_eq. by eexists. }
  rewrite <-(find_partner_set uid h) in Hf.
  apply find_partner_Some in Hf as [Hp Hne].
  unfold OMap.size. rewrite <-(length_map fst). fold (OMap.keys (OMap.set uid h w)).
  destruct (OMap.keys (OMap.set uid h w)) as [|a [|b l]]; simpl; [|exfalso|lia].
  - by apply elem_of_nil in Hu.
  - apply list_elem_of_singleton in Hu, Hp. congruence.
Qed.

(** ** The outcome of matching *)

Lemma match_waiting_paired st h pid :
  find_partner (default "" (userId (sock st h))) (OMap.keys (waitingUsers st)) = Some pid →
  pid ≠ "" →
  ∃ ph, OMap.get pid (waitingUsers st) = Some ph ∧ match_waiting st h = paired st h pid ph.
Proof.
  intros Hf Hne. unfold match_waiting. cbn [with_waitingUsers waitingUsers].
  rewrite (size_ge_2 _ _ _ _ Hf), find_partner_set, Hf.
  assert (truthy (Some pid) = true) as -> by by apply truthy_Some.
  pose proof (find_partner_Some _ _ _ Hf) as [Hin Hpu].
  apply OMapFacts.get_is_Some in Hin as [ph Hph].
  exists ph. split; [done|].
  rewrite OMapFacts.get_set_ne by done. rewrite Hph. done.
Qed.

Lemma match_waiting_enqueued st h :
  (∀ pid, find_partner (default "" (userId (sock st h))) (OMap.keys (waitingUsers st)) = Some pid →
          pid = "") →
  match_waiting st h = enqueued st h.
Proof.
  intros Hf. unfold match_waiting, enqueued. cbn [with_waitingUsers waitingUsers].
  rewrite find_partner_set.
  destruct (2 <=? _); [|done].
  destruct (find_partner _ _) as [pid|] eqn:E; [|done].
  by rewrite (Hf pid eq_refl).
Qed.

(** Either of the two, decided by [find] alone. *)
Lemma match_waiting_cases st h :
  (∃ pid ph, find_partner (default "" (userId (sock st h))) (OMap.keys (waitingUsers st)) = Some pid
      ∧ pid ≠ "" ∧ pid ≠ default "" (userId (sock st h))
      ∧ OMap.get pid (waitingUsers st) = Some ph
      ∧ match_waiting st h = paired st h pid ph)
  ∨ ((∀ pid, find_partner (default "" (userId (sock st h))) (OMap.keys (waitingUsers st)) = Some pid →
          pid = "")
      ∧ match_waiting st h = enqueued st h).
Proof.
  destruct (find_partner _ _) as [pid|] eqn:E.
  - destruct (decide (pid = "")) as [->|Hne].
    + right. split; [by intros ? [= <-]|]. apply match_waiting_enqueued.
      rewrite E. by intros ? [= <-].
    + left. destruct (match_waiting_paired st h pid E Hne) as (ph & Hph & Hm).
      exists pid, ph. split_and!; try done. by apply find_partner_Some in E as [_ ?].
  - right. split; [done|]. apply match_waiting_enqueued. by rewrite E.
Qed.

(** ** Auto-authentication *)

Lemma auto_authenticate_waitingUsers st h rnd :
  waitingUsers (auto_authenticate st h rnd) = waitingUsers st.
Proof. unfold auto_authenticate. by destruct (truthy _). Qed.

Lemma auto_authenticate_userId st h rnd :
  userId (sock (auto_authenticate st h rnd) h) =
  Some (if truthy (userId (sock st h)) then default "" (userId (sock st h)) else rnd).
Proof.
  unfold auto_authenticate. destruct (truthy _) eqn:E.
  - by apply truthy_default.
  - rewrite sock_with_userSockets, sock_upd_sock_eq. done.
Qed.

Lemma auto_authenticate_chatPartnerId st h rnd h' :
  chatPartnerId (sock (auto_authenticate st h rnd) h') = chatPartnerId (sock st h').
Proof.
  unfold auto_authenticate. destruct (truthy _); [done|].
  rewrite sock_with_userSockets, sock_upd_sock. by case_decide; subst.
Qed.

Lemma auto_authenticate_truthy st h rnd :
  truthy (userId (sock st h)) = true → auto_authenticate st h rnd = st.
Proof. unfold auto_authenticate. by intros ->. Qed.

(** ** C3: [end_video_call] *)

(** C3, as the code has it, at [st_pair]: after [a] ends the video call
    both sockets still hold their [chatPartnerId]; only the notification
    is sent. *)
Lemma end_video_call_keeps_links :
  chatPartnerId (sock st_pair 1) = Some "b" ∧
  chatPartnerId (sock st_pair 2) = Some "a" ∧
  chatPartnerId (sock (end_video_call st_pair 1).1 1) = Some "b" ∧
  chatPartnerId (sock (end_video_call st_pair 1).1 2) = Some "a" ∧
  (end_video_call st_pair 1).2 = [(2, E_video_call_ended (Some "a"))].
Proof. vm_compute. done. Qed.

(** C3 (amended): [end_video_call] from a socket with a partner changes
    nothing in the store, so every session link stays as it was, and the
    partner, when registered, is sent exactly one [video_call_ended]
    carrying the sender's id; an unregistered partner is sent nothing. *)
Theorem end_video_call_notifies_only st h pid :
  chatPartnerId (sock st h) = Some pid → pid ≠ "" →
  (end_video_call st h).1 = st ∧
  (end_video_call st h).2 =
    match userSockets st !! pid with
    | Some ph => [(ph, E_video_call_ended (userId (sock st h)))]
    | None => []
    end.
Proof.
  intros Hp Hne. unfold end_video_call.
  rewrite Hp. assert (truthy (Some pid) = true) as -> by by apply truthy_Some.
  simpl. by destruct (userSockets st !! pid).
Qed.

Lemma end_video_call_notifies_only_witness :
  (end_video_call st_pair 1).1 = st_pair ∧
  (end_video_call st_pair 1).2 = [(2, E_video_call_ended (Some "a"))].
Proof.
  apply (end_video_call_notifies_only st_pair 1 "b"); [reflexivity|discriminate].
Defined.

(** ** C4: [send_message] to an unregistered partner *)

(** C4, as the code has it, at [st_partner_gone]: [a] still has partner
    [b], no connection is registered for [b] when the message arrives nor
    when its write returns, and [a]'s message is answered with
    [message_sent]. *)
Lemma send_message_offline_confirms :
  chatPartnerId (sock st_partner_gone 1) = Some "b" ∧
  userSockets st_partner_gone !! "b" = None ∧
  send_message st_partner_gone st_partner_gone 1 "hello" (Some ("m1", 7%Z)) "r" 8%Z 9%Z
    = [(1, E_message_sent "m1" 7%Z)] ∧
  run st_partner_gone [(1, SendMessage "hello");
                       (1, MessageStored "hello" (Some ("m1", 7%Z)) "r" 8%Z 9%Z)]
    = (st_partner_gone, [(1, E_message_sent "m1" 7%Z)]).
Proof. vm_compute. done. Qed.

(** C4 (amended): a message arrives from a user who has a partner; when
    its database write returns, the sender's link is gone or names an id
    that is not in the registry.  Then the message is forwarded to nobody,
    no [error] is emitted, neither turn of the handler changes the store,
    and the sender is sent [message_sent] with the id of the stored (or
    fallback) message, as for a delivered message. *)
Theorem send_message_partner_offline st st' h message stored rnd caught now uid pid :
  userId (sock st h) = Some uid → uid ≠ "" →
  chatPartnerId (sock st h) = Some pid → pid ≠ "" →
  (∀ pid', chatPartnerId (sock st' h) = Some pid' → userSockets st' !! pid' = None) →
  let sent := [(h, E_message_sent (default (rnd, caught) stored).1 (default (rnd, caught) stored).2)] in
  send_message st st' h message stored rnd caught now = sent ∧
  handle st h (SendMessage message) = (st, []) ∧
  handle st' h (MessageStored message stored rnd caught now) = (st', sent).
Proof.
  intros Hu Hune Hp Hpne Hreg sent.
  assert (not_in_session st h = false) as Hguard.
  { unfold not_in_session. rewrite Hu, Hp.
    assert (truthy (Some uid) = true) as -> by by apply truthy_Some.
    by assert (truthy (Some pid) = true) as -> by by apply truthy_Some. }
  assert (send_message_resume st' h message stored rnd caught now = sent) as Hres.
  { unfold send_message_resume.
    destruct (chatPartnerId (sock st' h)) as [pid'|] eqn:Hp'; cbn [mbind option_bind]; [|done].
    by rewrite (Hreg pid' eq_refl). }
  unfold send_message, handle, send_message_arrival. by rewrite Hguard, Hres.
Qed.

Lemma send_message_partner_offline_witness :
  (send_message st_partner_gone st_partner_gone 1 "hello" None "r" 8%Z 9%Z
     = [(1, E_message_sent "r" 8%Z)] ∧
   handle st_partner_gone 1 (SendMessage "hello") = (st_partner_gone, []) ∧
   handle st_partner_gone 1 (MessageStored "hello" None "r" 8%Z 9%Z)
     = (st_partner_gone, [(1, E_message_sent "r" 8%Z)])) ∧
  (send_message st_pair (step st_pair (2, Disconnect)).1 1 "hello" None "r" 8%Z 9%Z
     = [(1, E_message_sent "r" 8%Z)] ∧
   handle st_pair 1 (SendMessage "hello") = (st_pair, []) ∧
   handle (step st_pair (2, Disconnect)).1 1 (MessageStored "hello" None "r" 8%Z 9%Z)
     = ((step st_pair (2, Disconnect)).1, [(1, E_message_sent "r" 8%Z)])).
Proof.
  split.
  - apply (send_message_partner_offline st_partner_gone st_partner_gone
             1 "hello" None "r" 8%Z 9%Z "a" "b");
      [reflexivity|discriminate|reflexivity|discriminate|].
    intros pid' Hp. vm_compute in Hp. injection Hp as <-. reflexivity.
  - apply (send_message_partner_offline st_pair (step st_pair (2, Disconnect)).1
             1 "hello" None "r" 8%Z 9%Z "a" "b");
      [reflexivity|discriminate|reflexivity|discriminate|].
    intros pid' Hp. vm_compute in Hp. discriminate.
Defined.

(** ** Fields that a link update leaves alone *)

Lemma userId_upd_chatPartnerId st h p h' :
  userId (sock (upd_sock h (set_chatPartnerId p) st) h') = userId (sock st h').
Proof. rewrite sock_upd_sock. by case_decide; subst. Qed.

Lemma username_upd_chatPartnerId st h p h' :
  username (sock (upd_sock h (set_chatPartnerId p) st) h') = username (sock st h').
Proof. rewrite sock_upd_sock. by case_decide; subst. Qed.

Lemma connected_upd_chatPartnerId st h p h' :
  connected (sock (upd_sock h (set_chatPartnerId p) st) h') = connected (sock st h').
Proof. rewrite sock_upd_sock. by case_decide; subst. Qed.

Lemma chatPartnerId_upd_chatPartnerId st h p h' :
  chatPartnerId (sock (upd_sock h (set_chatPartnerId p) st) h') =
  if decide (h = h') then p else chatPartnerId (sock st h').
Proof. rewrite sock_upd_sock. by case_decide. Qed.

(** ** The store after a pairing *)

Lemma delete_set k v m : OMap.delete k (OMap.set k v m) = OMap.delete k m.
Proof.
  induction m as [|[k0 v0] m IH]; simpl.
  - by rewrite String.eqb_refl.
  - destruct (String.eqb_spec k0 k) as [->|Hne]; simpl.
    + by rewrite String.eqb_refl.
    + destruct (String.eqb_spec k0 k); [done|]. by rewrite IH.
Qed.

Lemma paired_waitingUsers st h pid ph :
  waitingUsers (paired st h pid ph).1 =
  OMap.delete pid (OMap.delete (default "" (userId (sock st h))) (waitingUsers st)).
Proof. unfold paired. simpl. by rewrite delete_set. Qed.

Lemma paired_userId st h pid ph h' :
  userId (sock (paired st h pid ph).1 h') = userId (sock st h').
Proof.
  unfold paired. cbn [fst].
  by rewrite !userId_upd_chatPartnerId, sock_with_waitingUsers.
Qed.


Lemma paired_connected st h pid ph h' :
  connected (sock (paired st h pid ph).1 h') = connected (sock st h').
Proof.
  unfold paired. cbn [fst].
  by rewrite !connected_upd_chatPartnerId, sock_with_waitingUsers.
Qed.

Lemma paired_chatPartnerId st h pid ph h' :
  chatPartnerId (sock (paired st h pid ph).1 h') =
  if decide (ph = h') then userId (sock st h)
  else if decide (h = h') then Some pid
  else chatPartnerId (sock st h').
Proof.
  unfold paired. cbn [fst].
  rewrite !chatPartnerId_upd_chatPartnerId, userId_upd_chatPartnerId.
  by rewrite !sock_with_waitingUsers.
Qed.

Lemma paired_emits st h pid ph :
  (paired st h pid ph).2 =
  [(h, E_searching);
   (h, E_chat_connected pid (username (sock st ph)));
   (ph, E_chat_connected (default "" (userId (sock st h))) (username (sock st h)))].
Proof.
  unfold paired. cbn [snd].
  by rewrite !username_upd_chatPartnerId, !sock_with_waitingUsers.
Qed.

(** ** C10: disconnect of a superseded connection *)

Lemma disconnect_userSockets st h :
  truthy (userId (sock st h)) = true →
  userSockets (disconnect st h).1 = delete (default "" (userId (sock st h))) (userSockets st).
Proof.
  intros Hu. unfold disconnect. rewrite Hu.
  destruct (truthy (chatPartnerId _)); [|done].
  by destruct (userSockets _ !! _).
Qed.

Lemma disconnect_waitingUsers st h :
  truthy (userId (sock st h)) = true →
  waitingUsers (disconnect st h).1 =
  OMap.delete (default "" (userId (sock st h))) (waitingUsers st).
Proof.
  intros Hu. unfold disconnect. rewrite Hu.
  destruct (truthy (chatPartnerId _)); [|done].
  by destruct (userSockets _ !! _).
Qed.

Lemma disconnect_userId st h h' :
  userId (sock (disconnect st h).1 h') = userId (sock st h').
Proof.
  unfold disconnect. destruct (truthy (userId _)); [|done].
  destruct (truthy (chatPartnerId _)); [|done].
  destruct (_ !! _); [|done]. cbn [fst]. by rewrite userId_upd_chatPartnerId.
Qed.

Lemma disconnect_connected st h h' :
  connected (sock (disconnect st h).1 h') = connected (sock st h').
Proof.
  unfold disconnect. destruct (truthy (userId _)); [|done].
  destruct (truthy (chatPartnerId _)); [|done].
  destruct (_ !! _); [|done]. cbn [fst]. by rewrite connected_upd_chatPartnerId.
Qed.

Lemma authenticate_registers st h token decoded rnd :
  userSockets (authenticate st h token decoded rnd).1 !! (auth_identity token decoded rnd).1
    = Some h
  ∧ userId (sock (authenticate st h token decoded rnd).1 h)
    = Some (auth_identity token decoded rnd).1.
Proof.
  unfold authenticate. destruct (auth_identity _ _ _) as [uid uname]. simpl.
  split; [by rewrite lookup_insert_eq|].
  unfold sock. simpl. by rewrite lookup_insert_eq.
Qed.

(** C10: the [disconnect] handler deletes the registry entry and the pool
    entry keyed by the socket's [userId] whichever socket they hold.  So
    when a second socket [h2] has registered under the id of socket [h1],
    replacing it, the disconnect of [h1] leaves the live [h2] without a
    registry entry and takes its id out of the waiting pool. *)
Theorem disconnect_unregisters_successor st h1 h2 uid :
  h1 ≠ h2 →
  userId (sock st h1) = Some uid → uid ≠ "" →
  userSockets st !! uid = Some h2 →
  userSockets (disconnect st h1).1 = delete uid (userSockets st) ∧
  waitingUsers (disconnect st h1).1 = OMap.delete uid (waitingUsers st) ∧
  userSockets (disconnect st h1).1 !! uid = None ∧
  OMap.get uid (waitingUsers (disconnect st h1).1) = None ∧
  userId (sock (disconnect st h1).1 h2) = userId (sock st h2) ∧
  connected (sock (disconnect st h1).1 h2) = connected (sock st h2).
Proof.
  intros Hne Hu Hune Hreg.
  assert (truthy (userId (sock st h1)) = true) as Ht by (rewrite Hu; by apply truthy_Some).
  assert (default "" (userId (sock st h1)) = uid) as Hd by by rewrite Hu.
  split_and!.
  - by rewrite disconnect_userSockets, Hd.
  - by rewrite disconnect_waitingUsers, Hd.
  - rewrite disconnect_userSockets, Hd by done. apply lookup_delete_eq.
  - rewrite disconnect_waitingUsers, Hd by done. apply OMapFacts.get_delete_eq.
  - apply disconnect_userId.
  - apply disconnect_connected.
Qed.

(** At [st_two_connections] socket 2 is the registered, waiting connection
    of [a]; the disconnect of socket 1 removes both entries. *)
Lemma disconnect_unregisters_successor_witness :
  userSockets st_two_connections !! "a" = Some 2 ∧
  OMap.get "a" (waitingUsers st_two_connections) = Some 2 ∧
  userSockets (disconnect st_two_connections 1).1 !! "a" = None ∧
  OMap.get "a" (waitingUsers (disconnect st_two_connections 1).1) = None ∧
  connected (sock (disconnect st_two_connections 1).1 2) = true.
Proof.
  pose proof (disconnect_unregisters_successor st_two_connections 1 2 "a") as H.
  destruct H as (_ & _ & H3 & H4 & _ & H6);
    [discriminate|reflexivity|discriminate|reflexivity|].
  split_and!; [reflexivity|reflexivity|exact H3|exact H4|].
  rewrite H6. reflexivity.
Defined.

(** ** What [search_chat] emits *)

Lemma match_waiting_emits st h :
  head (match_waiting st h).2 = Some (h, E_searching) ∧
  ∀ o m, o ∈ (match_waiting st h).2 → o.2 ≠ E_error m.
Proof.
  destruct (match_waiting_cases st h) as [(pid & ph & _ & _ & _ & _ & ->)|[_ ->]].
  - rewrite paired_emits. split; [done|].
    intros o m Hin. repeat (apply elem_of_cons in Hin as [->|Hin]); try done.
    by apply elem_of_nil in Hin.
  - unfold enqueued. cbn [snd]. split; [done|].
    intros o m [->|Hin]%elem_of_cons; [done|]. by apply elem_of_nil in Hin.
Qed.

Lemma enqueued_get st h :
  OMap.get (default "" (userId (sock st h))) (waitingUsers (enqueued st h).1) = Some h.
Proof. unfold enqueued. cbn. apply OMapFacts.get_set_eq. Qed.

Lemma search_chat_paired st h rnd pid :
  find_partner (default "" (userId (sock (auto_authenticate st h rnd) h)))
    (OMap.keys (waitingUsers st)) = Some pid →
  pid ≠ "" →
  ∃ ph, OMap.get pid (waitingUsers st) = Some ph ∧
    search_chat st h rnd = paired (auto_authenticate st h rnd) h pid ph.
Proof.
  intros Hf Hne. unfold search_chat.
  rewrite <-(auto_authenticate_waitingUsers st h rnd) in Hf |- *.
  by apply match_waiting_paired.
Qed.

Lemma search_chat_enqueued st h rnd :
  (∀ pid, find_partner (default "" (userId (sock (auto_authenticate st h rnd) h)))
            (OMap.keys (waitingUsers st)) = Some pid → pid = "") →
  search_chat st h rnd = enqueued (auto_authenticate st h rnd) h.
Proof.
  intros Hf. unfold search_chat. apply match_waiting_enqueued.
  by rewrite auto_authenticate_waitingUsers.
Qed.

(** ** C9: [search_chat] on a socket that never authenticated *)




(** ** C5: [searching] and [chat_connected] *)

(** C5, as the code has it, at [st_pair_and_waiting]: [c] is waiting, a
    fourth socket asks for a match and is paired with [c] at once, and the
    first event it is sent is nevertheless [searching]. *)
Lemma search_chat_paired_still_searching :
  OMap.keys (waitingUsers st_pair_and_waiting) = ["c"] ∧
  (search_chat st_pair_and_waiting 4 "d").2 =
    [(4, E_searching);
     (4, E_chat_connected "c" (Some "Anonymous_c"));
     (3, E_chat_connected "d" (Some "Anonymous_d"))].
Proof. vm_compute. done. Qed.

(** C5 (amended): every [search_chat] first sends [searching] to the
    caller, whether or not a partner is found.  When the first id in the
    pool other than the caller's is a non-empty [pid], the caller is then
    sent [chat_connected] for [pid], the socket waiting under [pid] is sent
    [chat_connected] for the caller, and neither is in the pool afterwards.
    Otherwise [searching] is the only event and the caller is in the pool
    afterwards. *)
Theorem search_chat_always_searching st h rnd :
  let st0 := auto_authenticate st h rnd in
  let uid := default "" (userId (sock st0 h)) in
  head (search_chat st h rnd).2 = Some (h, E_searching) ∧
  (∀ pid, find_partner uid (OMap.keys (waitingUsers st)) = Some pid → pid ≠ "" →
     ∃ ph, OMap.get pid (waitingUsers st) = Some ph ∧
       (search_chat st h rnd).2 =
         [(h, E_searching);
          (h, E_chat_connected pid (username (sock st0 ph)));
          (ph, E_chat_connected uid (username (sock st0 h)))] ∧
       OMap.get uid (waitingUsers (search_chat st h rnd).1) = None ∧
       OMap.get pid (waitingUsers (search_chat st h rnd).1) = None) ∧
  ((∀ pid, find_partner uid (OMap.keys (waitingUsers st)) = Some pid → pid = "") →
     (search_chat st h rnd).2 = [(h, E_searching)] ∧
     OMap.get uid (waitingUsers (search_chat st h rnd).1) = Some h).
Proof.
  intros st0 uid. split_and!.
  - apply match_waiting_emits.
  - intros pid Hf Hne.
    destruct (search_chat_paired st h rnd pid Hf Hne) as (ph & Hph & ->).
    exists ph. fold st0. rewrite paired_emits, paired_waitingUsers. fold uid.
    split_and!; [done|done| |].
    + apply OMapFacts.get_delete_None. subst st0.
      rewrite auto_authenticate_waitingUsers. apply OMapFacts.get_delete_eq.
    + apply OMapFacts.get_delete_eq.
  - intros Hf. rewrite (search_chat_enqueued st h rnd Hf). fold st0.
    split; [done|]. apply enqueued_get.
Qed.

(** Both cases at concrete stores: paired at [st_pair_and_waiting], where
    [c] waits, and enqueued on the empty store. *)
Lemma search_chat_always_searching_witness :
  (∃ ph, OMap.get "c" (waitingUsers st_pair_and_waiting) = Some ph ∧
     (search_chat st_pair_and_waiting 4 "d").2 =
       [(4, E_searching);
        (4, E_chat_connected "c" (username (sock (auto_authenticate st_pair_and_waiting 4 "d") ph)));
        (ph, E_chat_connected "d" (username (sock (auto_authenticate st_pair_and_waiting 4 "d") 4)))] ∧
     OMap.get "d" (waitingUsers (search_chat st_pair_and_waiting 4 "d").1) = None ∧
     OMap.get "c" (waitingUsers (search_chat st_pair_and_waiting 4 "d").1) = None) ∧
  ((search_chat init 4 "d").2 = [(4, E_searching)] ∧
   OMap.get "d" (waitingUsers (search_chat init 4 "d").1) = Some 4).
Proof.
  split.
  - destruct (search_chat_always_searching st_pair_and_waiting 4 "d") as (_ & H & _).
    apply (H "c"); [reflexivity|discriminate].
  - destruct (search_chat_always_searching init 4 "d") as (_ & _ & H).
    apply H. intros pid Hp. vm_compute in Hp. discriminate Hp.
Defined.

(** ** C6: first come, first served *)

(** C6, as the code has it, at [st_empty_head]: three users wait, the
    earliest under the empty id.  A fourth socket asks for a match and is
    paired with nobody: it is sent [searching] alone, gets no partner, and
    all four wait afterwards. *)
Lemma search_chat_fifo_empty_head :
  OMap.keys (waitingUsers st_empty_head) = [""; "b"; "c"] ∧
  (search_chat st_empty_head 4 "u4").2 = [(4, E_searching)] ∧
  chatPartnerId (sock (search_chat st_empty_head 4 "u4").1 4) = None ∧
  OMap.keys (waitingUsers (search_chat st_empty_head 4 "u4").1) = [""; "b"; "c"; "u4"].
Proof. vm_compute. done. Qed.

(** C6 (amended): whenever the pool's ids, in the order they were
    enqueued, are [before ++ pid :: after], with nothing but the
    requester's own id in [before] and [pid] a non-empty id other than the
    requester's, then [search_chat] pairs the requester with [pid]: both
    are sent [chat_connected] for each other, the socket waiting under
    [pid] gets the requester as partner, the requester gets [pid], and the
    pool afterwards is the old pool without [pid] and the requester, the
    order of the others unchanged. *)
Theorem search_chat_fifo st h rnd before pid after :
  let st0 := auto_authenticate st h rnd in
  let uid := default "" (userId (sock st0 h)) in
  OMap.keys (waitingUsers st) = before ++ pid :: after →
  (∀ k, k ∈ before → k = uid) →
  pid ≠ uid → pid ≠ "" →
  ∃ ph, OMap.get pid (waitingUsers st) = Some ph ∧
    (search_chat st h rnd).2 =
      [(h, E_searching);
       (h, E_chat_connected pid (username (sock st0 ph)));
       (ph, E_chat_connected uid (username (sock st0 h)))] ∧
    waitingUsers (search_chat st h rnd).1 = OMap.delete pid (OMap.delete uid (waitingUsers st)) ∧
    OMap.keys (waitingUsers (search_chat st h rnd).1) =
      filter (λ k, k ≠ pid) (filter (λ k, k ≠ uid) (before ++ pid :: after)) ∧
    chatPartnerId (sock (search_chat st h rnd).1 ph) = Some uid ∧
    (ph ≠ h → chatPartnerId (sock (search_chat st h rnd).1 h) = Some pid).
Proof.
  intros st0 uid Hkeys Hbefore Hpu Hne.
  assert (find_partner uid (OMap.keys (waitingUsers st)) = Some pid) as Hf.
  { apply find_partner_first. by exists before, after. }
  destruct (search_chat_paired st h rnd pid Hf Hne) as (ph & Hph & ->).
  exists ph. fold st0. rewrite paired_emits, paired_waitingUsers. fold uid.
  assert (waitingUsers st0 = waitingUsers st) as -> by apply auto_authenticate_waitingUsers.
  assert (userId (sock st0 h) = Some uid) as Huid.
  { subst uid st0. by rewrite auto_authenticate_userId. }
  split_and!; [done|done|done| | |].
  - by rewrite !OMapFacts.keys_delete, Hkeys.
  - rewrite paired_chatPartnerId. by rewrite decide_True.
  - intros Hneh. rewrite paired_chatPartnerId. rewrite decide_False by done.
    by rewrite decide_True.
Qed.

(** Two reachable pools.  At [st_one_waiting] user [a] waits and socket 2
    is paired with it.  At [st_empty_head] the ids [""], [b], [c] wait in
    that order and a fifth socket, itself given the empty id, asks: it
    takes the place of the entry under its own id and is paired with [b],
    the first other id, while [c] keeps waiting. *)
Lemma search_chat_fifo_witness :
  (∃ ph, OMap.get "a" (waitingUsers st_one_waiting) = Some ph ∧
     (search_chat st_one_waiting 2 "b").2 =
       [(2, E_searching);
        (2, E_chat_connected "a" (username (sock (auto_authenticate st_one_waiting 2 "b") ph)));
        (ph, E_chat_connected "b" (Some "Anonymous_b"))] ∧
     OMap.keys (waitingUsers (search_chat st_one_waiting 2 "b").1) = [] ∧
     chatPartnerId (sock (search_chat st_one_waiting 2 "b").1 ph) = Some "b") ∧
  (∃ ph, OMap.get "b" (waitingUsers st_empty_head) = Some ph ∧
     (search_chat st_empty_head 5 "").2 =
       [(5, E_searching);
        (5, E_chat_connected "b" (username (sock (auto_authenticate st_empty_head 5 "") ph)));
        (ph, E_chat_connected "" (Some "Anonymous_"))] ∧
     OMap.keys (waitingUsers (search_chat st_empty_head 5 "").1) = ["c"] ∧
     chatPartnerId (sock (search_chat st_empty_head 5 "").1 ph) = Some "").
Proof.
  split.
  - destruct (search_chat_fifo st_one_waiting 2 "b" [] "a" [])
      as (ph & H1 & H2 & _ & H4 & H5 & _).
    + reflexivity.
    + intros k Hk. by apply elem_of_nil in Hk.
    + discriminate.
    + discriminate.
    + exists ph. split_and!; [exact H1|exact H2|exact H4|exact H5].
  - destruct (search_chat_fifo st_empty_head 5 "" [""] "b" ["c"])
      as (ph & H1 & H2 & _ & H4 & H5 & _).
    + reflexivity.
    + intros k Hk. apply list_elem_of_singleton in Hk. exact Hk.
    + discriminate.
    + discriminate.
    + exists ph. split_and!; [exact H1|exact H2|exact H4|exact H5].
Defined.

(** ** C2: [search_chat] from a user who has a partner *)

(** C2, as the code has it, at [st_pair_and_waiting]: [a] has partner [b]
    and asks for a match while [c] waits.  No rejection is sent; [a] is
    paired with [c], and [b] still has [a] as partner. *)
Lemma search_chat_not_rejected :
  chatPartnerId (sock st_pair_and_waiting 1) = Some "b" ∧
  chatPartnerId (sock st_pair_and_waiting 2) = Some "a" ∧
  (search_chat st_pair_and_waiting 1 "r").2 =
    [(1, E_searching);
     (1, E_chat_connected "c" (Some "Anonymous_c"));
     (3, E_chat_connected "a" (Some "Anonymous_a"))] ∧
  chatPartnerId (sock (search_chat st_pair_and_waiting 1 "r").1 1) = Some "c" ∧
  chatPartnerId (sock (search_chat st_pair_and_waiting 1 "r").1 2) = Some "a".
Proof. vm_compute. done. Qed.

(** C2 (amended): a [search_chat] from a user who has a partner is
    handled like any other.  No [error] is emitted and [searching] is sent
    first.  If the first id in the pool other than the caller's is a
    non-empty [pid], waiting on socket [ph], the caller is paired with it:
    [ph] gets the caller as partner, the caller (when it is not [ph]
    itself) gets [pid] in place of its old partner, and every other
    socket, the old partner included, keeps its link.  Otherwise the
    caller is enqueued and every link is kept. *)
Theorem search_chat_ignores_session st h rnd uid cp :
  userId (sock st h) = Some uid → uid ≠ "" →
  chatPartnerId (sock st h) = Some cp → cp ≠ "" →
  head (search_chat st h rnd).2 = Some (h, E_searching) ∧
  (∀ o m, o ∈ (search_chat st h rnd).2 → o.2 ≠ E_error m) ∧
  (∀ pid, find_partner uid (OMap.keys (waitingUsers st)) = Some pid → pid ≠ "" →
     ∃ ph, OMap.get pid (waitingUsers st) = Some ph ∧
       (h, E_chat_connected pid (username (sock st ph))) ∈ (search_chat st h rnd).2 ∧
       chatPartnerId (sock (search_chat st h rnd).1 ph) = Some uid ∧
       (ph ≠ h → chatPartnerId (sock (search_chat st h rnd).1 h) = Some pid) ∧
       (∀ h', h' ≠ h → h' ≠ ph →
          chatPartnerId (sock (search_chat st h rnd).1 h') = chatPartnerId (sock st h'))) ∧
  ((∀ pid, find_partner uid (OMap.keys (waitingUsers st)) = Some pid → pid = "") →
     OMap.get uid (waitingUsers (search_chat st h rnd).1) = Some h ∧
     ∀ h', chatPartnerId (sock (search_chat st h rnd).1 h') = chatPartnerId (sock st h')).
Proof.
  intros Hu Hune Hcp Hcpne.
  assert (auto_authenticate st h rnd = st) as Hauto.
  { apply auto_authenticate_truthy. rewrite Hu. by apply truthy_Some. }
  assert (default "" (userId (sock st h)) = uid) as Hd by by rewrite Hu.
  split_and!.
  - apply match_waiting_emits.
  - apply match_waiting_emits.
  - intros pid Hf Hne.
    destruct (search_chat_paired st h rnd pid) as (ph & Hph & ->).
    { by rewrite Hauto, Hd. }
    { done. }
    rewrite Hauto. exists ph. rewrite paired_emits. split_and!.
    + done.
    + apply elem_of_cons. right. by left.
    + rewrite paired_chatPartnerId. by rewrite decide_True.
    + intros Hneh. rewrite paired_chatPartnerId.
      rewrite decide_False by done. by rewrite decide_True.
    + intros h' H1 H2. rewrite paired_chatPartnerId.
      by rewrite !decide_False.
  - intros Hf. rewrite search_chat_enqueued.
    + rewrite Hauto. split; [|done]. rewrite <-Hd. apply enqueued_get.
    + by rewrite Hauto, Hd.
Qed.

(** At [st_pair_and_waiting] with [a] asking again, and at [st_pair] where
    nobody waits. *)
Lemma search_chat_ignores_session_witness :
  (∃ ph, OMap.get "c" (waitingUsers st_pair_and_waiting) = Some ph ∧
     chatPartnerId (sock (search_chat st_pair_and_waiting 1 "r").1 ph) = Some "a" ∧
     (ph ≠ 1 → chatPartnerId (sock (search_chat st_pair_and_waiting 1 "r").1 1) = Some "c")) ∧
  OMap.get "a" (waitingUsers (search_chat st_pair 1 "r").1) = Some 1.
Proof.
  split.
  - destruct (search_chat_ignores_session st_pair_and_waiting 1 "r" "a" "b")
      as (_ & _ & H & _); [reflexivity|discriminate|reflexivity|discriminate|].
    destruct (H "c") as (ph & H1 & _ & H3 & H4 & _); [reflexivity|discriminate|].
    exists ph. split_and!; [exact H1|exact H3|exact H4].
  - destruct (search_chat_ignores_session st_pair 1 "r" "a" "b")
      as (_ & _ & _ & H); [reflexivity|discriminate|reflexivity|discriminate|].
    apply H. intros pid Hp. vm_compute in Hp. discriminate Hp.
Defined.

(** ** C8: transport disconnect *)

Lemma disconnect_no_partner st h :
  truthy (userId (sock st h)) = true →
  truthy (chatPartnerId (sock st h)) = false →
  disconnect st h =
    (with_waitingUsers (OMap.delete (default "" (userId (sock st h))))
       (with_userSockets (delete (default "" (userId (sock st h)))) st), []).
Proof. intros Hu Hp. unfold disconnect. by rewrite Hu, Hp. Qed.

Lemma disconnect_partner st h uid pid :
  userId (sock st h) = Some uid → uid ≠ "" →
  chatPartnerId (sock st h) = Some pid → pid ≠ "" →
  disconnect st h =
    let st2 := with_waitingUsers (OMap.delete uid) (with_userSockets (delete uid) st) in
    match delete uid (userSockets st) !! pid with
    | Some ph => (upd_sock ph (set_chatPartnerId None) st2, [(ph, E_partner_left)])
    | None => (st2, [])
    end.
Proof.
  intros Hu Hune Hp Hpne. unfold disconnect. rewrite Hu, Hp.
  assert (truthy (Some uid) = true) as -> by by apply truthy_Some.
  assert (truthy (Some pid) = true) as -> by by apply truthy_Some.
  done.
Qed.








(** ** What each handler does to [userId] and to the pool *)

Lemma userId_upd_connected st h b h' :
  userId (sock (upd_sock h (set_connected b) st) h') = userId (sock st h').
Proof. rewrite sock_upd_sock. by case_decide; subst. Qed.

Lemma chatPartnerId_upd_connected st h b h' :
  chatPartnerId (sock (upd_sock h (set_connected b) st) h') = chatPartnerId (sock st h').
Proof. rewrite sock_upd_sock. by case_decide; subst. Qed.

Lemma connected_upd_connected st h b h' :
  connected (sock (upd_sock h (set_connected b) st) h') =
  if decide (h = h') then b else connected (sock st h').
Proof. rewrite sock_upd_sock. by case_decide. Qed.

Lemma leave_chat_userId st h h' :
  userId (sock (leave_chat st h).1 h') = userId (sock st h').
Proof.
  unfold leave_chat. destruct (_ || _); [done|].
  destruct (_ !! _); cbn [fst]; by rewrite !userId_upd_chatPartnerId.
Qed.

Lemma leave_chat_waitingUsers st h :
  waitingUsers (leave_chat st h).1 = waitingUsers st.
Proof.
  unfold leave_chat. destruct (_ || _); [done|]. by destruct (_ !! _).
Qed.

Lemma start_chat_with_friend_userId st h friendId h' :
  userId (sock (start_chat_with_friend st h friendId).1 h') = userId (sock st h').
Proof.
  unfold start_chat_with_friend. destruct (negb _); [done|].
  destruct (_ !! _); [|done]. cbn [fst]. by rewrite !userId_upd_chatPartnerId.
Qed.

Lemma start_chat_with_friend_waitingUsers st h friendId :
  waitingUsers (start_chat_with_friend st h friendId).1 = waitingUsers st.
Proof.
  unfold start_chat_with_friend. destruct (negb _); [done|]. by destruct (_ !! _).
Qed.

Lemma step_resumption st h message stored rnd caught now :
  (step st (h, MessageStored message stored rnd caught now)).1 = st.
Proof. unfold step. cbn [fst snd is_resumption]. by rewrite orb_true_r. Qed.

Lemma step_handle st h e :
  is_resumption e = false →
  step st (h, e) = if connected (sock st h) then handle st h e else (st, []).
Proof. intros He. unfold step. cbn [fst snd]. by rewrite He, orb_false_r. Qed.

Lemma typing_state st h b : (typing st h b).1 = st.
Proof. unfold typing. destruct (_ || _); [done|]. by destruct (_ !! _). Qed.

Lemma end_video_call_state st h : (end_video_call st h).1 = st.
Proof. unfold end_video_call. destruct (negb _); [done|]. by destruct (_ !! _). Qed.

Lemma disconnect_waitingUsers_get st h k ph :
  OMap.get k (waitingUsers (disconnect st h).1) = Some ph →
  OMap.get k (waitingUsers st) = Some ph.
Proof.
  destruct (truthy (userId (sock st h))) eqn:Hu.
  - rewrite disconnect_waitingUsers by done. by intros [_ ?]%OMapFacts.get_delete_Some.
  - unfold disconnect. by rewrite Hu.
Qed.

(** ** C7: no self-match *)

Lemma waiting_wf_frame st st' :
  waiting_wf st →
  (∀ h, userId (sock st' h) = userId (sock st h)) →
  (∀ k ph, OMap.get k (waitingUsers st') = Some ph → OMap.get k (waitingUsers st) = Some ph) →
  waiting_wf st'.
Proof.
  intros Hwf Hu Hw k ph Hk Hne. rewrite Hu. apply Hwf; [|done]. by apply Hw.
Qed.

(** Giving an identity to a socket that had none keeps the pool well
    formed: no non-empty key can be held by that socket. *)
Lemma waiting_wf_identify st st' h :
  waiting_wf st →
  truthy (userId (sock st h)) = false →
  (∀ h', h' ≠ h → userId (sock st' h') = userId (sock st h')) →
  waitingUsers st' = waitingUsers st →
  waiting_wf st'.
Proof.
  intros Hwf Hu Hother Hw k ph Hk Hne. rewrite Hw in Hk.
  pose proof (Hwf k ph Hk Hne) as Hph.
  destruct (decide (ph = h)) as [->|Hneq].
  - rewrite Hph in Hu. apply truthy_Some in Hne. congruence.
  - by rewrite Hother.
Qed.

Lemma waiting_wf_auto_authenticate st h rnd :
  waiting_wf st → waiting_wf (auto_authenticate st h rnd).
Proof.
  intros Hwf. unfold auto_authenticate. destruct (truthy _) eqn:Hu; [done|].
  apply (waiting_wf_identify st _ h); [done|done| |done].
  intros h' Hne. by rewrite sock_with_userSockets, sock_upd_sock_ne.
Qed.

Lemma waiting_wf_match_waiting st h :
  waiting_wf st →
  (∃ uid, userId (sock st h) = Some uid) →
  waiting_wf (match_waiting st h).1.
Proof.
  intros Hwf [uid Hu].
  destruct (match_waiting_cases st h) as [(pid & ph & _ & _ & _ & _ & ->)|[_ ->]].
  - apply (waiting_wf_frame st); [done| |].
    + intros h'. apply paired_userId.
    + intros k ph'. rewrite paired_waitingUsers.
      intros [_ [_ ?]%OMapFacts.get_delete_Some]%OMapFacts.get_delete_Some. done.
  - unfold enqueued. cbn [fst]. rewrite Hu. cbn [default].
    intros k ph Hk Hne. rewrite sock_with_waitingUsers. cbn in Hk.
    destruct (decide (uid = k)) as [<-|Hku].
    + rewrite OMapFacts.get_set_eq in Hk. by injection Hk as <-.
    + rewrite OMapFacts.get_set_ne in Hk by done. by apply Hwf.
Qed.

Lemma waiting_wf_search_chat st h rnd :
  waiting_wf st → waiting_wf (search_chat st h rnd).1.
Proof.
  intros Hwf. unfold search_chat. apply waiting_wf_match_waiting.
  - by apply waiting_wf_auto_authenticate.
  - rewrite auto_authenticate_userId. by eexists.
Qed.

Lemma waiting_wf_step st h e :
  waiting_wf st → no_reauth st h e → waiting_wf (step st (h, e)).1.
Proof.
  intros Hwf Hok.
  destruct (is_resumption e) eqn:Hres.
  { destruct e; try discriminate. by rewrite step_resumption. }
  rewrite step_handle by done.
  destruct (connected (sock st h)); [|done].
  destruct e as [token decoded rnd|rnd|message|message stored rnd caught now|b| |friendId| |];
    cbn [handle]; [| |done|discriminate| | | | |].
  - cbn in Hok. unfold authenticate.
    destruct (auth_identity token decoded rnd) as [uid uname]. cbn [fst].
    apply (waiting_wf_identify st _ h); [done|done| |done].
    intros h' Hne. by rewrite sock_upd_sock_ne.
  - by apply waiting_wf_search_chat.
  - by rewrite typing_state.
  - apply (waiting_wf_frame st); [done|apply leave_chat_userId|].
    intros k ph. by rewrite leave_chat_waitingUsers.
  - apply (waiting_wf_frame st); [done|apply start_chat_with_friend_userId|].
    intros k ph. by rewrite start_chat_with_friend_waitingUsers.
  - by rewrite end_video_call_state.
  - apply (waiting_wf_frame st); [done| |].
    + intros h'. by rewrite disconnect_userId, userId_upd_connected.
    + intros k ph Hk. by apply disconnect_waitingUsers_get in Hk.
Qed.

Lemma reachable_waiting_wf st : reachable no_reauth st → waiting_wf st.
Proof.
  induction 1 as [|st h e _ IH Hok].
  - by intros k ph Hk.
  - by apply waiting_wf_step.
Qed.

(** C7, at [st_reauth_waiting]: socket 1 waits under its first id [a] and
    has since authenticated as [b].  Its next [search_chat] finds [a],
    which differs from [b], takes the socket stored under it, which is
    socket 1 itself, and pairs the socket with itself: socket 1 is sent
    [chat_connected] carrying [b], its own [userId], and ends with
    itself as partner. *)
Theorem search_chat_self_match_after_reauth :
  userId (sock st_reauth_waiting 1) = Some "b" ∧
  OMap.get "a" (waitingUsers st_reauth_waiting) = Some 1 ∧
  (search_chat st_reauth_waiting 1 "r").2 =
    [(1, E_searching);
     (1, E_chat_connected "a" (Some "User_b"));
     (1, E_chat_connected "b" (Some "User_b"))] ∧
  userId (sock (search_chat st_reauth_waiting 1 "r").1 1) = Some "b" ∧
  chatPartnerId (sock (search_chat st_reauth_waiting 1 "r").1 1) = Some "b".
Proof. vm_compute. done. Qed.

(** X26: In every store reached without re-authentication, whatever mix of
    match requests and other events led there, [search_chat] sends no
    [chat_connected] whose [partnerId] is the receiving socket's own
    [userId]; and when the pool holds nobody but the requester, it sends
    no [chat_connected] at all. *)
Theorem search_chat_no_self_match st h rnd :
  reachable no_reauth st →
  (∀ r pid uname, (r, E_chat_connected pid uname) ∈ (search_chat st h rnd).2 →
     userId (sock (search_chat st h rnd).1 r) ≠ Some pid) ∧
  ((∀ k, k ∈ OMap.keys (waitingUsers st) →
      k = default "" (userId (sock (auto_authenticate st h rnd) h))) →
   (search_chat st h rnd).2 = [(h, E_searching)]).
Proof.
  intros Hwf%reachable_waiting_wf.
  apply (waiting_wf_auto_authenticate st h rnd) in Hwf.
  pose proof (auto_authenticate_userId st h rnd) as Hu.
  unfold search_chat. set (st0 := auto_authenticate st h rnd) in *.
  set (uid := if truthy _ then _ else _) in Hu.
  assert (default "" (userId (sock st0 h)) = uid) as Hd by by rewrite Hu.
  split.
  - intros r pid' uname.
    destruct (match_waiting_cases st0 h) as [(pid & ph & _ & Hne & Hpu & Hph & ->)|[_ ->]].
    + rewrite paired_emits.
      intros [[=]|[[= -> -> _]|[[= -> -> _]|Hin%elem_of_nil]%elem_of_cons]%elem_of_cons]%elem_of_cons;
        [| |done].
      * rewrite paired_userId, Hu. rewrite Hd in Hpu. congruence.
      * rewrite paired_userId, (Hwf pid ph Hph Hne). congruence.
    + unfold enqueued. cbn [snd].
      by intros [[=]|Hin%elem_of_nil]%elem_of_cons.
  - intros Honly. rewrite match_waiting_enqueued; [done|].
    intros pid [Hin Hne]%find_partner_Some. destruct Hne.
    subst st0. rewrite auto_authenticate_waitingUsers in Hin. by apply Honly.
Qed.

Lemma reachable_st_one_waiting : reachable no_reauth st_one_waiting.
Proof. by apply (reachable_step no_reauth init 1 (SearchChat "a")); [constructor|]. Qed.

(** After [a] asked and waits, [b] asks: each is sent the other's id, and
    [a] asking again while alone in the pool is sent only [searching]. *)
Lemma search_chat_no_self_match_witness :
  (search_chat st_one_waiting 2 "b").2 =
    [(2, E_searching);
     (2, E_chat_connected "a" (Some "Anonymous_a"));
     (1, E_chat_connected "b" (Some "Anonymous_b"))] ∧
  userId (sock (search_chat st_one_waiting 2 "b").1 2) ≠ Some "a" ∧
  userId (sock (search_chat st_one_waiting 2 "b").1 1) ≠ Some "b" ∧
  (search_chat st_one_waiting 1 "r").2 = [(1, E_searching)].
Proof.
  pose proof (search_chat_no_self_match st_one_waiting 2 "b" reachable_st_one_waiting) as [H _].
  pose proof (search_chat_no_self_match st_one_waiting 1 "r" reachable_st_one_waiting) as [_ H'].
  split_and!.
  - reflexivity.
  - apply (H 2 "a" (Some "Anonymous_a")). apply elem_of_cons. right. apply elem_of_cons. by left.
  - apply (H 1 "b" (Some "Anonymous_b")). do 2 (apply elem_of_cons; right). apply elem_of_cons. by left.
  - apply H'. intros k Hk. apply list_elem_of_singleton in Hk. exact Hk.
Defined.

(** ** C1: exclusive, symmetric pairing *)

(** C1, as the code has it, at [st_second_pairing]: [b] still has [a] as
    partner while [a] has [c], and both [b] and [c] have [a]. *)
Lemma pairing_not_exclusive :
  userSockets st_second_pairing !! "a" = Some 1 ∧
  userSockets st_second_pairing !! "b" = Some 2 ∧
  userSockets st_second_pairing !! "c" = Some 3 ∧
  chatPartnerId (sock st_second_pairing 1) = Some "c" ∧
  chatPartnerId (sock st_second_pairing 2) = Some "a" ∧
  chatPartnerId (sock st_second_pairing 3) = Some "a".
Proof. vm_compute. done. Qed.

Section Consistent.
Context (st : State) (Hc : consistent st).

Lemma consistent_partner_truthy a ha b :
  userSockets st !! a = Some ha → chatPartnerId (sock st ha) = Some b →
  truthy (Some b) = true.
Proof.
  intros Ha Hb. destruct (c_sym st Hc a ha b Ha Hb) as (_ & hb & Hreg & _).
  apply truthy_Some. apply (c_id st Hc hb). by apply (c_reg st Hc).
Qed.

Lemma consistent_reg_inj a b h :
  userSockets st !! a = Some h → userSockets st !! b = Some h → a = b.
Proof.
  intros [Ha _]%(c_reg st Hc) [Hb _]%(c_reg st Hc). congruence.
Qed.

Lemma consistent_no_link_to a ha hb :
  userSockets st !! a = Some ha →
  truthy (chatPartnerId (sock st ha)) = false →
  chatPartnerId (sock st hb) = Some a →
  ∀ b, userSockets st !! b = Some hb → False.
Proof.
  intros Ha Hfalsy Hcp b Hb.
  destruct (c_sym st Hc b hb a Hb Hcp) as (_ & ha' & Ha' & Hback).
  assert (ha' = ha) as -> by congruence.
  rewrite Hback in Hfalsy.
  pose proof (consistent_partner_truthy a ha b Ha Hback). congruence.
Qed.
End Consistent.

Lemma consistent_init : consistent init.
Proof.
  split; done.
Qed.

(** Registering socket [h], which had no identity, under a fresh id. *)
Lemma consistent_register st st' h uid :
  consistent st →
  userId (sock st h) = None → connected (sock st h) = true → fresh_id st uid →
  (∀ h', userId (sock st' h') = if decide (h = h') then Some uid else userId (sock st h')) →
  (∀ h', connected (sock st' h') = connected (sock st h')) →
  (∀ h', chatPartnerId (sock st' h') = chatPartnerId (sock st h')) →
  userSockets st' = <[uid := h]> (userSockets st) →
  waitingUsers st' = waitingUsers st →
  consistent st'.
Proof.
  intros Hc Hnone Hconn [Hne Hfresh] Hu Hcn Hcp Hus Hw.
  pose proof Hc as [Hid Hreg Hlive Hwait Hanon Hsym].
  assert (∀ u h', userSockets st !! u = Some h' → h' ≠ h ∧ u ≠ uid) as Hold.
  { intros u h' Hu'. split.
    - intros ->. apply Hreg in Hu' as [Hu' _]. congruence.
    - intros ->. congruence. }
  split.
  - intros h' u. rewrite Hu. case_decide; [by intros [= <-]|apply Hid].
  - intros u h'. rewrite Hus, Hu, Hcn.
    intros [[<- <-]|[Hneq Hu']]%lookup_insert_Some.
    + by rewrite decide_True.
    + destruct (Hold u h' Hu') as [Hh _]. rewrite decide_False by done. by apply Hreg.
  - intros h' u. rewrite Hus, Hu, Hcn. case_decide as Hh.
    + subst h'. intros _ [= <-]. apply lookup_insert_eq.
    + intros Hcn' Hu'. pose proof (Hlive h' u Hcn' Hu') as Hr.
      destruct (Hold u h' Hr) as [_ Hneq]. by rewrite lookup_insert_ne.
  - intros k h'. rewrite Hus, Hw, Hcp. intros [Hk Hf]%Hwait. split; [|done].
    destruct (Hold k h' Hk) as [_ Hneq]. by rewrite lookup_insert_ne.
  - intros h'. rewrite Hu, Hcp. case_decide; [done|apply Hanon].
  - intros a ha b. rewrite Hus, !Hcp.
    intros [[<- <-]|[Hneq Ha]]%lookup_insert_Some Hb.
    + rewrite (Hanon h Hnone) in Hb. done.
    + destruct (Hsym a ha b Ha Hb) as (Hab & hb & Hhb & Hback).
      split; [done|]. exists hb. rewrite Hcp. split; [|done].
      destruct (Hold b hb Hhb) as [_ ?]. by rewrite lookup_insert_ne.
Qed.

(** Putting the registered, unpaired user [uid] into the pool. *)
Lemma consistent_enqueue st st' h uid :
  consistent st →
  userSockets st !! uid = Some h →
  truthy (chatPartnerId (sock st h)) = false →
  (∀ h', userId (sock st' h') = userId (sock st h')) →
  (∀ h', connected (sock st' h') = connected (sock st h')) →
  (∀ h', chatPartnerId (sock st' h') = chatPartnerId (sock st h')) →
  userSockets st' = userSockets st →
  waitingUsers st' = OMap.set uid h (waitingUsers st) →
  consistent st'.
Proof.
  intros Hc Hreg' Hfalsy Hu Hcn Hcp Hus Hw.
  pose proof Hc as [Hid Hreg Hlive Hwait Hanon Hsym].
  split.
  - intros h' u. rewrite Hu. apply Hid.
  - intros u h'. rewrite Hus, Hu, Hcn. apply Hreg.
  - intros h' u. rewrite Hus, Hu, Hcn. apply Hlive.
  - intros k h'. rewrite Hus, Hw, Hcp.
    destruct (decide (uid = k)) as [<-|Hneq].
    + rewrite OMapFacts.get_set_eq. by intros [= <-].
    + rewrite OMapFacts.get_set_ne by done. apply Hwait.
  - intros h'. rewrite Hu, Hcp. apply Hanon.
  - intros a ha b. rewrite Hus, Hcp. intros Ha Hb.
    destruct (Hsym a ha b Ha Hb) as (Hne & hb & Hhb & Hback).
    split; [done|]. exists hb. by rewrite Hcp.
Qed.

(** Linking two different registered users, neither of whom has a
    partner, and taking them out of the pool. *)
Lemma consistent_link st st' a h f fh :
  consistent st →
  userSockets st !! a = Some h → userSockets st !! f = Some fh → f ≠ a →
  truthy (chatPartnerId (sock st h)) = false →
  truthy (chatPartnerId (sock st fh)) = false →
  (∀ h', userId (sock st' h') = userId (sock st h')) →
  (∀ h', connected (sock st' h') = connected (sock st h')) →
  (∀ h', chatPartnerId (sock st' h') =
         if decide (fh = h') then Some a
         else if decide (h = h') then Some f
         else chatPartnerId (sock st h')) →
  userSockets st' = userSockets st →
  (∀ k h', OMap.get k (waitingUsers st') = Some h' →
     OMap.get k (waitingUsers st) = Some h' ∧ k ≠ a ∧ k ≠ f) →
  consistent st'.
Proof.
  intros Hc Ha Hf Hfa Hfalsy_h Hfalsy_f Hu Hcn Hcp Hus Hw.
  pose proof Hc as [Hid Hreg Hlive Hwait Hanon Hsym].
  assert (h ≠ fh) as Hhf.
  { intros ->. destruct Hfa. by apply (consistent_reg_inj st Hc f a fh). }
  split.
  - intros h' u. rewrite Hu. apply Hid.
  - intros u h'. rewrite Hus, Hu, Hcn. apply Hreg.
  - intros h' u. rewrite Hus, Hu, Hcn. apply Hlive.
  - intros k h' (Hk & Hka & Hkf)%Hw. rewrite Hus, Hcp.
    destruct (Hwait k h' Hk) as [Hr Hfalsy]. split; [done|].
    rewrite decide_False.
    2:{ intros <-. destruct Hkf. by apply (consistent_reg_inj st Hc k f fh). }
    rewrite decide_False; [done|].
    intros <-. destruct Hka. by apply (consistent_reg_inj st Hc k a h).
  - intros h'. rewrite Hu, Hcp. intros Hnone.
    rewrite decide_False.
    2:{ intros <-. apply Hreg in Hf as [Hf _]. congruence. }
    rewrite decide_False; [by apply Hanon|].
    intros <-. apply Hreg in Ha as [Ha _]. congruence.
  - intros a' ha' b'. rewrite Hus, Hcp. intros Ha'.
    case_decide as H1; [|case_decide as H2].
    + subst ha'. intros [= <-].
      assert (a' = f) as -> by by apply (consistent_reg_inj st Hc a' f fh).
      split; [done|]. exists h. split; [done|]. rewrite Hcp.
      rewrite decide_False by done. by rewrite decide_True.
    + subst ha'. intros [= <-].
      assert (a' = a) as -> by by apply (consistent_reg_inj st Hc a' a h).
      split; [done|]. exists fh. split; [done|]. rewrite Hcp. by rewrite decide_True.
    + intros Hb'. destruct (Hsym a' ha' b' Ha' Hb') as (Hne & hb & Hhb & Hback).
      split; [done|]. exists hb. split; [done|]. rewrite Hcp.
      pose proof (consistent_partner_truthy st Hc b' hb a' Hhb Hback) as Ht.
      rewrite decide_False.
      2:{ intros <-. rewrite Hback in Hfalsy_f. congruence. }
      rewrite decide_False; [done|].
      intros <-. rewrite Hback in Hfalsy_h. congruence.
Qed.

(** Clearing the links of user [a] and of its registered partner [b]. *)
Lemma consistent_unlink st st' a h b hb :
  consistent st →
  userSockets st !! a = Some h → chatPartnerId (sock st h) = Some b →
  userSockets st !! b = Some hb →
  (∀ h', userId (sock st' h') = userId (sock st h')) →
  (∀ h', connected (sock st' h') = connected (sock st h')) →
  (∀ h', chatPartnerId (sock st' h') =
         if decide (h = h') then None
         else if decide (hb = h') then None
         else chatPartnerId (sock st h')) →
  userSockets st' = userSockets st →
  waitingUsers st' = waitingUsers st →
  consistent st'.
Proof.
  intros Hc Ha Hb Hhb Hu Hcn Hcp Hus Hw.
  pose proof Hc as [Hid Hreg Hlive Hwait Hanon Hsym].
  assert (chatPartnerId (sock st hb) = Some a) as Hback.
  { destruct (Hsym a h b Ha Hb) as (_ & hb' & Hhb' & Hback). congruence. }
  split.
  - intros h' u. rewrite Hu. apply Hid.
  - intros u h'. rewrite Hus, Hu, Hcn. apply Hreg.
  - intros h' u. rewrite Hus, Hu, Hcn. apply Hlive.
  - intros k h'. rewrite Hus, Hw, Hcp. intros [Hk Hfalsy]%Hwait. split; [done|].
    by repeat case_decide.
  - intros h'. rewrite Hu, Hcp. intros Hnone. repeat case_decide; try done. by apply Hanon.
  - intros a' ha' b'. rewrite Hus, Hcp. intros Ha'.
    case_decide as H1; [done|]. case_decide as H2; [done|]. intros Hb'.
    destruct (Hsym a' ha' b' Ha' Hb') as (Hne & hb' & Hhb' & Hback').
    split; [done|]. exists hb'. split; [done|]. rewrite Hcp.
    rewrite decide_False.
    2:{ intros <-. destruct H2. rewrite Hb in Hback'. injection Hback' as <-. congruence. }
    rewrite decide_False; [done|].
    intros <-. destruct H1. rewrite Hback in Hback'. injection Hback' as <-. congruence.
Qed.

(** Closing the connection of user [a]: its registry and pool entries go,
    and the link of its registered partner is cleared. *)
Lemma consistent_unregister st st' a h :
  consistent st →
  connected (sock st h) = true → userId (sock st h) = Some a →
  (∀ h', userId (sock st' h') = userId (sock st h')) →
  (∀ h', connected (sock st' h') = if decide (h = h') then false else connected (sock st h')) →
  (∀ h', chatPartnerId (sock st' h') = chatPartnerId (sock st h') ∨
         (chatPartnerId (sock st' h') = None ∧
          ∃ b, chatPartnerId (sock st h) = Some b ∧ userSockets st !! b = Some h')) →
  (∀ b hb, chatPartnerId (sock st h) = Some b → userSockets st !! b = Some hb →
           chatPartnerId (sock st' hb) = None) →
  userSockets st' = delete a (userSockets st) →
  (∀ k h', OMap.get k (waitingUsers st') = Some h' →
     OMap.get k (waitingUsers st) = Some h' ∧ k ≠ a) →
  consistent st'.
Proof.
  intros Hc Hconn Hua Hu Hcn Hcp Hclear Hus Hw.
  pose proof Hc as [Hid Hreg Hlive Hwait Hanon Hsym].
  pose proof (Hlive h a Hconn Hua) as Ha.
  assert (∀ h', truthy (chatPartnerId (sock st h')) = false →
                truthy (chatPartnerId (sock st' h')) = false) as Hfalsy.
  { intros h' Hf. by destruct (Hcp h') as [->|[-> _]]. }
  split.
  - intros h' u. rewrite Hu. apply Hid.
  - intros u h'. rewrite Hus, Hu, Hcn. intros [Hne Hr]%lookup_delete_Some.
    rewrite decide_False; [by apply Hreg|].
    intros <-. destruct Hne. by apply (consistent_reg_inj st Hc a u h).
  - intros h' u. rewrite Hus, Hu, Hcn. case_decide as Hh; [done|].
    intros Hc' Hu'. pose proof (Hlive h' u Hc' Hu') as Hr.
    rewrite lookup_delete_ne; [done|]. intros <-. congruence.
  - intros k h' [Hk Hne]%Hw. rewrite Hus.
    destruct (Hwait k h' Hk) as [Hr Hf]. split; [|by apply Hfalsy].
    by rewrite lookup_delete_ne.
  - intros h'. rewrite Hu. intros Hnone.
    destruct (Hcp h') as [->|[-> _]]; [by apply Hanon|done].
  - intros a' ha' b'. rewrite Hus. intros [Hne Ha']%lookup_delete_Some Hb'.
    assert (chatPartnerId (sock st ha') = Some b') as Hb.
    { destruct (Hcp ha') as [<-|[E _]]; [done|congruence]. }
    destruct (Hsym a' ha' b' Ha' Hb) as (Hab & hb' & Hhb' & Hback).
    assert (b' ≠ a) as Hba.
    { intros ->. assert (hb' = h) as -> by congruence.
      rewrite (Hclear a' ha' Hback Ha') in Hb'. done. }
    split; [done|]. exists hb'. split; [by rewrite lookup_delete_ne|].
    destruct (Hcp hb') as [->|[_ (b & Hb0 & Hr)]]; [done|].
    assert (b = b') as -> by by apply (consistent_reg_inj st Hc b b' hb').
    destruct (Hsym a h b' Ha Hb0) as (_ & hb'' & Hhb'' & Hback'').
    assert (hb'' = hb') as -> by congruence.
    rewrite Hback in Hback''. injection Hback'' as ->. done.
Qed.

(** Closing a connection that never had an identity. *)
Lemma consistent_close_anonymous st st' h :
  consistent st →
  userId (sock st h) = None →
  (∀ h', userId (sock st' h') = userId (sock st h')) →
  (∀ h', connected (sock st' h') = if decide (h = h') then false else connected (sock st h')) →
  (∀ h', chatPartnerId (sock st' h') = chatPartnerId (sock st h')) →
  userSockets st' = userSockets st →
  waitingUsers st' = waitingUsers st →
  consistent st'.
Proof.
  intros Hc Hnone Hu Hcn Hcp Hus Hw.
  pose proof Hc as [Hid Hreg Hlive Hwait Hanon Hsym].
  split.
  - intros h' u. rewrite Hu. apply Hid.
  - intros u h'. rewrite Hus, Hu, Hcn. intros Hr.
    rewrite decide_False; [by apply Hreg|].
    intros <-. apply Hreg in Hr as [Hr _]. congruence.
  - intros h' u. rewrite Hus, Hu, Hcn. case_decide; [done|apply Hlive].
  - intros k h'. rewrite Hus, Hw, Hcp. apply Hwait.
  - intros h'. rewrite Hu, Hcp. apply Hanon.
  - intros a ha b. rewrite Hus, Hcp. intros Ha Hb.
    destruct (Hsym a ha b Ha Hb) as (Hne & hb & Hhb & Hback).
    split; [done|]. exists hb. by rewrite Hcp.
Qed.

(** *** Each handler keeps the store consistent *)

Lemma consistent_falsy_userId st h :
  consistent st → truthy (userId (sock st h)) = false → userId (sock st h) = None.
Proof.
  intros Hc Hf. destruct (userId (sock st h)) as [u|] eqn:Hu; [|done].
  apply (c_id st Hc) in Hu. apply truthy_Some in Hu. congruence.
Qed.

Lemma consistent_truthy_userId st h u :
  consistent st → userId (sock st h) = Some u → truthy (userId (sock st h)) = true.
Proof.
  intros Hc Hu. rewrite Hu. apply truthy_Some. by apply (c_id st Hc h).
Qed.

Lemma consistent_authenticate st h token decoded rnd :
  consistent st → connected (sock st h) = true →
  orderly st h (Authenticate token decoded rnd) →
  consistent (authenticate st h token decoded rnd).1.
Proof.
  intros Hc Hconn [Hnone Hfresh]. unfold authenticate.
  destruct (auth_identity token decoded rnd) as [uid uname]. cbn [fst] in *.
  apply (consistent_register st _ h uid); try done.
  - intros h'. rewrite sock_upd_sock. by case_decide.
  - intros h'. rewrite sock_upd_sock. by case_decide; subst.
  - intros h'. rewrite sock_upd_sock. by case_decide; subst.
Qed.

Lemma consistent_auto_authenticate st h rnd :
  consistent st → connected (sock st h) = true →
  (userId (sock st h) = None → fresh_id st rnd) →
  consistent (auto_authenticate st h rnd) ∧
  ∃ uid, userId (sock (auto_authenticate st h rnd) h) = Some uid ∧
         userSockets (auto_authenticate st h rnd) !! uid = Some h.
Proof.
  intros Hc Hconn Hfresh. unfold auto_authenticate.
  destruct (truthy (userId (sock st h))) eqn:Ht.
  - split; [done|]. destruct (truthy_true _ Ht) as (uid & Hu & _).
    exists uid. split; [done|]. by apply (c_live st Hc).
  - pose proof (consistent_falsy_userId st h Hc Ht) as Hnone. split.
    + apply (consistent_register st _ h rnd); try done; [by apply Hfresh| | |].
      * intros h'. rewrite sock_with_userSockets, sock_upd_sock. by case_decide.
      * intros h'. rewrite sock_with_userSockets, sock_upd_sock. by case_decide; subst.
      * intros h'. rewrite sock_with_userSockets, sock_upd_sock. by case_decide; subst.
    + exists rnd. rewrite sock_with_userSockets, sock_upd_sock_eq. split; [done|].
      cbn. apply lookup_insert_eq.
Qed.

Lemma consistent_match_waiting st h uid :
  consistent st →
  userId (sock st h) = Some uid → userSockets st !! uid = Some h →
  truthy (chatPartnerId (sock st h)) = false →
  consistent (match_waiting st h).1.
Proof.
  intros Hc Hu Hreg Hfalsy.
  assert (default "" (userId (sock st h)) = uid) as Hd by by rewrite Hu.
  destruct (match_waiting_cases st h) as [(pid & ph & _ & Hne & Hpu & Hph & ->)|[_ ->]].
  - rewrite Hd in Hpu. destruct (c_wait st Hc pid ph Hph) as [Hpreg Hpfalsy].
    apply (consistent_link st _ uid h pid ph); try done.
    + apply paired_userId.
    + apply paired_connected.
    + intros h'. by rewrite paired_chatPartnerId, Hu.
    + intros k h'. rewrite paired_waitingUsers, Hd.
      intros [Hk1 [Hk2 Hk]%OMapFacts.get_delete_Some]%OMapFacts.get_delete_Some.
      split_and!; [done|congruence|congruence].
  - apply (consistent_enqueue st _ h uid); try done.
    unfold enqueued. cbn. by rewrite Hu.
Qed.

Lemma consistent_search_chat st h rnd :
  consistent st → connected (sock st h) = true →
  orderly st h (SearchChat rnd) →
  consistent (search_chat st h rnd).1.
Proof.
  intros Hc Hconn [Hfalsy Hfresh]. unfold search_chat.
  destruct (consistent_auto_authenticate st h rnd Hc Hconn Hfresh) as (Hc0 & uid & Hu & Hreg).
  apply (consistent_match_waiting _ h uid); try done.
  by rewrite auto_authenticate_chatPartnerId.
Qed.

Lemma consistent_leave_chat st h :
  consistent st → connected (sock st h) = true →
  consistent (leave_chat st h).1.
Proof.
  intros Hc Hconn. unfold leave_chat.
  destruct (truthy (userId (sock st h))) eqn:Hu; [|done].
  destruct (truthy (chatPartnerId (sock st h))) eqn:Hp; [|done].
  cbn [negb orb].
  destruct (truthy_true _ Hu) as (a & Ha & _).
  destruct (truthy_true _ Hp) as (b & Hb & _).
  pose proof (c_live st Hc h a Hconn Ha) as Hreg.
  destruct (c_sym st Hc a h b Hreg Hb) as (_ & hb & Hhb & _).
  rewrite Hb. cbn [default from_option id]. rewrite Hhb. cbn [fst].
  apply (consistent_unlink st _ a h b hb); try done.
  - intros h'. by rewrite !userId_upd_chatPartnerId.
  - intros h'. by rewrite !connected_upd_chatPartnerId.
  - intros h'. by rewrite !chatPartnerId_upd_chatPartnerId.
Qed.

Lemma consistent_start_chat_with_friend st h friendId :
  consistent st → connected (sock st h) = true →
  orderly st h (StartChatWithFriend friendId) →
  consistent (start_chat_with_friend st h friendId).1.
Proof.
  intros Hc Hconn (Hfalsy & Hwh & Hne & Hwf & Hfriend). unfold start_chat_with_friend.
  destruct (truthy (userId (sock st h))) eqn:Hu; [|done]. cbn [negb].
  destruct (truthy_true _ Hu) as (a & Ha & _).
  rewrite Ha in Hwh, Hne. cbn [default from_option id] in Hwh, Hne.
  pose proof (c_live st Hc h a Hconn Ha) as Hreg.
  destruct (userSockets st !! friendId) as [fh|] eqn:Hf; [|done]. cbn [fst].
  apply (consistent_link st _ a h friendId fh); try done.
  - by apply Hfriend.
  - intros h'. by rewrite !userId_upd_chatPartnerId.
  - intros h'. by rewrite !connected_upd_chatPartnerId.
  - intros h'. by rewrite !chatPartnerId_upd_chatPartnerId, userId_upd_chatPartnerId, Ha.
  - intros k h' Hk. cbn in Hk. split_and!; [done|congruence|congruence].
Qed.

Lemma consistent_disconnect st h :
  consistent st → connected (sock st h) = true →
  consistent (disconnect (upd_sock h (set_connected false) st) h).1.
Proof.
  intros Hc Hconn. set (st1 := upd_sock h (set_connected false) st).
  assert (∀ h', userId (sock st1 h') = userId (sock st h')) as Hu1
    by (intros; apply userId_upd_connected).
  assert (∀ h', chatPartnerId (sock st1 h') = chatPartnerId (sock st h')) as Hcp1
    by (intros; apply chatPartnerId_upd_connected).
  assert (∀ h', connected (sock st1 h') =
                if decide (h = h') then false else connected (sock st h')) as Hcn1
    by (intros; apply connected_upd_connected).
  destruct (truthy (userId (sock st h))) eqn:Ht.
  - destruct (truthy_true _ Ht) as (a & Ha & Hane).
    pose proof (c_live st Hc h a Hconn Ha) as Hreg.
    assert (truthy (userId (sock st1 h)) = true) as Ht1 by by rewrite Hu1.
    assert (default "" (userId (sock st1 h)) = a) as Hd by by rewrite Hu1, Ha.
    apply (consistent_unregister st _ a h); try done.
    + intros h'. by rewrite disconnect_userId.
    + intros h'. by rewrite disconnect_connected.
    + intros h'. destruct (truthy (chatPartnerId (sock st h))) eqn:Hp.
      * destruct (truthy_true _ Hp) as (b & Hb & Hbne).
        rewrite (disconnect_partner st1 h a b); [|by rewrite Hu1|done|by rewrite Hcp1|done].
        cbn zeta.
        destruct (delete a (userSockets st1) !! b) as [ph|] eqn:Hph; cbn [fst].
        -- rewrite chatPartnerId_upd_chatPartnerId. case_decide as Hh.
           ++ right. split; [done|]. exists b. split; [done|]. subst h'.
              by apply lookup_delete_Some in Hph as [_ ?].
           ++ left. apply Hcp1.
        -- left. apply Hcp1.
      * left. rewrite disconnect_no_partner; [apply Hcp1|done|by rewrite Hcp1].
    + intros b hb Hb Hhb.
      destruct (c_sym st Hc a h b Hreg Hb) as (Hba & _).
      pose proof (consistent_partner_truthy st Hc a h b Hreg Hb) as Hbt.
      apply truthy_Some in Hbt.
      rewrite (disconnect_partner st1 h a b); [|by rewrite Hu1|done|by rewrite Hcp1|done].
      cbn zeta.
      assert (delete a (userSockets st1) !! b = Some hb) as ->.
      { by rewrite lookup_delete_ne. }
      cbn [fst]. by rewrite chatPartnerId_upd_chatPartnerId, decide_True.
    + by rewrite disconnect_userSockets, Hd.
    + intros k h'. rewrite disconnect_waitingUsers, Hd by done.
      intros [Hne Hk]%OMapFacts.get_delete_Some. done.
  - pose proof (consistent_falsy_userId st h Hc Ht) as Hnone.
    unfold disconnect. rewrite Hu1, Ht. cbn [fst].
    by apply (consistent_close_anonymous st _ h).
Qed.

Lemma consistent_step st h e :
  consistent st → orderly st h e → consistent (step st (h, e)).1.
Proof.
  intros Hc Hok.
  destruct (is_resumption e) eqn:Hres.
  { destruct e; try discriminate. by rewrite step_resumption. }
  rewrite step_handle by done.
  destruct (connected (sock st h)) eqn:Hconn; [|done].
  destruct e as [token decoded rnd|rnd|message|message stored rnd caught now|b| |friendId| |];
    cbn [handle]; [| |done|discriminate| | | | |].
  - by apply consistent_authenticate.
  - by apply consistent_search_chat.
  - by rewrite typing_state.
  - by apply consistent_leave_chat.
  - by apply consistent_start_chat_with_friend.
  - by rewrite end_video_call_state.
  - by apply consistent_disconnect.
Qed.

Lemma reachable_consistent st : reachable orderly st → consistent st.
Proof.
  induction 1 as [|st h e _ IH Hok].
  - apply consistent_init.
  - by apply consistent_step.
Qed.

(** C1 (amended): at every store reached by orderly use (each socket
    authenticates once under a fresh id, [search_chat] comes only from
    users without a partner, [start_chat_with_friend] only joins two
    different users without partner who are not waiting; [leave_chat] and
    [disconnect] are unrestricted) pairing is symmetric and exclusive: if
    registered user [a] has partner [b] then [b] is another registered
    user whose partner is [a], and no two registered users have the same
    partner.  The handlers themselves never tear down an existing pairing
    before making a new one. *)
Theorem orderly_pairing_exclusive st :
  reachable orderly st →
  (∀ a ha b, userSockets st !! a = Some ha → chatPartnerId (sock st ha) = Some b →
     b ≠ a ∧ ∃ hb, userSockets st !! b = Some hb ∧ chatPartnerId (sock st hb) = Some a) ∧
  (∀ a b c hb hc, userSockets st !! b = Some hb → userSockets st !! c = Some hc →
     chatPartnerId (sock st hb) = Some a → chatPartnerId (sock st hc) = Some a →
     b = c ∧ hb = hc).
Proof.
  intros Hc%reachable_consistent. split.
  - apply (c_sym st Hc).
  - intros a b c hb hc Hb Hc' Hpb Hpc.
    destruct (c_sym st Hc b hb a Hb Hpb) as (_ & ha & Ha & Hab).
    destruct (c_sym st Hc c hc a Hc' Hpc) as (_ & ha' & Ha' & Hac).
    assert (ha' = ha) as -> by congruence.
    assert (b = c) as -> by congruence.
    split; [done|congruence].
Qed.

Lemma reachable_st_pair : reachable orderly st_pair.
Proof.
  change st_pair with (step (step init (1, SearchChat "a")).1 (2, SearchChat "b")).1.
  apply reachable_step; [apply reachable_step; [constructor|]|].
  - split; [reflexivity|]. intros _. split; [discriminate|reflexivity].
  - split; [reflexivity|]. intros _. split; [discriminate|reflexivity].
Qed.

(** At [st_pair], reached by two match requests, [a] has partner [b] and
    [b], on its registered socket, has partner [a]. *)
Lemma orderly_pairing_exclusive_witness :
  "b" ≠ "a" ∧
  ∃ hb, userSockets st_pair !! "b" = Some hb ∧ chatPartnerId (sock st_pair hb) = Some "a".
Proof.
  destruct (orderly_pairing_exclusive st_pair reachable_st_pair) as [H _].
  apply (H "a" 1 "b"); reflexivity.
Defined.

(** * Further properties of the handlers *)

(** ** [authenticate] *)

Lemma substring_all s : String.substring 0 (String.length s) s = s.
Proof. induction s as [|c s IH]; simpl; [done|]. by rewrite IH. Qed.

Lemma prefix_append p s : String.prefix p (p +:+ s) = true.
Proof.
  induction p as [|c p IH]; simpl; [by destruct s|].
  destruct (Ascii.ascii_dec c c); [done|congruence].
Qed.

Lemma substring_skip p s :
  String.substring (String.length p) (String.length (p +:+ s) - String.length p) (p +:+ s) = s.
Proof.
  induction p as [|c p IH].
  - change ("" +:+ s) with s. change (String.length "") with 0.
    rewrite Nat.sub_0_r. apply substring_all.
  - apply IH.
Qed.

Lemma js_replace_unfold pat rep s :
  js_replace pat rep s =
  if String.prefix pat s
  then rep +:+ String.substring (String.length pat)
                 (String.length s - String.length pat) s
  else match s with
       | EmptyString => EmptyString
       | String c s' => String c (js_replace pat rep s')
       end.
Proof. by destruct s. Qed.

Lemma js_replace_prefix p s : js_replace p "" (p +:+ s) = s.
Proof.
  rewrite js_replace_unfold, prefix_append.
  change ("" +:+ ?x) with x. apply substring_skip.
Qed.

Lemma auth_identity_mock s decoded rnd :
  auth_identity ("mock_token_" +:+ s) decoded rnd
  = (s, Some ("User_" +:+ js_substring 0 5 s)).
Proof.
  unfold auth_identity, startsWith.
  change (truthy (Some ("mock_token_" +:+ s))) with true.
  rewrite prefix_append. cbn [andb].
  by rewrite js_replace_prefix.
Qed.

(** On ASCII text [substring] can as well count bytes. *)
Lemma js_substring_ascii n s :
  ascii_only s = true → js_substring 0 n s = String.substring 0 n s.
Proof.
  unfold js_substring. rewrite Nat.sub_0_r, drop_0.
  revert n. induction s as [|c s IH]; intros n Hs.
  - by destruct n.
  - cbn [ascii_only] in Hs. apply andb_true_iff in Hs as [Hc Hs].
    apply N.ltb_lt in Hc. cbn [utf16].
    assert ((Ascii.N_of_ascii c <? 192)%N = true) as -> by (apply N.ltb_lt; lia).
    destruct n as [|n]; [done|].
    cbn [take utf8 String.substring].
    assert ((Ascii.N_of_ascii c <? 128)%N = true) as -> by by apply N.ltb_lt.
    by rewrite Ascii.ascii_N_embedding, IH.
Qed.

(** X1: A mock token names its user: for every [s], [authenticate] with the
    token [mock_token_s] settles on the id [s] and the name [User_]
    followed by what [substring(0, 5)] takes of [s], its first five UTF-16
    code units, whatever [verifyToken] and the random generator would
    have produced; it registers the socket under [s] and answers
    [authenticated] with that id and name.  For an ASCII [s] the name ends
    in the first five bytes of [s]. *)
Theorem authenticate_mock_token st h s decoded rnd :
  auth_identity ("mock_token_" +:+ s) decoded rnd
    = (s, Some ("User_" +:+ js_substring 0 5 s)) ∧
  userSockets (authenticate st h ("mock_token_" +:+ s) decoded rnd).1 !! s = Some h ∧
  userId (sock (authenticate st h ("mock_token_" +:+ s) decoded rnd).1 h) = Some s ∧
  (authenticate st h ("mock_token_" +:+ s) decoded rnd).2
    = [(h, E_authenticated s (Some ("User_" +:+ js_substring 0 5 s)))] ∧
  (ascii_only s = true →
   (authenticate st h ("mock_token_" +:+ s) decoded rnd).2
     = [(h, E_authenticated s (Some ("User_" +:+ String.substring 0 5 s)))]).
Proof.
  split; [apply auth_identity_mock|].
  unfold authenticate. rewrite auth_identity_mock. cbn [fst snd].
  split_and!; [|by rewrite sock_upd_sock_eq|done|].
  - cbn. apply lookup_insert_eq.
  - intros Hs. by rewrite js_substring_ascii.
Qed.

(** An id with accented letters, and an ASCII one: five characters are
    taken of each, seven bytes of the first. *)
Lemma authenticate_mock_token_witness :
  (authenticate init 1 "mock_token_héllowörld" None "r").2
    = [(1, E_authenticated "héllowörld" (Some "User_héllo"))] ∧
  (authenticate init 1 "mock_token_k3x9q2ab" None "r").2
    = [(1, E_authenticated "k3x9q2ab" (Some "User_k3x9q"))].
Proof.
  split.
  - apply (authenticate_mock_token init 1 "héllowörld" None "r").
  - apply (authenticate_mock_token init 1 "k3x9q2ab" None "r"). reflexivity.
Defined.

(** X2: [authenticate] only adds.  It binds the new id to the socket, whoever
    held it, gives the socket that id, and answers [authenticated]; every
    other registry entry stays, the socket's previous id included, and so
    do the waiting pool, every session link and the identity of every
    other socket. *)
Theorem authenticate_only_adds st h token decoded rnd :
  let uid := (auth_identity token decoded rnd).1 in
  let st' := (authenticate st h token decoded rnd).1 in
  userSockets st' !! uid = Some h ∧
  userId (sock st' h) = Some uid ∧
  (∀ k, k ≠ uid → userSockets st' !! k = userSockets st !! k) ∧
  waitingUsers st' = waitingUsers st ∧
  (∀ h', chatPartnerId (sock st' h') = chatPartnerId (sock st h')) ∧
  (∀ h', h' ≠ h → userId (sock st' h') = userId (sock st h')) ∧
  (authenticate st h token decoded rnd).2
    = [(h, E_authenticated uid (auth_identity token decoded rnd).2)].
Proof.
  unfold authenticate. destruct (auth_identity token decoded rnd) as [uid uname].
  cbn [fst snd]. split_and!.
  - cbn. apply lookup_insert_eq.
  - by rewrite sock_upd_sock_eq.
  - intros k Hk. cbn. by rewrite lookup_insert_ne.
  - done.
  - intros h'. rewrite sock_upd_sock. by case_decide; subst.
  - intros h' Hh. by rewrite sock_upd_sock_ne.
  - done.
Qed.

(** At [st_pair], socket 1, known as [a], authenticates again with the
    mock token of [c]: [c] is bound to it and [a] stays bound to it. *)
Lemma authenticate_only_adds_witness :
  userSockets (authenticate st_pair 1 "mock_token_c" None "r").1 !! "c" = Some 1 ∧
  userSockets (authenticate st_pair 1 "mock_token_c" None "r").1 !! "a" = Some 1 ∧
  userId (sock (authenticate st_pair 1 "mock_token_c" None "r").1 2) = Some "b".
Proof.
  destruct (authenticate_only_adds st_pair 1 "mock_token_c" None "r")
    as (H1 & _ & H3 & _ & _ & H6 & _).
  split_and!.
  - exact H1.
  - rewrite H3; [reflexivity|discriminate].
  - rewrite H6; [reflexivity|discriminate].
Defined.

(** X3: An empty id is registered and then ignored.  When [authenticate]
    settles on the empty id (the bare token [mock_token_], or an empty
    generated id) the socket is registered under it, but the handlers take
    an empty id for no id: [start_chat_with_friend] answers
    [Not authenticated], [search_chat] gives the socket a generated id, and
    the socket's [disconnect] leaves the store as it is, so the entry
    under the empty id stays in the registry. *)
Theorem authenticate_empty_id st h token decoded rnd :
  (auth_identity token decoded rnd).1 = "" →
  let st' := (authenticate st h token decoded rnd).1 in
  userSockets st' !! "" = Some h ∧
  userId (sock st' h) = Some "" ∧
  (∀ friendId, start_chat_with_friend st' h friendId
               = (st', [(h, E_error "Not authenticated")])) ∧
  (∀ rnd', userId (sock (search_chat st' h rnd').1 h) = Some rnd') ∧
  disconnect st' h = (st', []).
Proof.
  intros Hid st'.
  assert (userSockets st' !! "" = Some h) as H1.
  { subst st'. unfold authenticate. destruct (auth_identity token decoded rnd) as [u n].
    cbn in Hid. subst u. cbn. apply lookup_insert_eq. }
  assert (userId (sock st' h) = Some "") as H2.
  { subst st'. unfold authenticate. destruct (auth_identity token decoded rnd) as [u n].
    cbn in Hid. subst u. cbn [fst]. by rewrite sock_upd_sock_eq. }
  split_and!; [done|done| | |].
  - intros friendId. unfold start_chat_with_friend. by rewrite H2.
  - intros rnd'. unfold search_chat.
    destruct (match_waiting_cases (auto_authenticate st' h rnd') h)
      as [(pid & ph & _ & _ & _ & _ & ->)|[_ ->]].
    + by rewrite paired_userId, auto_authenticate_userId, H2.
    + unfold enqueued. cbn [fst]. rewrite sock_with_waitingUsers.
      by rewrite auto_authenticate_userId, H2.
  - unfold disconnect. by rewrite H2.
Qed.

Lemma authenticate_empty_id_witness :
  userSockets (authenticate init 4 "mock_token_" None "r").1 !! "" = Some 4 ∧
  disconnect (authenticate init 4 "mock_token_" None "r").1 4
    = ((authenticate init 4 "mock_token_" None "r").1, []).
Proof.
  destruct (authenticate_empty_id init 4 "mock_token_" None "r") as (H1 & _ & _ & _ & H5);
    [reflexivity|].
  split; [exact H1|exact H5].
Defined.

(** ** [leave_chat] *)

(** X4: [leave_chat] from a user with a partner clears the caller's link and,
    when the partner's id is registered, the link of the socket registered
    under it; that socket is sent [partner_left], then the caller is sent
    [chat_ended].  Registry, pool and every other socket's link stay as
    they were, and a second [leave_chat] does and says nothing. *)
Theorem leave_chat_clears_both st h uid pid :
  userId (sock st h) = Some uid → uid ≠ "" →
  chatPartnerId (sock st h) = Some pid → pid ≠ "" →
  (leave_chat st h).2 =
    match userSockets st !! pid with
    | Some ph => [(ph, E_partner_left); (h, E_chat_ended)]
    | None => [(h, E_chat_ended)]
    end ∧
  chatPartnerId (sock (leave_chat st h).1 h) = None ∧
  (∀ ph, userSockets st !! pid = Some ph →
     chatPartnerId (sock (leave_chat st h).1 ph) = None) ∧
  (∀ h', h' ≠ h → userSockets st !! pid ≠ Some h' →
     chatPartnerId (sock (leave_chat st h).1 h') = chatPartnerId (sock st h')) ∧
  userSockets (leave_chat st h).1 = userSockets st ∧
  waitingUsers (leave_chat st h).1 = waitingUsers st ∧
  leave_chat (leave_chat st h).1 h = ((leave_chat st h).1, []).
Proof.
  intros Hu Hune Hp Hpne.
  assert (chatPartnerId (sock (leave_chat st h).1 h) = None) as Hcleared.
  { unfold leave_chat. rewrite Hu, Hp.
    rewrite (proj2 (truthy_Some uid)), (proj2 (truthy_Some pid)) by done.
    cbn [negb orb]. destruct (_ !! _); cbn [fst];
      by rewrite chatPartnerId_upd_chatPartnerId, decide_True. }
  split_and!; [| done | | | | |].
  - unfold leave_chat. rewrite Hu, Hp.
    rewrite (proj2 (truthy_Some uid)), (proj2 (truthy_Some pid)) by done.
    cbn [negb orb default from_option id]. by destruct (_ !! _).
  - intros ph Hph. unfold leave_chat. rewrite Hu, Hp.
    rewrite (proj2 (truthy_Some uid)), (proj2 (truthy_Some pid)) by done.
    cbn [negb orb default from_option id]. rewrite Hph. cbn [fst].
    rewrite !chatPartnerId_upd_chatPartnerId. case_decide; [done|].
    by rewrite decide_True.
  - intros h' Hh Hreg. unfold leave_chat. rewrite Hu, Hp.
    rewrite (proj2 (truthy_Some uid)), (proj2 (truthy_Some pid)) by done.
    cbn [negb orb default from_option id].
    destruct (userSockets st !! pid) as [ph|] eqn:Hph; cbn [fst];
      rewrite !chatPartnerId_upd_chatPartnerId.
    + rewrite decide_False by done. rewrite decide_False; [done|]. congruence.
    + by rewrite decide_False.
  - unfold leave_chat. rewrite Hu, Hp.
    rewrite (proj2 (truthy_Some uid)), (proj2 (truthy_Some pid)) by done.
    cbn [negb orb]. by destruct (_ !! _).
  - apply leave_chat_waitingUsers.
  - unfold leave_chat at 1. by rewrite Hcleared, orb_true_r.
Qed.

Lemma leave_chat_clears_both_witness :
  (leave_chat st_pair 1).2 = [(2, E_partner_left); (1, E_chat_ended)] ∧
  chatPartnerId (sock (leave_chat st_pair 1).1 1) = None ∧
  chatPartnerId (sock (leave_chat st_pair 1).1 2) = None ∧
  leave_chat (leave_chat st_pair 1).1 1 = ((leave_chat st_pair 1).1, []).
Proof.
  destruct (leave_chat_clears_both st_pair 1 "a" "b") as (H1 & H2 & H3 & _ & _ & _ & H7);
    [reflexivity|discriminate|reflexivity|discriminate|].
  split_and!; [exact H1|exact H2|apply H3; reflexivity|exact H7].
Defined.

(** ** Partners in an orderly run *)

Lemma consistent_partner st h a b :
  consistent st → connected (sock st h) = true →
  userId (sock st h) = Some a → chatPartnerId (sock st h) = Some b →
  a ≠ "" ∧ b ≠ "" ∧ b ≠ a ∧ userSockets st !! a = Some h ∧
  ∃ hb, userSockets st !! b = Some hb ∧ hb ≠ h ∧
        userId (sock st hb) = Some b ∧ connected (sock st hb) = true ∧
        chatPartnerId (sock st hb) = Some a.
Proof.
  intros Hc Hconn Hu Hp.
  pose proof (c_live st Hc h a Hconn Hu) as Hreg.
  destruct (c_sym st Hc a h b Hreg Hp) as (Hba & hb & Hhb & Hback).
  destruct (c_reg st Hc b hb Hhb) as [Hub Hcb].
  split_and!; [by apply (c_id st Hc h)|by apply (c_id st Hc hb)|done|done|].
  exists hb. split_and!; try done. intros ->. congruence.
Qed.

(** X5: In an orderly run, [leave_chat] from a connected user with a partner
    reaches the partner: the partner's connected socket, another socket
    than the caller's, is sent one [partner_left], the caller one
    [chat_ended], both are left without partner, and each may ask for a
    match again. *)
Theorem leave_chat_orderly st h a b :
  reachable orderly st → connected (sock st h) = true →
  userId (sock st h) = Some a → chatPartnerId (sock st h) = Some b →
  ∃ hb, userSockets st !! b = Some hb ∧ hb ≠ h ∧
    connected (sock st hb) = true ∧
    (leave_chat st h).2 = [(hb, E_partner_left); (h, E_chat_ended)] ∧
    chatPartnerId (sock (leave_chat st h).1 h) = None ∧
    chatPartnerId (sock (leave_chat st h).1 hb) = None ∧
    (∀ rnd, orderly (leave_chat st h).1 h (SearchChat rnd)) ∧
    (∀ rnd, orderly (leave_chat st h).1 hb (SearchChat rnd)) ∧
    reachable orderly (leave_chat st h).1.
Proof.
  intros Hr Hconn Hu Hp. pose proof (reachable_consistent st Hr) as Hc.
  destruct (consistent_partner st h a b Hc Hconn Hu Hp)
    as (Ha & Hb & Hba & Hreg & hb & Hhb & Hne & Hub & Hcb & Hback).
  assert (leave_chat st h =
          (upd_sock h (set_chatPartnerId None) (upd_sock hb (set_chatPartnerId None) st),
           [(hb, E_partner_left); (h, E_chat_ended)])) as E.
  { unfold leave_chat. rewrite Hu, Hp.
    rewrite (proj2 (truthy_Some a)), (proj2 (truthy_Some b)) by done.
    cbn [negb orb default from_option id]. by rewrite Hhb. }
  assert (chatPartnerId (sock (leave_chat st h).1 h) = None) as H1.
  { rewrite E. cbn [fst]. by rewrite chatPartnerId_upd_chatPartnerId, decide_True. }
  assert (chatPartnerId (sock (leave_chat st h).1 hb) = None) as H2.
  { rewrite E. cbn [fst]. rewrite !chatPartnerId_upd_chatPartnerId.
    case_decide; [done|]. by rewrite decide_True. }
  exists hb. split_and!; try done.
  - by rewrite E.
  - intros rnd. split; [by rewrite H1|]. rewrite leave_chat_userId. congruence.
  - intros rnd. split; [by rewrite H2|]. rewrite leave_chat_userId. congruence.
  - assert ((leave_chat st h).1 = (step st (h, LeaveChat)).1) as ->.
    { unfold step. cbn [fst snd]. by rewrite Hconn. }
    by apply reachable_step.
Qed.

Lemma leave_chat_orderly_witness :
  ∃ hb, userSockets st_pair !! "b" = Some hb ∧ hb ≠ 1 ∧
    connected (sock st_pair hb) = true ∧
    (leave_chat st_pair 1).2 = [(hb, E_partner_left); (1, E_chat_ended)] ∧
    chatPartnerId (sock (leave_chat st_pair 1).1 1) = None ∧
    chatPartnerId (sock (leave_chat st_pair 1).1 hb) = None.
Proof.
  destruct (leave_chat_orderly st_pair 1 "a" "b" reachable_st_pair)
    as (hb & H1 & H2 & H3 & H4 & H5 & H6 & _); [reflexivity|reflexivity|reflexivity|].
  exists hb. split_and!; assumption.
Defined.

(** X6: In an orderly run, a message that passed the guard when it arrived
    is relayed according to the store its database write returns in.  If
    the sender is then still connected and linked to [b], the text, under
    the id confirmed to the sender and with the sender's id, goes to
    [b]'s connected socket, which is linked back to the sender.  If the
    link has been cleared in the meantime (the partner left or its
    connection closed), nobody receives the text and the sender is sent
    [message_sent] all the same.  [typing] has no [await]: it hands the
    flag to the partner's socket at once, and does nothing without a
    link. *)
Theorem relay_reaches_partner st0 st h a message stored rnd caught now isTyping :
  not_in_session st0 h = false →
  reachable orderly st → connected (sock st h) = true →
  userId (sock st h) = Some a →
  let confirm := (h, E_message_sent (default (rnd, caught) stored).1 (default (rnd, caught) stored).2) in
  (∀ b, chatPartnerId (sock st h) = Some b →
     ∃ hb, userSockets st !! b = Some hb ∧ hb ≠ h ∧
       connected (sock st hb) = true ∧ chatPartnerId (sock st hb) = Some a ∧
       send_message st0 st h message stored rnd caught now =
         [(hb, E_receive_message (default (rnd, caught) stored).1 message (Some a) now); confirm] ∧
       typing st h isTyping = (st, [(hb, E_partner_typing isTyping)])) ∧
  (chatPartnerId (sock st h) = None →
     send_message st0 st h message stored rnd caught now = [confirm] ∧
     typing st h isTyping = (st, [])).
Proof.
  intros Hguard Hr Hconn Hu confirm. pose proof (reachable_consistent st Hr) as Hc.
  split.
  - intros b Hp.
    destruct (consistent_partner st h a b Hc Hconn Hu Hp)
      as (Ha & Hb & Hba & Hreg & hb & Hhb & Hne & Hub & Hcb & Hback).
    exists hb. split_and!; try done.
    + unfold send_message, send_message_resume. rewrite Hguard, Hu, Hp.
      cbn [mbind option_bind]. by rewrite Hhb.
    + unfold typing. rewrite Hu, Hp.
      rewrite (proj2 (truthy_Some a)), (proj2 (truthy_Some b)) by done.
      cbn [negb orb default from_option id]. by rewrite Hhb.
  - intros Hp. split.
    + unfold send_message, send_message_resume. by rewrite Hguard, Hp.
    + unfold typing. by rewrite Hp, orb_true_r.
Qed.

Lemma relay_reaches_partner_witness :
  (∃ hb, userSockets st_pair !! "b" = Some hb ∧
     send_message st_pair st_pair 1 "hello" None "m7" 4%Z 5%Z =
       [(hb, E_receive_message "m7" "hello" (Some "a") 5%Z); (1, E_message_sent "m7" 4%Z)] ∧
     typing st_pair 1 true = (st_pair, [(hb, E_partner_typing true)])) ∧
  (send_message st_pair (leave_chat st_pair 2).1 1 "hello" None "m7" 4%Z 5%Z =
     [(1, E_message_sent "m7" 4%Z)] ∧
   typing (leave_chat st_pair 2).1 1 true = ((leave_chat st_pair 2).1, [])).
Proof.
  split.
  - destruct (relay_reaches_partner st_pair st_pair 1 "a" "hello" None "m7" 4%Z 5%Z true)
      as [H _]; [reflexivity|exact reachable_st_pair|reflexivity|reflexivity|].
    destruct (H "b" eq_refl) as (hb & H1 & _ & _ & _ & H5 & H6).
    exists hb. split_and!; assumption.
  - destruct (relay_reaches_partner st_pair (leave_chat st_pair 2).1 1 "a" "hello" None "m7" 4%Z 5%Z true)
      as [_ H]; [reflexivity| |reflexivity|reflexivity|].
    + change (leave_chat st_pair 2).1 with (step st_pair (2, LeaveChat)).1.
      apply reachable_step; [exact reachable_st_pair|].
      vm_compute. done.
    + apply H. reflexivity.
Defined.

Lemma relay_to_partner_registered st h event pid ph :
  chatPartnerId (sock st h) = Some pid → pid ≠ "" →
  userSockets st !! pid = Some ph →
  relay_to_partner st h event = [(ph, event (userId (sock st h)))].
Proof.
  intros Hp Hne Hreg. unfold relay_to_partner. rewrite Hp.
  rewrite (proj2 (truthy_Some pid)) by done.
  cbn [negb default from_option id]. by rewrite Hreg.
Qed.

Lemma relay_to_partner_no_partner st h event :
  truthy (chatPartnerId (sock st h)) = false →
  relay_to_partner st h event = [(h, R_event (E_error "Not in a chat session"))].
Proof. intros Hp. unfold relay_to_partner. by rewrite Hp. Qed.

(** X7: In an orderly run, signalling goes both ways between partners: an
    offer or candidate from a connected user reaches the partner's socket
    unchanged and tagged with the sender's id, and the partner's answer or
    candidate comes back to the user's socket tagged with the partner's
    id. *)
Theorem signalling_round_trip st h a b offer answer candidate :
  reachable orderly st → connected (sock st h) = true →
  userId (sock st h) = Some a → chatPartnerId (sock st h) = Some b →
  ∃ hb, userSockets st !! b = Some hb ∧ hb ≠ h ∧
    video_offer st h offer = [(hb, R_video_offer offer (Some a))] ∧
    video_answer st hb answer = [(h, R_video_answer answer (Some b))] ∧
    ice_candidate st h candidate = [(hb, R_ice_candidate candidate (Some a))] ∧
    ice_candidate st hb candidate = [(h, R_ice_candidate candidate (Some b))].
Proof.
  intros Hr Hconn Hu Hp. pose proof (reachable_consistent st Hr) as Hc.
  destruct (consistent_partner st h a b Hc Hconn Hu Hp)
    as (Ha & Hb & Hba & Hreg & hb & Hhb & Hne & Hub & Hcb & Hback).
  exists hb. split_and!; try done.
  - unfold video_offer. by rewrite (relay_to_partner_registered st h _ b hb), Hu.
  - unfold video_answer. by rewrite (relay_to_partner_registered st hb _ a h), Hub.
  - unfold ice_candidate. by rewrite (relay_to_partner_registered st h _ b hb), Hu.
  - unfold ice_candidate. by rewrite (relay_to_partner_registered st hb _ a h), Hub.
Qed.

Lemma signalling_round_trip_witness :
  ∃ hb, userSockets st_pair !! "b" = Some hb ∧
    video_offer st_pair 1 "sdp-offer" = [(hb, R_video_offer "sdp-offer" (Some "a"))] ∧
    video_answer st_pair hb "sdp-answer" = [(1, R_video_answer "sdp-answer" (Some "b"))].
Proof.
  destruct (signalling_round_trip st_pair 1 "a" "b" "sdp-offer" "sdp-answer" "ice" reachable_st_pair)
    as (hb & H1 & _ & H3 & H4 & _); [reflexivity|reflexivity|reflexivity|].
  exists hb. split_and!; assumption.
Defined.

(** X8: In an orderly run, when the partner's connection closes the session
    is over for the user who stays: that user's socket is sent one
    [partner_left] and loses its link, the partner's id leaves the
    registry, and from then on [send_message] and [video_offer] are
    answered with [Not in a chat session] while [typing] and
    [end_video_call] do nothing. *)
Theorem partner_disconnect_ends_session st h a b message stored rnd caught now offer isTyping :
  reachable orderly st → connected (sock st h) = true →
  userId (sock st h) = Some a → chatPartnerId (sock st h) = Some b →
  ∃ hb, userSockets st !! b = Some hb ∧
    (step st (hb, Disconnect)).2 = [(h, E_partner_left)] ∧
    chatPartnerId (sock (step st (hb, Disconnect)).1 h) = None ∧
    userSockets (step st (hb, Disconnect)).1 !! b = None ∧
    userSockets (step st (hb, Disconnect)).1 !! a = Some h ∧
    handle (step st (hb, Disconnect)).1 h (SendMessage message) =
      ((step st (hb, Disconnect)).1, [(h, E_error "Not in a chat session")]) ∧
    (∀ st', send_message (step st (hb, Disconnect)).1 st' h message stored rnd caught now =
       [(h, E_error "Not in a chat session")]) ∧
    video_offer (step st (hb, Disconnect)).1 h offer =
      [(h, R_event (E_error "Not in a chat session"))] ∧
    typing (step st (hb, Disconnect)).1 h isTyping = ((step st (hb, Disconnect)).1, []) ∧
    end_video_call (step st (hb, Disconnect)).1 h = ((step st (hb, Disconnect)).1, []).
Proof.
  intros Hr Hconn Hu Hp. pose proof (reachable_consistent st Hr) as Hc.
  destruct (consistent_partner st h a b Hc Hconn Hu Hp)
    as (Ha & Hb & Hba & Hreg & hb & Hhb & Hne & Hub & Hcb & Hback).
  exists hb. split; [done|].
  set (st1 := upd_sock hb (set_connected false) st).
  assert (step st (hb, Disconnect) =
          (upd_sock h (set_chatPartnerId None)
             (with_waitingUsers (OMap.delete b) (with_userSockets (delete b) st1)),
           [(h, E_partner_left)])) as E.
  { unfold step. cbn [fst snd]. rewrite Hcb. cbn [handle]. fold st1.
    rewrite (disconnect_partner st1 hb b a); try done.
    - cbn zeta. assert (delete b (userSockets st1) !! a = Some h) as ->; [|done].
      rewrite lookup_delete_ne by done. done.
    - subst st1. by rewrite userId_upd_connected.
    - subst st1. by rewrite chatPartnerId_upd_connected. }
  rewrite E. cbn [fst snd].
  set (st' := upd_sock h _ _).
  assert (chatPartnerId (sock st' h) = None) as Hnone.
  { subst st'. by rewrite chatPartnerId_upd_chatPartnerId, decide_True. }
  split_and!; try done.
  - subst st' st1. cbn. apply lookup_delete_eq.
  - subst st' st1. cbn. by rewrite lookup_delete_ne.
  - unfold handle, send_message_arrival, not_in_session. by rewrite Hnone, orb_true_r.
  - intros st''. unfold send_message, send_message_arrival, not_in_session.
    by rewrite Hnone, orb_true_r.
  - unfold video_offer. by rewrite relay_to_partner_no_partner; [|rewrite Hnone].
  - unfold typing. by rewrite Hnone, orb_true_r.
  - unfold end_video_call. by rewrite Hnone.
Qed.

Lemma partner_disconnect_ends_session_witness :
  ∃ hb, userSockets st_pair !! "b" = Some hb ∧
    (step st_pair (hb, Disconnect)).2 = [(1, E_partner_left)] ∧
    chatPartnerId (sock (step st_pair (hb, Disconnect)).1 1) = None ∧
    handle (step st_pair (hb, Disconnect)).1 1 (SendMessage "hello") =
      ((step st_pair (hb, Disconnect)).1, [(1, E_error "Not in a chat session")]) ∧
    send_message (step st_pair (hb, Disconnect)).1 st_pair 1 "hello" None "m7" 4%Z 5%Z =
      [(1, E_error "Not in a chat session")].
Proof.
  destruct (partner_disconnect_ends_session st_pair 1 "a" "b" "hello" None "m7" 4%Z 5%Z "o" true
              reachable_st_pair)
    as (hb & H1 & H2 & H3 & _ & _ & H6 & H7 & _); [reflexivity|reflexivity|reflexivity|].
  exists hb. split_and!; [assumption..|apply H7].
Defined.

(** ** Friend requests *)

(** X9: The friend-request handshake is routed by the registry alone.  With
    [b] registered on socket [hb], a request sent to [b] reaches [hb]
    carrying the [fromUserId] and name the client supplied; with [a]
    registered on [ha], the response [accepted] sent to [a] reaches [ha] as
    [friend_request_accepted] and any other response text as
    [friend_request_rejected].  When the target is not registered the
    sender alone is sent an [error].  Nothing is required of the sending
    socket: neither that it is authenticated nor that [fromUserId] is its
    own id. *)
Theorem friend_request_handshake st h toUserId fromUserId fromUsername response now :
  (∀ th, userSockets st !! toUserId = Some th →
     friend_request st h toUserId fromUserId fromUsername now
       = [(th, R_friend_request_received fromUserId fromUsername now)] ∧
     friend_request_response st h toUserId fromUserId fromUsername "accepted"
       = [(th, R_friend_request_accepted fromUserId fromUsername)] ∧
     (response ≠ "accepted" →
      friend_request_response st h toUserId fromUserId fromUsername response
        = [(th, R_friend_request_rejected fromUserId fromUsername)])) ∧
  (userSockets st !! toUserId = None →
     (∀ o, o ∈ friend_request st h toUserId fromUserId fromUsername now →
        ∃ m, o = (h, R_event (E_error m))) ∧
     (∀ o, o ∈ friend_request_response st h toUserId fromUserId fromUsername response →
        ∃ m, o = (h, R_event (E_error m)))).
Proof.
  split.
  - intros th Hth. unfold friend_request, friend_request_response. rewrite Hth.
    split_and!; [done|done|]. intros Hne.
    by destruct (String.eqb_spec response "accepted").
  - intros Hnone. unfold friend_request, friend_request_response. rewrite Hnone.
    split; intros o [->|Hin%elem_of_nil]%elem_of_cons; try done; by eexists.
Qed.

(** Between the two sockets of [st_pair]: [a] asks [b], [b] accepts; and a
    request to an unknown id. *)
Lemma friend_request_handshake_witness :
  friend_request st_pair 1 "b" "a" "Anonymous_a" 3%Z
    = [(2, R_friend_request_received "a" "Anonymous_a" 3%Z)] ∧
  friend_request_response st_pair 2 "a" "b" "Anonymous_b" "accepted"
    = [(1, R_friend_request_accepted "b" "Anonymous_b")] ∧
  friend_request_response st_pair 2 "a" "b" "Anonymous_b" "Accepted"
    = [(1, R_friend_request_rejected "b" "Anonymous_b")] ∧
  (∀ o, o ∈ friend_request st_pair 1 "zed" "a" "Anonymous_a" 3%Z →
     ∃ m, o = (1, R_event (E_error m))).
Proof.
  split_and!.
  - apply (friend_request_handshake st_pair 1 "b" "a" "Anonymous_a" "accepted" 3%Z).
    reflexivity.
  - apply (friend_request_handshake st_pair 2 "a" "b" "Anonymous_b" "accepted" 3%Z).
    reflexivity.
  - apply (friend_request_handshake st_pair 2 "a" "b" "Anonymous_b" "Accepted" 3%Z);
      [reflexivity|discriminate].
  - apply (friend_request_handshake st_pair 1 "zed" "a" "Anonymous_a" "accepted" 3%Z).
    reflexivity.
Defined.

(** ** Presence *)

Lemma has_true m id : has m id = true ↔ is_Some (m !! id).
Proof.
  unfold has. destruct (m !! id); split; try done; by intros [? ?].
Qed.

(** X10: [check_friends_status] from an authenticated socket with a non-empty
    list answers with one [friends_status_update]: one entry per requested
    id, in the order asked, duplicates included, each flagged online
    exactly when the id is in the registry.  A missing or empty list gets
    no answer at all, and an unauthenticated socket gets [error]. *)
Theorem check_friends_status_reports_registry st h uid ids :
  userId (sock st h) = Some uid → uid ≠ "" →
  (ids ≠ [] →
   ∃ statuses,
     check_friends_status st h (Some ids) = [(h, R_friends_status_update statuses)] ∧
     map fst statuses = ids ∧
     ∀ id on, (id, on) ∈ statuses → (on = true ↔ is_Some (userSockets st !! id))) ∧
  check_friends_status st h (Some []) = [] ∧
  check_friends_status st h None = [].
Proof.
  intros Hu Hne. unfold check_friends_status. rewrite Hu.
  rewrite (proj2 (truthy_Some uid)) by done. cbn [negb].
  split_and!; [|done|done].
  intros Hids. destruct ids as [|i ids]; [done|].
  eexists. split; [done|]. split.
  - rewrite map_map. cbn [fst]. apply map_id.
  - intros id on Hin. apply list_elem_of_In, in_map_iff in Hin as (x & [= <- <-] & _).
    apply has_true.
Qed.

Lemma check_friends_status_reports_registry_witness :
  ∃ statuses,
    check_friends_status st_pair 1 (Some ["b"; "zed"; "b"])
      = [(1, R_friends_status_update statuses)] ∧
    map fst statuses = ["b"; "zed"; "b"] ∧
    ∀ id on, (id, on) ∈ statuses → (on = true ↔ is_Some (userSockets st_pair !! id)).
Proof.
  destruct (check_friends_status_reports_registry st_pair 1 "a" ["b"; "zed"; "b"])
    as [H _]; [reflexivity|discriminate|].
  apply H. discriminate.
Defined.

(** X11: Presence follows the registry entry, not the connection.
    [authenticate] makes the id it settles on reported online.  The
    [disconnect] of a socket whose current id is a non-empty [uid] makes
    [uid] reported offline, and leaves the report for every other id as
    it was: an id under which the socket registered before it
    authenticated again stays reported online after the socket has
    closed.  The reports are those [check_friends_status] gives to any
    authenticated socket that asks. *)
Theorem presence_follows_registry st h hq :
  (∀ token decoded rnd,
     let uid := (auth_identity token decoded rnd).1 in
     let st1 := (authenticate st h token decoded rnd).1 in
     truthy (userId (sock st1 hq)) = true →
     check_friends_status st1 hq (Some [uid])
       = [(hq, R_friends_status_update [(uid, true)])]) ∧
  (∀ uid, userId (sock st h) = Some uid → uid ≠ "" →
     truthy (userId (sock st hq)) = true →
     let st2 := (disconnect st h).1 in
     check_friends_status st2 hq (Some [uid])
       = [(hq, R_friends_status_update [(uid, false)])] ∧
     (∀ old, old ≠ uid →
        check_friends_status st2 hq (Some [old]) = check_friends_status st hq (Some [old])) ∧
     (∀ old, old ≠ uid → userSockets st !! old = Some h →
        check_friends_status st2 hq (Some [old])
          = [(hq, R_friends_status_update [(old, true)])])).
Proof.
  split.
  - intros token decoded rnd uid st1 Hq.
    assert (userSockets st1 !! uid = Some h) as Hreg.
    { subst uid st1. unfold authenticate.
      destruct (auth_identity token decoded rnd) as [u n]. cbn [fst].
      cbn. apply lookup_insert_eq. }
    unfold check_friends_status. rewrite Hq. cbn [negb map].
    unfold has. by rewrite Hreg.
  - intros uid Hu Hne Hq st2.
    assert (∀ id, check_friends_status st2 hq (Some [id])
                  = [(hq, R_friends_status_update [(id, has (delete uid (userSockets st)) id)])])
      as Hst2.
    { intros id. unfold check_friends_status. subst st2.
      rewrite disconnect_userId, Hq. cbn [negb map].
      rewrite disconnect_userSockets by (rewrite Hu; by apply truthy_Some).
      by rewrite Hu. }
    assert (∀ id, check_friends_status st hq (Some [id])
                  = [(hq, R_friends_status_update [(id, has (userSockets st) id)])])
      as Hst.
    { intros id. unfold check_friends_status. by rewrite Hq. }
    split_and!.
    + rewrite Hst2. unfold has. by rewrite lookup_delete_eq.
    + intros old Hold. rewrite Hst2, Hst. unfold has. by rewrite lookup_delete_ne.
    + intros old Hold Hreg. rewrite Hst2. unfold has.
      by rewrite lookup_delete_ne, Hreg.
Qed.

(** A third socket authenticates as [c] beside the pair of [st_pair],
    authenticates again as [d], and closes: [c] and [d] were reported
    online to socket 1, and after the close [d] is reported offline and
    [c] still online. *)
Lemma presence_follows_registry_witness :
  let st1 := (authenticate st_pair 3 "mock_token_c" None "r").1 in
  let st2 := (authenticate st1 3 "mock_token_d" None "r").1 in
  check_friends_status st1 1 (Some ["c"]) = [(1, R_friends_status_update [("c", true)])] ∧
  check_friends_status st2 1 (Some ["d"]) = [(1, R_friends_status_update [("d", true)])] ∧
  check_friends_status (disconnect st2 3).1 1 (Some ["d"])
    = [(1, R_friends_status_update [("d", false)])] ∧
  check_friends_status (disconnect st2 3).1 1 (Some ["c"])
    = [(1, R_friends_status_update [("c", true)])] ∧
  check_friends_status (disconnect st1 3).1 1 (Some ["c"])
    = [(1, R_friends_status_update [("c", false)])].
Proof.
  intros st1 st2.
  destruct (presence_follows_registry st_pair 3 1) as [A _].
  destruct (presence_follows_registry st1 3 1) as [B C].
  destruct (presence_follows_registry st2 3 1) as [_ D].
  destruct (D "d") as (D1 & _ & D3); [reflexivity|discriminate|reflexivity|].
  destruct (C "c") as (C1 & _); [reflexivity|discriminate|reflexivity|].
  split_and!.
  - apply (A "mock_token_c" None "r"). reflexivity.
  - apply (B "mock_token_d" None "r"). reflexivity.
  - exact D1.
  - apply D3; [discriminate|reflexivity].
  - exact C1.
Defined.

(** ** The waiting pool in a run *)

Lemma length_delete k m : length (OMap.delete k m) ≤ length m.
Proof.
  induction m as [|[k0 v0] m IH]; simpl; [done|].
  destruct (String.eqb k0 k); simpl; lia.
Qed.

Lemma keys_delete_subset k k' m :
  k' ∈ OMap.keys (OMap.delete k m) → k' ∈ OMap.keys m.
Proof.
  rewrite OMapFacts.keys_delete. by intros [_ ?]%list_elem_of_filter.
Qed.

Lemma pool_small_same st st' :
  pool_small st → waitingUsers st' = waitingUsers st → pool_small st'.
Proof. unfold pool_small. by intros H ->. Qed.

Lemma pool_small_delete st st' k :
  pool_small st → waitingUsers st' = OMap.delete k (waitingUsers st) → pool_small st'.
Proof.
  unfold pool_small. intros [Hlen Hkeys] ->. split.
  - pose proof (length_delete k (waitingUsers st)). lia.
  - intros k' Hk'. apply Hkeys. by apply keys_delete_subset in Hk'.
Qed.

(** A small pool is empty or holds one entry, under a non-empty key. *)
Lemma pool_small_cases st :
  pool_small st →
  waitingUsers st = [] ∨ ∃ k v, waitingUsers st = [(k, v)] ∧ k ≠ "".
Proof.
  intros [Hlen Hkeys]. destruct (waitingUsers st) as [|[k v] [|e w]]; [by left| |simpl in Hlen; lia].
  right. exists k, v. split; [done|]. apply Hkeys. by left.
Qed.

Lemma pool_small_match_waiting st h :
  pool_small st → default "" (userId (sock st h)) ≠ "" →
  pool_small (match_waiting st h).1.
Proof.
  intros Hsmall Huid.
  destruct (match_waiting_cases st h) as [(pid & ph & _ & _ & _ & _ & ->)|[Hnone ->]].
  - apply (pool_small_delete (with_waitingUsers (OMap.delete (default "" (userId (sock st h)))) st) _ pid).
    + by apply (pool_small_delete st _ (default "" (userId (sock st h)))).
    + apply paired_waitingUsers.
  - unfold enqueued. cbn [fst].
    destruct (pool_small_cases st Hsmall) as [Hw|(k & v & Hw & Hk)];
      unfold pool_small; cbn [waitingUsers with_waitingUsers]; rewrite Hw.
    + cbn. split; [lia|]. by intros k' ->%list_elem_of_singleton.
    + rewrite Hw in Hnone. cbn in Hnone |- *.
      destruct (String.eqb_spec k (default "" (userId (sock st h)))) as [E|E].
      * cbn. split; [lia|]. by intros k' ->%list_elem_of_singleton.
      * destruct Hk. apply Hnone. unfold find_partner. cbn.
        by destruct (String.eqb_spec k (default "" (userId (sock st h)))).
Qed.

Lemma pool_small_step st h e :
  pool_small st → nonempty_rnd st h e → pool_small (step st (h, e)).1.
Proof.
  intros Hsmall Hok.
  destruct (is_resumption e) eqn:Hres.
  { destruct e; try discriminate. by rewrite step_resumption. }
  rewrite step_handle by done.
  destruct (connected (sock st h)); [|done].
  destruct e as [token decoded rnd|rnd|message|message stored rnd caught now|b| |friendId| |];
    cbn [handle]; [| |done|discriminate| | | | |].
  - apply (pool_small_same st); [done|]. unfold authenticate.
    by destruct (auth_identity token decoded rnd).
  - unfold search_chat. apply pool_small_match_waiting.
    + apply (pool_small_same st); [done|apply auto_authenticate_waitingUsers].
    + rewrite auto_authenticate_userId. cbn [default from_option id].
      cbn in Hok. destruct (truthy (userId (sock st h))) eqn:Ht; [|by apply Hok].
      destruct (truthy_true _ Ht) as (u & -> & Hu). done.
  - by rewrite typing_state.
  - apply (pool_small_same st); [done|apply leave_chat_waitingUsers].
  - apply (pool_small_same st); [done|apply start_chat_with_friend_waitingUsers].
  - by rewrite end_video_call_state.
  - set (st1 := upd_sock h (set_connected false) st).
    destruct (truthy (userId (sock st1 h))) eqn:Ht.
    + apply (pool_small_delete st _ (default "" (userId (sock st1 h)))); [done|].
      by rewrite disconnect_waitingUsers.
    + unfold disconnect. by rewrite Ht.
Qed.

Lemma reachable_pool_small st : reachable nonempty_rnd st → pool_small st.
Proof.
  induction 1 as [|st h e _ IH Hok].
  - split; [cbn; lia|]. by intros k ?%elem_of_nil.
  - by apply pool_small_step.
Qed.

(** X12: As long as generated ids are not empty, the waiting pool never holds
    more than one user: in every store reached from the empty one, by
    whatever events, it is empty or a single entry under a non-empty
    id. *)
Theorem pool_holds_at_most_one st :
  reachable nonempty_rnd st →
  waitingUsers st = [] ∨ ∃ k ph, waitingUsers st = [(k, ph)] ∧ k ≠ "".
Proof. intros Hr. by apply pool_small_cases, reachable_pool_small. Qed.

Lemma reachable_st_waiting_and_idle : reachable nonempty_rnd st_waiting_and_idle.
Proof.
  change st_waiting_and_idle with
    (step (step init (1, SearchChat "a")).1 (2, Authenticate "mock_token_b" None "r")).1.
  apply reachable_step; [apply reachable_step; [constructor|]|]; [|done].
  intros _. discriminate.
Qed.

Lemma pool_holds_at_most_one_witness :
  waitingUsers st_waiting_and_idle = [] ∨
  ∃ k ph, waitingUsers st_waiting_and_idle = [(k, ph)] ∧ k ≠ "".
Proof. exact (pool_holds_at_most_one st_waiting_and_idle reachable_st_waiting_and_idle). Defined.

(** X13: Nobody waits while a match is possible.  In every such store, a
    [search_chat] from a user other than the one waiting is paired with
    that user at once and empties the pool; a [search_chat] that finds the
    pool empty, or holding only the caller, leaves the caller as the one
    waiting user. *)
Theorem search_chat_serves_at_once st h rnd :
  reachable nonempty_rnd st →
  let st0 := auto_authenticate st h rnd in
  let uid := default "" (userId (sock st0 h)) in
  (∀ k ph, OMap.get k (waitingUsers st) = Some ph → k ≠ uid →
     (search_chat st h rnd).2 =
       [(h, E_searching);
        (h, E_chat_connected k (username (sock st0 ph)));
        (ph, E_chat_connected uid (username (sock st0 h)))] ∧
     chatPartnerId (sock (search_chat st h rnd).1 ph) = Some uid ∧
     waitingUsers (search_chat st h rnd).1 = []) ∧
  ((∀ k, k ∈ OMap.keys (waitingUsers st) → k = uid) →
     (search_chat st h rnd).2 = [(h, E_searching)] ∧
     waitingUsers (search_chat st h rnd).1 = [(uid, h)]).
Proof.
  intros Hr st0 uid. pose proof (reachable_pool_small st Hr) as Hsmall.
  assert (userId (sock st0 h) = Some uid) as Hu.
  { subst uid st0. by rewrite auto_authenticate_userId. }
  split.
  - intros k ph Hget Hk.
    destruct (pool_small_cases st Hsmall) as [Hw|(k' & v & Hw & Hk')];
      rewrite Hw in Hget; [done|].
    cbn in Hget. destruct (String.eqb_spec k' k) as [->|]; [|done].
    injection Hget as ->.
    destruct (search_chat_paired st h rnd k) as (ph' & Hph' & ->); [| done |].
    { fold st0 uid. rewrite Hw. unfold find_partner. cbn.
      by destruct (String.eqb_spec k uid). }
    rewrite Hw in Hph'. cbn in Hph'. rewrite String.eqb_refl in Hph'. injection Hph' as <-.
    fold st0. rewrite paired_emits, paired_chatPartnerId, paired_waitingUsers.
    fold uid. rewrite decide_True by done.
    split_and!; [done|done|].
    subst st0. rewrite auto_authenticate_waitingUsers, Hw. cbn.
    destruct (String.eqb_spec k uid); [done|]. cbn. by rewrite String.eqb_refl.
  - intros Honly. rewrite search_chat_enqueued.
    2:{ fold st0 uid. intros pid [Hin Hne]%find_partner_Some. destruct Hne. by apply Honly. }
    fold st0. unfold enqueued. cbn [fst snd]. split; [done|].
    fold uid. cbn [waitingUsers with_waitingUsers]. subst st0.
    rewrite auto_authenticate_waitingUsers.
    destruct (pool_small_cases st Hsmall) as [Hw|(k' & v & Hw & Hk')]; rewrite Hw in Honly |- *.
    + done.
    + cbn. rewrite (Honly k') by (by left). by rewrite String.eqb_refl.
Qed.

(** At [st_waiting_and_idle], where [a] waits: [b] asks and is paired
    with [a]; [a] asking again stays the one waiting user. *)
Lemma search_chat_serves_at_once_witness :
  ((search_chat st_waiting_and_idle 2 "r").2 =
     [(2, E_searching);
      (2, E_chat_connected "a" (Some "Anonymous_a"));
      (1, E_chat_connected "b" (Some "User_b"))] ∧
   chatPartnerId (sock (search_chat st_waiting_and_idle 2 "r").1 1) = Some "b" ∧
   waitingUsers (search_chat st_waiting_and_idle 2 "r").1 = []) ∧
  ((search_chat st_waiting_and_idle 1 "r").2 = [(1, E_searching)] ∧
   waitingUsers (search_chat st_waiting_and_idle 1 "r").1 = [("a", 1)]).
Proof.
  split.
  - destruct (search_chat_serves_at_once st_waiting_and_idle 2 "r" reachable_st_waiting_and_idle)
      as [H _].
    apply (H "a" 1); [reflexivity|discriminate].
  - destruct (search_chat_serves_at_once st_waiting_and_idle 1 "r" reachable_st_waiting_and_idle)
      as [_ H].
    apply H. intros k Hk. apply list_elem_of_singleton in Hk. exact Hk.
Defined.

(** ** [start_chat_with_friend] *)

Lemma start_chat_with_friend_online st h uid friendId fh :
  userId (sock st h) = Some uid → uid ≠ "" →
  userSockets st !! friendId = Some fh →
  start_chat_with_friend st h friendId =
    (upd_sock fh (set_chatPartnerId (Some uid))
       (upd_sock h (set_chatPartnerId (Some friendId)) st),
     [(h, E_chat_connected friendId (Some (js_or (username (sock st fh)) "Friend")));
      (fh, E_chat_connected uid (Some (js_or (username (sock st h)) "Friend")))]).
Proof.
  intros Hu Hne Hf. unfold start_chat_with_friend. rewrite Hu, Hf.
  rewrite (proj2 (truthy_Some uid)) by done. cbn [negb].
  by rewrite !username_upd_chatPartnerId, !userId_upd_chatPartnerId, Hu.
Qed.

(** X14: [start_chat_with_friend] from an authenticated user.  If the friend's
    id is registered, the socket registered under it gets the caller as
    partner, the caller (when it is another socket) gets the friend, and
    each is sent [chat_connected] naming the other, with [Friend] in place
    of a missing name; no other socket's link changes, so whoever was the
    partner of either before is neither told nor unlinked, and the registry
    and the waiting pool are left alone.  If the caller names an id
    registered to its own socket, it becomes its own partner.  If the id
    is not registered, the caller is sent an [error] and nothing
    changes. *)
Theorem start_chat_with_friend_links st h uid friendId :
  userId (sock st h) = Some uid → uid ≠ "" →
  (∀ fh, userSockets st !! friendId = Some fh →
     (start_chat_with_friend st h friendId).2 =
       [(h, E_chat_connected friendId (Some (js_or (username (sock st fh)) "Friend")));
        (fh, E_chat_connected uid (Some (js_or (username (sock st h)) "Friend")))] ∧
     chatPartnerId (sock (start_chat_with_friend st h friendId).1 fh) = Some uid ∧
     (fh ≠ h → chatPartnerId (sock (start_chat_with_friend st h friendId).1 h) = Some friendId) ∧
     (∀ h', h' ≠ h → h' ≠ fh →
        chatPartnerId (sock (start_chat_with_friend st h friendId).1 h')
        = chatPartnerId (sock st h')) ∧
     userSockets (start_chat_with_friend st h friendId).1 = userSockets st ∧
     waitingUsers (start_chat_with_friend st h friendId).1 = waitingUsers st) ∧
  (userSockets st !! friendId = None →
     (start_chat_with_friend st h friendId).1 = st ∧
     ∃ m, (start_chat_with_friend st h friendId).2 = [(h, E_error m)]).
Proof.
  intros Hu Hne. split.
  - intros fh Hf. rewrite (start_chat_with_friend_online st h uid friendId fh) by done.
    cbn [fst snd]. split_and!; try done.
    + by rewrite chatPartnerId_upd_chatPartnerId, decide_True.
    + intros Hfh. rewrite !chatPartnerId_upd_chatPartnerId.
      rewrite decide_False by done. by rewrite decide_True.
    + intros h' H1 H2. rewrite !chatPartnerId_upd_chatPartnerId.
      by rewrite !decide_False.
  - intros Hf. unfold start_chat_with_friend. rewrite Hu, Hf.
    rewrite (proj2 (truthy_Some uid)) by done. cbn [negb fst snd].
    split; [done|]. by eexists.
Qed.

(** At [st_pair]: [a] naming itself, [a] naming its partner [b], and [a]
    naming an id nobody holds. *)
Lemma start_chat_with_friend_links_witness :
  (chatPartnerId (sock (start_chat_with_friend st_pair 1 "a").1 1) = Some "a") ∧
  (chatPartnerId (sock (start_chat_with_friend st_pair 1 "b").1 2) = Some "a" ∧
   chatPartnerId (sock (start_chat_with_friend st_pair 1 "b").1 1) = Some "b") ∧
  (start_chat_with_friend st_pair 1 "zed").1 = st_pair.
Proof.
  destruct (start_chat_with_friend_links st_pair 1 "a" "a") as [Ha _];
    [reflexivity|discriminate|].
  destruct (start_chat_with_friend_links st_pair 1 "a" "b") as [Hb _];
    [reflexivity|discriminate|].
  destruct (start_chat_with_friend_links st_pair 1 "a" "zed") as [_ Hz];
    [reflexivity|discriminate|].
  split_and!.
  - destruct (Ha 1) as (_ & H & _); [reflexivity|exact H].
  - destruct (Hb 2) as (_ & H & _); [reflexivity|exact H].
  - destruct (Hb 2) as (_ & _ & H & _); [reflexivity|]. apply H. discriminate.
  - apply Hz. reflexivity.
Defined.

(** X15: A friend chat does not take its users out of the waiting pool.  When
    the friend [f] is waiting, first in line for a third user [x], and
    [h] starts a chat with [f], then the next [search_chat] of [x] is still
    paired with [f]: the friend's socket gets [x] as partner in place of
    the caller, while the caller keeps [f] as partner. *)
Theorem friend_chat_stays_in_pool st h uid f fh x xid rnd :
  userId (sock st h) = Some uid → uid ≠ "" →
  userId (sock st x) = Some xid → xid ≠ "" →
  userSockets st !! f = Some fh → OMap.get f (waitingUsers st) = Some fh →
  find_partner xid (OMap.keys (waitingUsers st)) = Some f → f ≠ "" →
  h ≠ fh → h ≠ x →
  let st1 := (start_chat_with_friend st h f).1 in
  chatPartnerId (sock st1 fh) = Some uid ∧
  chatPartnerId (sock st1 h) = Some f ∧
  (h, E_chat_connected f (Some (js_or (username (sock st fh)) "Friend")))
    ∈ (start_chat_with_friend st h f).2 ∧
  (x, E_chat_connected f (username (sock st fh))) ∈ (search_chat st1 x rnd).2 ∧
  chatPartnerId (sock (search_chat st1 x rnd).1 fh) = Some xid ∧
  chatPartnerId (sock (search_chat st1 x rnd).1 h) = Some f.
Proof.
  intros Hu Hune Hx Hxne Hreg Hpool Hfind Hfne Hhf Hhx st1.
  assert (start_chat_with_friend st h f =
          (st1, [(h, E_chat_connected f (Some (js_or (username (sock st fh)) "Friend")));
                 (fh, E_chat_connected uid (Some (js_or (username (sock st h)) "Friend")))])) as E.
  { subst st1. by rewrite (start_chat_with_friend_online st h uid f fh). }
  assert (st1 = upd_sock fh (set_chatPartnerId (Some uid))
                  (upd_sock h (set_chatPartnerId (Some f)) st)) as Est.
  { subst st1. by rewrite (start_chat_with_friend_online st h uid f fh). }
  assert (chatPartnerId (sock st1 fh) = Some uid) as H1.
  { rewrite Est. by rewrite chatPartnerId_upd_chatPartnerId, decide_True. }
  assert (chatPartnerId (sock st1 h) = Some f) as H2.
  { rewrite Est. rewrite !chatPartnerId_upd_chatPartnerId.
    rewrite decide_False by done. by rewrite decide_True. }
  assert (userId (sock st1 x) = Some xid) as Hx1.
  { rewrite Est. by rewrite !userId_upd_chatPartnerId. }
  assert (waitingUsers st1 = waitingUsers st) as Hw1 by (by rewrite Est).
  assert (auto_authenticate st1 x rnd = st1) as Hauto.
  { apply auto_authenticate_truthy. rewrite Hx1. by apply truthy_Some. }
  destruct (search_chat_paired st1 x rnd f) as (ph & Hph & Es).
  { by rewrite Hauto, Hx1, Hw1. }
  { done. }
  rewrite Hw1, Hpool in Hph. injection Hph as <-.
  rewrite Es, Hauto, paired_emits, !paired_chatPartnerId, Hx1, E. cbn [snd].
  split_and!; try done.
  - apply elem_of_cons. by left.
  - apply elem_of_cons. right. apply elem_of_cons. left.
    rewrite Est. by rewrite !username_upd_chatPartnerId.
  - by rewrite decide_True.
  - rewrite decide_False by done. by rewrite decide_False.
Qed.

(** [a] waits on socket 1; [b] on socket 2 starts a friend chat with [a];
    then [c] on socket 3 asks for a match and gets [a], while [b] keeps
    [a] as partner. *)
Lemma friend_chat_stays_in_pool_witness :
  chatPartnerId (sock (start_chat_with_friend st_waiting_and_two_idle 2 "a").1 1) = Some "b" ∧
  chatPartnerId (sock (start_chat_with_friend st_waiting_and_two_idle 2 "a").1 2) = Some "a" ∧
  chatPartnerId
    (sock (search_chat (start_chat_with_friend st_waiting_and_two_idle 2 "a").1 3 "r").1 1)
    = Some "c" ∧
  chatPartnerId
    (sock (search_chat (start_chat_with_friend st_waiting_and_two_idle 2 "a").1 3 "r").1 2)
    = Some "a".
Proof.
  destruct (friend_chat_stays_in_pool st_waiting_and_two_idle 2 "b" "a" 1 3 "c" "r")
    as (H1 & H2 & _ & _ & H5 & H6);
    [reflexivity|discriminate|reflexivity|discriminate|reflexivity|reflexivity|
     reflexivity|discriminate|discriminate|discriminate|].
  split_and!; [exact H1|exact H2|exact H5|exact H6].
Defined.

(** ** What [disconnect] leaves alone *)

(** X16: The [disconnect] of the socket of user [uid] touches nothing but that
    user's entries and one link.  Every other id keeps its registry entry
    and its pool entry, the others wait in the order they had, no socket's
    identity changes, and the only session link that can change is the one
    of the socket registered under the leaver's partner, which is cleared;
    the leaver's own link is not. *)
Theorem disconnect_touches_only_own st h uid :
  userId (sock st h) = Some uid → uid ≠ "" →
  (∀ k, k ≠ uid →
     userSockets (disconnect st h).1 !! k = userSockets st !! k ∧
     OMap.get k (waitingUsers (disconnect st h).1) = OMap.get k (waitingUsers st)) ∧
  OMap.keys (waitingUsers (disconnect st h).1)
    = filter (λ k, k ≠ uid) (OMap.keys (waitingUsers st)) ∧
  (∀ h', userId (sock (disconnect st h).1 h') = userId (sock st h')) ∧
  (∀ h', chatPartnerId (sock (disconnect st h).1 h') = chatPartnerId (sock st h') ∨
         (chatPartnerId (sock (disconnect st h).1 h') = None ∧
          ∃ pid, chatPartnerId (sock st h) = Some pid ∧ pid ≠ uid ∧
                 userSockets st !! pid = Some h')) ∧
  ((∀ pid, chatPartnerId (sock st h) = Some pid → userSockets st !! pid ≠ Some h) →
   chatPartnerId (sock (disconnect st h).1 h) = chatPartnerId (sock st h)).
Proof.
  intros Hu Hne.
  assert (truthy (userId (sock st h)) = true) as Ht by (rewrite Hu; by apply truthy_Some).
  assert (default "" (userId (sock st h)) = uid) as Hd by by rewrite Hu.
  assert (∀ h', chatPartnerId (sock (disconnect st h).1 h') = chatPartnerId (sock st h') ∨
         (chatPartnerId (sock (disconnect st h).1 h') = None ∧
          ∃ pid, chatPartnerId (sock st h) = Some pid ∧ pid ≠ uid ∧
                 userSockets st !! pid = Some h')) as Hlinks.
  { intros h'. destruct (truthy (chatPartnerId (sock st h))) eqn:Hp.
    - destruct (truthy_true _ Hp) as (pid & Hpid & Hpne).
      rewrite (disconnect_partner st h uid pid) by done. cbn zeta.
      destruct (delete uid (userSockets st) !! pid) as [ph|] eqn:Hph; cbn [fst]; [|by left].
      rewrite chatPartnerId_upd_chatPartnerId. case_decide as Hh; [|by left].
      subst h'. right. split; [done|]. exists pid.
      apply lookup_delete_Some in Hph as [? ?]. done.
    - left. by rewrite disconnect_no_partner. }
  split_and!.
  - intros k Hk. rewrite disconnect_userSockets, disconnect_waitingUsers, Hd by done.
    split; [by rewrite lookup_delete_ne|by rewrite OMapFacts.get_delete_ne].
  - by rewrite disconnect_waitingUsers, Hd, OMapFacts.keys_delete.
  - apply disconnect_userId.
  - done.
  - intros Hself. destruct (Hlinks h) as [E|(_ & pid & Hpid & _ & Hreg)]; [done|].
    by destruct (Hself pid Hpid).
Qed.

(** At [st_pair_and_waiting], where [c] waits: the disconnect of [a]
    leaves the entries of [c] and the link of [a] itself. *)
Lemma disconnect_touches_only_own_witness :
  userSockets (disconnect st_pair_and_waiting 1).1 !! "c" = Some 3 ∧
  OMap.keys (waitingUsers (disconnect st_pair_and_waiting 1).1) = ["c"] ∧
  chatPartnerId (sock (disconnect st_pair_and_waiting 1).1 1) = Some "b".
Proof.
  destruct (disconnect_touches_only_own st_pair_and_waiting 1 "a")
    as (H1 & H2 & _ & _ & H5); [reflexivity|discriminate|].
  split_and!.
  - destruct (H1 "c") as [H _]; [discriminate|]. rewrite H. reflexivity.
  - rewrite H2. reflexivity.
  - rewrite H5; [reflexivity|]. intros pid Hpid. vm_compute in Hpid.
    injection Hpid as <-. discriminate.
Defined.

(** * The token middleware *)

Lemma js_split_nonempty sep s : js_split sep s ≠ [].
Proof.
  destruct s as [|c s]; cbn; [done|].
  destruct (Ascii.eqb c sep); [done|]. by destruct (js_split sep s).
Qed.

Lemma js_split_spaceless s : spaceless s = true → js_split " " s = [s].
Proof.
  induction s as [|c s IH]; cbn; [done|].
  intros [Hc Hs]%andb_prop. apply negb_true_iff in Hc. rewrite Hc.
  by rewrite (IH Hs).
Qed.

Lemma append_nil (x : string) : "" +:+ x = x.
Proof. reflexivity. Qed.

Lemma append_cons c (a x : string) : String c a +:+ x = String c (a +:+ x).
Proof. reflexivity. Qed.

Lemma js_split_first a b :
  spaceless a = true → js_split " " (a +:+ String " " b) = a :: js_split " " b.
Proof.
  induction a as [|c a IH].
  - intros _. rewrite append_nil. cbn [js_split]. by rewrite Ascii.eqb_refl.
  - cbn [spaceless]. intros [Hc Ha]%andb_prop. apply negb_true_iff in Hc.
    rewrite append_cons. cbn [js_split]. rewrite Hc. by rewrite (IH Ha).
Qed.

Lemma truthy_append a b : truthy (Some (a +:+ String " " b)) = true.
Proof. by destruct a. Qed.

(** X17: The middleware takes the second space-separated field of the header
    for the token and never looks at the first.  For a header made of any
    space-free scheme, one space and a non-empty space-free token,
    possibly followed by a space and more text, the outcome is decided by
    [verifyToken] on that token alone: [next] with the decoded user, or
    401 [Invalid or expired token]. *)
Theorem authenticateToken_second_field verifyToken scheme token rest :
  spaceless scheme = true → spaceless token = true → token ≠ "" →
  let outcome :=
    match verifyToken token with
    | Some user => Next user
    | None => Respond 401 "Invalid or expired token"
    end in
  authenticateToken verifyToken (Some (scheme +:+ String " " token)) = outcome ∧
  authenticateToken verifyToken (Some (scheme +:+ String " " (token +:+ String " " rest)))
    = outcome.
Proof.
  intros Hs Ht Hne outcome. unfold authenticateToken.
  rewrite !truthy_append. cbn [default from_option id].
  rewrite !js_split_first, js_split_spaceless by done. cbn [lookup list_lookup].
  destruct (js_split " " rest) eqn:E; [by apply js_split_nonempty in E|].
  rewrite (proj2 (truthy_Some token)) by done. cbn [negb default from_option id].
  subst outcome. by destruct (verifyToken token).
Qed.

Lemma authenticateToken_second_field_witness :
  authenticateToken (λ t, if String.eqb t "abc" then Some ("u1", "bob") else None)
    (Some "Bearer abc") = Next ("u1", "bob") ∧
  authenticateToken (λ t, if String.eqb t "abc" then Some ("u1", "bob") else None)
    (Some "Basic abc trailing text") = Next ("u1", "bob").
Proof.
  split.
  - destruct (authenticateToken_second_field
                (λ t, if String.eqb t "abc" then Some ("u1", "bob") else None)
                "Bearer" "abc" "") as [H _];
      [reflexivity|reflexivity|discriminate|exact H].
  - destruct (authenticateToken_second_field
                (λ t, if String.eqb t "abc" then Some ("u1", "bob") else None)
                "Basic" "abc" "trailing text") as [_ H];
      [reflexivity|reflexivity|discriminate|exact H].
Defined.

(** X18: Without a usable second field the request is refused before the
    verifier is asked.  A missing or empty header, a header without any
    space, and a header whose first space is followed at once by another
    or by the end all get 401 [Access token required], whatever
    [verifyToken] would accept. *)
Theorem authenticateToken_requires_token verifyToken authorization :
  authorization = None ∨
  (∃ s, authorization = Some s ∧ spaceless s = true) ∨
  (∃ scheme rest, authorization = Some (scheme +:+ String " " (String " " rest))
                  ∧ spaceless scheme = true) ∨
  (∃ scheme, authorization = Some (scheme +:+ " ") ∧ spaceless scheme = true) →
  authenticateToken verifyToken authorization = Respond 401 "Access token required".
Proof.
  intros [->|[(s & -> & Hs)|[(scheme & rest & -> & Hs)|(scheme & -> & Hs)]]];
    unfold authenticateToken.
  - done.
  - destruct (truthy (Some s)) eqn:Ht; cbn [default from_option id].
    + by rewrite js_split_spaceless.
    + by rewrite Ht.
  - rewrite truthy_append. cbn [default from_option id].
    rewrite js_split_first by done. cbn [js_split]. by rewrite Ascii.eqb_refl.
  - rewrite truthy_append. cbn [default from_option id].
    by rewrite js_split_first.
Qed.

Lemma authenticateToken_requires_token_witness :
  authenticateToken (λ _, Some ("u1", "bob")) (Some "Bearer  abc")
    = Respond 401 "Access token required" ∧
  authenticateToken (λ _, Some ("u1", "bob")) (Some "abc")
    = Respond 401 "Access token required".
Proof.
  split.
  - apply authenticateToken_requires_token. right. right. left.
    exists "Bearer", "abc". split; reflexivity.
  - apply authenticateToken_requires_token. right. left.
    exists "abc". split; reflexivity.
Defined.

(** * The friends store *)

Module FriendsFacts.
Import Friends.

Lemma findIndex_Some {A} (p : A → bool) l i :
  findIndex p l = Some i → ∃ x, l !! i = Some x ∧ p x = true.
Proof.
  revert i. induction l as [|y l IH]; intros i; cbn; [done|].
  destruct (p y) eqn:Hy.
  - intros [= <-]. by exists y.
  - destruct (findIndex p l) as [j|]; [|done]. cbn. intros [= <-].
    by apply IH.
Qed.

Lemma findIndex_None {A} (p : A → bool) l :
  findIndex p l = None ↔ ∀ x, x ∈ l → p x = false.
Proof.
  induction l as [|y l IH]; cbn.
  - split; [by intros _ x ?%elem_of_nil|done].
  - destruct (p y) eqn:Hy.
    + split; [done|]. intros H. rewrite H in Hy; [done|by left].
    + destruct (findIndex p l) as [j|]; cbn.
      * split; [done|]. intros H.
        assert (Some j = None) as E; [|done].
        apply IH. intros x Hx. apply H. by right.
      * split; [|done]. intros _ x [->|Hx]%elem_of_cons; [done|].
        by apply IH.
Qed.

Lemma findIndex_found {A} (p : A → bool) l x :
  x ∈ l → p x = true → is_Some (findIndex p l).
Proof.
  intros Hx Hp. destruct (findIndex p l) eqn:E; [by eexists|].
  rewrite findIndex_None in E. rewrite (E x Hx) in Hp. done.
Qed.

Lemma find_None {A} (p : A → bool) l :
  (∀ x, x ∈ l → p x = false) → List.find p l = None.
Proof.
  induction l as [|y l IH]; cbn; [done|]. intros H.
  rewrite (H y) by (by left). apply IH. intros x Hx. apply H. by right.
Qed.

Lemma find_found {A} (p : A → bool) l x :
  x ∈ l → p x = true → is_Some (List.find p l).
Proof.
  induction l as [|y l IH]; cbn; [by intros ?%elem_of_nil|].
  intros [->|Hx]%elem_of_cons Hp.
  - rewrite Hp. by eexists.
  - destruct (p y); [by eexists|by apply IH].
Qed.

(** *** Reading back what was written *)

Lemma getFriends_set_friends u l ls u' :
  getFriends (set_friends u l ls) u' = if decide (u = u') then l else getFriends ls u'.
Proof.
  unfold getFriends, set_friends. cbn. rewrite lookup_insert.
  by case_decide.
Qed.

Lemma getSentRequests_set_sent u l ls u' :
  getSentRequests (set_sent u l ls) u' = if decide (u = u') then l else getSentRequests ls u'.
Proof.
  unfold getSentRequests, set_sent. cbn. rewrite lookup_insert.
  by case_decide.
Qed.

Lemma getReceivedRequests_set_received u l ls u' :
  getReceivedRequests (set_received u l ls) u'
  = if decide (u = u') then l else getReceivedRequests ls u'.
Proof.
  unfold getReceivedRequests, set_received. cbn. rewrite lookup_insert.
  by case_decide.
Qed.

(** *** [addFriend] *)

Lemma addFriend_getFriends ls u f now :
  getFriends (addFriend ls u f now) u =
  match findIndex (λ g, String.eqb (friend_id g) (friend_id f)) (getFriends ls u) with
  | Some i => <[i := seen now f]> (getFriends ls u)
  | None => getFriends ls u ++ [seen now f]
  end.
Proof. unfold addFriend. by rewrite getFriends_set_friends, decide_True. Qed.

Lemma addFriend_getFriends_other ls u f now u' :
  u' ≠ u → getFriends (addFriend ls u f now) u' = getFriends ls u'.
Proof. intros Hne. unfold addFriend. by rewrite getFriends_set_friends, decide_False. Qed.

Lemma addFriend_ids ls u f now :
  ids (getFriends (addFriend ls u f now) u) =
  if decide (friend_id f ∈ ids (getFriends ls u)) then ids (getFriends ls u)
  else ids (getFriends ls u) ++ [friend_id f].
Proof.
  rewrite addFriend_getFriends. unfold ids.
  destruct (findIndex _ _) as [i|] eqn:E.
  - apply findIndex_Some in E as (x & Hx & Hid). apply String.eqb_eq in Hid.
    rewrite decide_True.
    2:{ rewrite <-Hid. apply list_elem_of_fmap. exists x. split; [done|].
        by apply list_elem_of_lookup_2 in Hx. }
    change (map friend_id ?l) with (friend_id <$> l).
    rewrite list_fmap_insert. apply list_insert_id.
    rewrite list_lookup_fmap, Hx. cbn. by rewrite Hid.
  - rewrite findIndex_None in E. rewrite decide_False.
    2:{ intros (x & Hid & Hx)%list_elem_of_fmap. apply E in Hx.
        apply String.eqb_neq in Hx. congruence. }
    by rewrite map_app.
Qed.

Lemma addFriend_ids_mono ls u f now u' x :
  x ∈ ids (getFriends ls u') → x ∈ ids (getFriends (addFriend ls u f now) u').
Proof.
  intros Hx. destruct (decide (u' = u)) as [->|Hne].
  - rewrite addFriend_ids. case_decide; [done|]. apply elem_of_app. by left.
  - by rewrite addFriend_getFriends_other.
Qed.

Lemma addFriend_ids_new ls u f now :
  friend_id f ∈ ids (getFriends (addFriend ls u f now) u).
Proof.
  rewrite addFriend_ids. case_decide; [done|]. apply elem_of_app. right. by left.
Qed.

(** X19: [addFriend] is an upsert keyed by the friend's id.  Afterwards the
    user's list holds the friend as given, stamped with the current time;
    an entry with the same id is replaced in place and otherwise the
    friend is appended, so the list of ids is unchanged or one longer, and
    a list without duplicate ids stays without.  Other users' lists and
    all requests are untouched. *)
Theorem addFriend_upserts ls u f now :
  seen now f ∈ getFriends (addFriend ls u f now) u ∧
  ids (getFriends (addFriend ls u f now) u) =
    (if decide (friend_id f ∈ ids (getFriends ls u)) then ids (getFriends ls u)
     else ids (getFriends ls u) ++ [friend_id f]) ∧
  (NoDup (ids (getFriends ls u)) → NoDup (ids (getFriends (addFriend ls u f now) u))) ∧
  (∀ u', u' ≠ u → getFriends (addFriend ls u f now) u' = getFriends ls u') ∧
  sent_requests (addFriend ls u f now) = sent_requests ls ∧
  received_requests (addFriend ls u f now) = received_requests ls.
Proof.
  split_and!.
  - rewrite addFriend_getFriends. destruct (findIndex _ _) as [i|] eqn:E.
    + apply findIndex_Some in E as (x & Hx & _).
      apply list_elem_of_lookup. exists i. apply list_lookup_insert_eq.
      by apply lookup_lt_Some in Hx.
    + apply elem_of_app. right. by left.
  - apply addFriend_ids.
  - intros Hnd. rewrite addFriend_ids. case_decide as Hin; [done|].
    apply NoDup_app. split_and!; [done| |apply NoDup_singleton].
    intros x Hx ->%list_elem_of_singleton. done.
  - intros u' Hne. by apply addFriend_getFriends_other.
  - done.
  - done.
Qed.

(** Adding [bob] twice to an empty browser leaves one [bob]. *)
Lemma addFriend_upserts_witness :
  ids (getFriends (addFriend (addFriend empty "ann" friend_bob 5) "ann" friend_bob 9) "ann")
    = ["bob"] ∧
  NoDup (ids (getFriends (addFriend (addFriend empty "ann" friend_bob 5) "ann" friend_bob 9) "ann")).
Proof.
  destruct (addFriend_upserts (addFriend empty "ann" friend_bob 5) "ann" friend_bob 9)
    as (_ & H2 & H3 & _).
  split.
  - rewrite H2. reflexivity.
  - apply H3. apply NoDup_singleton.
Defined.

(** *** [removeFriend] *)

Lemma filter_all {A} (P : A → Prop) `{∀ x, Decision (P x)} (l : list A) :
  (∀ x, x ∈ l → P x) → filter P l = l.
Proof.
  induction l as [|y l IH]; [done|]. intros Hall.
  rewrite filter_cons_True by (apply Hall; by left).
  rewrite IH; [done|]. intros x Hx. apply Hall. by right.
Qed.

(** X20: [removeFriend] drops every entry with the given id and keeps the
    others in their order; other users' lists are untouched.  It undoes
    [addFriend]: removing a friend that was added to a list without that
    id gives back the list as it was. *)
Theorem removeFriend_undoes_addFriend ls u f now friendId :
  getFriends (removeFriend ls u friendId) u
    = filter (λ g, friend_id g ≠ friendId) (getFriends ls u) ∧
  (∀ g, g ∈ getFriends (removeFriend ls u friendId) u → friend_id g ≠ friendId) ∧
  (∀ u', u' ≠ u → getFriends (removeFriend ls u friendId) u' = getFriends ls u') ∧
  (friend_id f ∉ ids (getFriends ls u) →
   getFriends (removeFriend (addFriend ls u f now) u (friend_id f)) u = getFriends ls u).
Proof.
  assert (∀ ls' fid, getFriends (removeFriend ls' u fid) u
                     = filter (λ g, friend_id g ≠ fid) (getFriends ls' u)) as Hrm.
  { intros ls' fid. unfold removeFriend. by rewrite getFriends_set_friends, decide_True. }
  split_and!.
  - apply Hrm.
  - intros g. rewrite Hrm. by intros [? _]%list_elem_of_filter.
  - intros u' Hne. unfold removeFriend. by rewrite getFriends_set_friends, decide_False.
  - intros Hnew. rewrite Hrm, addFriend_getFriends.
    destruct (findIndex _ _) as [i|] eqn:E.
    + apply findIndex_Some in E as (x & Hx & Hid). apply String.eqb_eq in Hid.
      destruct Hnew. rewrite <-Hid. apply list_elem_of_fmap. exists x.
      split; [done|]. by apply list_elem_of_lookup_2 in Hx.
    + rewrite filter_app, filter_cons_False, filter_nil, app_nil_r by (by intros ?).
      apply filter_all. intros x Hx Hid. destruct Hnew. rewrite <-Hid.
      apply list_elem_of_fmap. by exists x.
Qed.

Lemma removeFriend_undoes_addFriend_witness :
  getFriends (removeFriend (addFriend empty "ann" friend_bob 5) "ann" "bob") "ann"
    = getFriends empty "ann".
Proof.
  destruct (removeFriend_undoes_addFriend empty "ann" friend_bob 5 "bob") as (_ & _ & _ & H).
  apply H. intros Hin. apply elem_of_nil in Hin. exact Hin.
Defined.

(** *** [acceptFriendRequest] *)

Lemma getFriends_set_sent u l ls x : getFriends (set_sent u l ls) x = getFriends ls x.
Proof. done. Qed.

Lemma getFriends_set_received u l ls x : getFriends (set_received u l ls) x = getFriends ls x.
Proof. done. Qed.

Lemma getReceivedRequests_addFriend ls u f now x :
  getReceivedRequests (addFriend ls u f now) x = getReceivedRequests ls x.
Proof. done. Qed.

Lemma getReceivedRequests_set_sent u l ls x :
  getReceivedRequests (set_sent u l ls) x = getReceivedRequests ls x.
Proof. done. Qed.

Lemma getSentRequests_addFriend ls u f now x :
  getSentRequests (addFriend ls u f now) x = getSentRequests ls x.
Proof. done. Qed.

Lemma getSentRequests_set_received u l ls x :
  getSentRequests (set_received u l ls) x = getSentRequests ls x.
Proof. done. Qed.

Lemma acceptFriendRequest_at ls u q now i req :
  findIndex (λ r, String.eqb (request_id r) q) (getReceivedRequests ls u) = Some i →
  getReceivedRequests ls u !! i = Some req →
  acceptFriendRequest ls u q now = accepted_store ls u q now i req.
Proof. intros Hi Hreq. unfold acceptFriendRequest. by rewrite Hi, Hreq. Qed.

Lemma acceptFriendRequest_found ls u q now r :
  r ∈ getReceivedRequests ls u → request_id r = q →
  ∃ i req, getReceivedRequests ls u !! i = Some req ∧ request_id req = q ∧
    acceptFriendRequest ls u q now = accepted_store ls u q now i req.
Proof.
  intros Hr Hid.
  destruct (findIndex_found (λ req, String.eqb (request_id req) q)
              (getReceivedRequests ls u) r Hr) as [i Hi].
  { by apply String.eqb_eq. }
  destruct (findIndex_Some _ _ _ Hi) as (req & Hreq & Hq). apply String.eqb_eq in Hq.
  exists i, req. split_and!; [done|done|].
  unfold acceptFriendRequest. by rewrite Hi, Hreq.
Qed.

Lemma accepted_store_friends ls u q now i req :
  request_id req ∈ ids (getFriends (accepted_store ls u q now i req) u) ∧
  u ∈ ids (getFriends (accepted_store ls u q now i req) q).
Proof.
  unfold accepted_store. cbn zeta. rewrite !getFriends_set_received.
  set (f1 := mkFriend (request_id req) _ _ _ _).
  split.
  - apply addFriend_ids_mono.
    destruct (findIndex _ _); [rewrite getFriends_set_sent|];
      exact (addFriend_ids_new ls u f1 now).
  - match goal with |- _ ∈ ids (getFriends (addFriend ?l q ?f now) q) =>
      exact (addFriend_ids_new l q f now) end.
Qed.

Lemma accepted_store_received ls u q now i req x :
  getReceivedRequests ls u !! i = Some req →
  getReceivedRequests (accepted_store ls u q now i req) x =
  if decide (u = x) then <[i := accept req]> (getReceivedRequests ls u)
  else getReceivedRequests ls x.
Proof.
  intros Hreq. unfold accepted_store. cbn zeta.
  rewrite getReceivedRequests_set_received. case_decide; [done|].
  rewrite getReceivedRequests_addFriend.
  by destruct (findIndex _ _).
Qed.

Lemma acceptFriendRequest_received_ids ls u q now x :
  map request_id (getReceivedRequests (acceptFriendRequest ls u q now) x)
  = map request_id (getReceivedRequests ls x).
Proof.
  destruct (findIndex (λ r, String.eqb (request_id r) q) (getReceivedRequests ls u))
    as [i|] eqn:Hi; [|by unfold acceptFriendRequest; rewrite Hi].
  destruct (findIndex_Some _ _ _ Hi) as (req & Hreq & _).
  rewrite (acceptFriendRequest_at ls u q now i req Hi Hreq).
  rewrite (accepted_store_received ls u q now i req x Hreq).
  case_decide as E; [|done]. subst x.
  change (map request_id ?l) with (request_id <$> l).
  rewrite list_fmap_insert. apply list_insert_id.
  by rewrite list_lookup_fmap, Hreq.
Qed.

(** X21: [acceptFriendRequest] acts on the first received request from the
    requester.  If the user has one, the two become friends both ways
    (the requester enters the user's list, and the user the requester's,
    whether or not the requester's own list of sent requests records the
    request) and the received request is marked accepted, no request being
    added or removed.  If the user has none, nothing at all changes. *)
Theorem acceptFriendRequest_befriends ls u q now :
  ((∀ r, r ∈ getReceivedRequests ls u → request_id r ≠ q) →
   acceptFriendRequest ls u q now = ls) ∧
  (∀ r, r ∈ getReceivedRequests ls u → request_id r = q →
     q ∈ ids (getFriends (acceptFriendRequest ls u q now) u) ∧
     u ∈ ids (getFriends (acceptFriendRequest ls u q now) q) ∧
     (∃ r', r' ∈ getReceivedRequests (acceptFriendRequest ls u q now) u ∧
            request_id r' = q ∧ request_status r' = accepted) ∧
     map request_id (getReceivedRequests (acceptFriendRequest ls u q now) u)
       = map request_id (getReceivedRequests ls u)).
Proof.
  split.
  - intros Hnone. unfold acceptFriendRequest.
    destruct (findIndex _ _) as [i|] eqn:Hi; [|done].
    apply findIndex_Some in Hi as (req & Hreq & Hq). apply String.eqb_eq in Hq.
    destruct (Hnone req); [|done]. by apply list_elem_of_lookup_2 in Hreq.
  - intros r Hr Hid. split_and!.
    + destruct (acceptFriendRequest_found ls u q now r Hr Hid) as (i & req & Hreq & Hq & ->).
      rewrite <-Hq. apply accepted_store_friends.
    + destruct (acceptFriendRequest_found ls u q now r Hr Hid) as (i & req & Hreq & Hq & ->).
      apply accepted_store_friends.
    + destruct (acceptFriendRequest_found ls u q now r Hr Hid) as (i & req & Hreq & Hq & ->).
      exists (accept req). split_and!; [|done|done].
      rewrite (accepted_store_received ls u q now i req u Hreq), decide_True by done.
      apply list_elem_of_lookup. exists i. apply list_lookup_insert_eq.
      by apply lookup_lt_Some in Hreq.
    + apply acceptFriendRequest_received_ids.
Qed.

(** [ann] has asked [bob]; [bob] accepts. *)
Lemma acceptFriendRequest_befriends_witness :
  "ann" ∈ ids (getFriends
                 (acceptFriendRequest (sendFriendRequest empty "ann" "Ann" "bob" "Bob" 1)
                    "bob" "ann" 2) "bob") ∧
  "bob" ∈ ids (getFriends
                 (acceptFriendRequest (sendFriendRequest empty "ann" "Ann" "bob" "Bob" 1)
                    "bob" "ann" 2) "ann") ∧
  acceptFriendRequest empty "bob" "ann" 2 = empty.
Proof.
  destruct (acceptFriendRequest_befriends
              (sendFriendRequest empty "ann" "Ann" "bob" "Bob" 1) "bob" "ann" 2) as [_ H].
  destruct (H (mkFriendRequest "ann" "Ann" (avatar_of "ann") 1 pending))
    as (H1 & H2 & _); [left|reflexivity|].
  destruct (acceptFriendRequest_befriends empty "bob" "ann" 2) as [H0 _].
  split_and!; [exact H1|exact H2|].
  apply H0. intros r Hr. apply elem_of_nil in Hr. destruct Hr.
Defined.

(** *** [sendFriendRequest] *)

Lemma sendFriendRequest_pushed ls u name t tname now :
  let ls2 :=
    set_received t (getReceivedRequests ls t ++ [mkFriendRequest u name (avatar_of u) now pending])
      (set_sent u (getSentRequests ls u ++ [mkFriendRequest t tname (avatar_of t) now pending]) ls) in
  sendFriendRequest ls u name t tname now =
  match List.find (λ req, String.eqb (request_id req) u) (getSentRequests ls2 t) with
  | Some _ => acceptFriendRequest (acceptFriendRequest ls2 u t now) t u now
  | None => ls2
  end.
Proof. done. Qed.

(** X22: A friend request to another user who has not asked first is recorded
    on both sides and nowhere else: the sender's sent list gets one
    pending request naming the target, appended after what was there, the
    target's received list one pending request naming the sender, and no
    friends list changes.  Nothing is checked against what the lists
    already hold, so asking again records the request again. *)
Theorem sendFriendRequest_records ls u name t tname now :
  t ≠ u → (∀ r, r ∈ getSentRequests ls t → request_id r ≠ u) →
  getSentRequests (sendFriendRequest ls u name t tname now) u
    = getSentRequests ls u ++ [mkFriendRequest t tname (avatar_of t) now pending] ∧
  getReceivedRequests (sendFriendRequest ls u name t tname now) t
    = getReceivedRequests ls t ++ [mkFriendRequest u name (avatar_of u) now pending] ∧
  friends (sendFriendRequest ls u name t tname now) = friends ls ∧
  (∀ x, x ≠ u → getSentRequests (sendFriendRequest ls u name t tname now) x
                = getSentRequests ls x) ∧
  (∀ x, x ≠ t → getReceivedRequests (sendFriendRequest ls u name t tname now) x
                = getReceivedRequests ls x).
Proof.
  intros Htu Hnone. rewrite sendFriendRequest_pushed. cbn zeta.
  rewrite getSentRequests_set_received, getSentRequests_set_sent.
  rewrite decide_False by done.
  rewrite find_None.
  2:{ intros r Hr. apply String.eqb_neq. by apply Hnone. }
  split_and!.
  - by rewrite getSentRequests_set_received, getSentRequests_set_sent, decide_True.
  - by rewrite getReceivedRequests_set_received, decide_True.
  - done.
  - intros x Hx. by rewrite getSentRequests_set_received, getSentRequests_set_sent, decide_False.
  - intros x Hx. by rewrite getReceivedRequests_set_received, decide_False.
Qed.

(** [ann] asks [bob] twice: two pending requests on either side. *)
Lemma sendFriendRequest_records_witness :
  map request_id
    (getSentRequests
       (sendFriendRequest (sendFriendRequest empty "ann" "Ann" "bob" "Bob" 1)
          "ann" "Ann" "bob" "Bob" 2) "ann") = ["bob"; "bob"] ∧
  map request_id
    (getReceivedRequests
       (sendFriendRequest (sendFriendRequest empty "ann" "Ann" "bob" "Bob" 1)
          "ann" "Ann" "bob" "Bob" 2) "bob") = ["ann"; "ann"].
Proof.
  destruct (sendFriendRequest_records
              (sendFriendRequest empty "ann" "Ann" "bob" "Bob" 1) "ann" "Ann" "bob" "Bob" 2)
    as (H1 & H2 & _).
  - discriminate.
  - intros r Hr. apply elem_of_nil in Hr. destruct Hr.
  - rewrite H1, H2. split; reflexivity.
Defined.

(** X23: Requests that cross are accepted on the spot.  When the target has
    already sent the sender a request, or the sender names itself,
    [sendFriendRequest] ends with each in the other's friends list, with
    no call to accept from either user. *)
Theorem sendFriendRequest_mutual ls u name t tname now :
  t = u ∨ (∃ r, r ∈ getSentRequests ls t ∧ request_id r = u) →
  t ∈ ids (getFriends (sendFriendRequest ls u name t tname now) u) ∧
  u ∈ ids (getFriends (sendFriendRequest ls u name t tname now) t).
Proof.
  intros Hmutual. rewrite sendFriendRequest_pushed. cbn zeta.
  set (ls2 := set_received t _ _).
  assert (∃ r, r ∈ getSentRequests ls2 t ∧ request_id r = u) as (r & Hr & Hid).
  { subst ls2. rewrite getSentRequests_set_received, getSentRequests_set_sent.
    destruct Hmutual as [->|(r & Hr & Hid)].
    - rewrite decide_True by done.
      exists (mkFriendRequest u tname (avatar_of u) now pending). split; [|done].
      apply elem_of_app. right. by left.
    - exists r. split; [|done]. case_decide as E; [|done].
      rewrite E. apply elem_of_app. by left. }
  destruct (find_found (λ req, String.eqb (request_id req) u) _ r Hr) as [m ->].
  { by apply String.eqb_eq. }
  set (ls3 := acceptFriendRequest ls2 u t now).
  assert (∃ r', r' ∈ getReceivedRequests ls3 t ∧ request_id r' = u) as (r' & Hr' & Hid').
  { assert (u ∈ map request_id (getReceivedRequests ls3 t)) as Hin.
    { subst ls3. rewrite acceptFriendRequest_received_ids. subst ls2.
      rewrite getReceivedRequests_set_received, decide_True by done.
      rewrite map_app. apply elem_of_app. right. by left. }
    apply list_elem_of_fmap in Hin as (r' & Hid' & Hr'). by exists r'. }
  destruct (acceptFriendRequest_found ls3 t u now r' Hr' Hid') as (i & req & Hreq & Hq & ->).
  destruct (accepted_store_friends ls3 t u now i req) as [H1 H2].
  rewrite Hq in H1. done.
Qed.

(** [bob] had asked [ann]; when [ann] asks [bob] they are friends at
    once.  And [ann] asking [ann] is friends with herself. *)
Lemma sendFriendRequest_mutual_witness :
  ("bob" ∈ ids (getFriends
                  (sendFriendRequest (sendFriendRequest empty "bob" "Bob" "ann" "Ann" 1)
                     "ann" "Ann" "bob" "Bob" 2) "ann") ∧
   "ann" ∈ ids (getFriends
                  (sendFriendRequest (sendFriendRequest empty "bob" "Bob" "ann" "Ann" 1)
                     "ann" "Ann" "bob" "Bob" 2) "bob")) ∧
  "ann" ∈ ids (getFriends (sendFriendRequest empty "ann" "Ann" "ann" "Ann" 1) "ann").
Proof.
  split.
  - apply sendFriendRequest_mutual. right.
    exists (mkFriendRequest "ann" "Ann" (avatar_of "ann") 1 pending). split; [left|reflexivity].
  - apply (sendFriendRequest_mutual empty "ann" "Ann" "ann" "Ann" 1). by left.
Defined.

(** *** [rejectFriendRequest] *)

(** X24: [rejectFriendRequest] forgets the request on the receiving side only.
    Every received request from the requester is dropped, the rest kept in
    order; no sent list and no friends list changes.  So after a request
    from [u] to [t] that [t] rejects, [t] holds no request from [u] while
    [u] still holds its request to [t], pending. *)
Theorem rejectFriendRequest_one_sided ls u name t tname now :
  getReceivedRequests (rejectFriendRequest ls t u) t
    = filter (λ req, request_id req ≠ u) (getReceivedRequests ls t) ∧
  sent_requests (rejectFriendRequest ls t u) = sent_requests ls ∧
  friends (rejectFriendRequest ls t u) = friends ls ∧
  (t ≠ u → (∀ r, r ∈ getSentRequests ls t → request_id r ≠ u) →
   (∀ r, r ∈ getReceivedRequests
               (rejectFriendRequest (sendFriendRequest ls u name t tname now) t u) t →
         request_id r ≠ u) ∧
   getSentRequests (rejectFriendRequest (sendFriendRequest ls u name t tname now) t u) u
     = getSentRequests ls u ++ [mkFriendRequest t tname (avatar_of t) now pending]).
Proof.
  assert (∀ ls', getReceivedRequests (rejectFriendRequest ls' t u) t
                 = filter (λ req, request_id req ≠ u) (getReceivedRequests ls' t)) as Hrej.
  { intros ls'. unfold rejectFriendRequest.
    by rewrite getReceivedRequests_set_received, decide_True. }
  split_and!; [apply Hrej|done|done|].
  intros Htu Hnone. split.
  - intros r. rewrite Hrej. by intros [? _]%list_elem_of_filter.
  - unfold rejectFriendRequest. rewrite getSentRequests_set_received.
    rewrite sendFriendRequest_pushed. cbn zeta.
    rewrite getSentRequests_set_received, getSentRequests_set_sent.
    rewrite decide_False by done.
    rewrite find_None.
    2:{ intros r Hr. apply String.eqb_neq. by apply Hnone. }
    by rewrite getSentRequests_set_received, getSentRequests_set_sent, decide_True.
Qed.

Lemma rejectFriendRequest_one_sided_witness :
  getReceivedRequests
    (rejectFriendRequest (sendFriendRequest empty "ann" "Ann" "bob" "Bob" 1) "bob" "ann") "bob"
    = [] ∧
  getSentRequests
    (rejectFriendRequest (sendFriendRequest empty "ann" "Ann" "bob" "Bob" 1) "bob" "ann") "ann"
    = [mkFriendRequest "bob" "Bob" (avatar_of "bob") 1 pending].
Proof.
  destruct (rejectFriendRequest_one_sided empty "ann" "Ann" "bob" "Bob" 1) as (_ & _ & _ & H).
  destruct H as [_ H2].
  - discriminate.
  - intros r Hr. apply elem_of_nil in Hr. destruct Hr.
  - split; [reflexivity|exact H2].
Defined.

(** *** [updateFriendStatus] *)

(** X25: [updateFriendStatus] marks a known friend and otherwise does nothing.
    For an id that is not in the user's list the store is left exactly as
    it is, no entry being created; for an id in the list, the first entry
    with that id gets the flag and the current time, and the list keeps
    its ids and their order. *)
Theorem updateFriendStatus_known_only ls u friendId isOnline now :
  (friendId ∉ ids (getFriends ls u) → updateFriendStatus ls u friendId isOnline now = ls) ∧
  ids (getFriends (updateFriendStatus ls u friendId isOnline now) u) = ids (getFriends ls u) ∧
  (friendId ∈ ids (getFriends ls u) →
   ∃ g, g ∈ getFriends (updateFriendStatus ls u friendId isOnline now) u ∧
        friend_id g = friendId ∧ friend_isOnline g = Some isOnline ∧
        friend_lastSeen g = now).
Proof.
  unfold updateFriendStatus.
  destruct (findIndex (λ f, String.eqb (friend_id f) friendId) (getFriends ls u))
    as [i|] eqn:Hi.
  - destruct (findIndex_Some _ _ _ Hi) as (x & Hx & Hid). apply String.eqb_eq in Hid.
    assert (friendId ∈ ids (getFriends ls u)) as Hin.
    { rewrite <-Hid. apply list_elem_of_fmap. exists x. split; [done|].
      by apply list_elem_of_lookup_2 in Hx. }
    split_and!; [done| |].
    + rewrite getFriends_set_friends, decide_True by done. unfold ids.
      change (map friend_id ?l) with (friend_id <$> l).
      apply list_eq. intros j. rewrite !list_lookup_fmap.
      destruct (decide (i = j)) as [<-|Hne].
      * rewrite list_lookup_alter_eq, Hx. done.
      * by rewrite list_lookup_alter_ne.
    + intros _. rewrite getFriends_set_friends, decide_True by done.
      eexists. split.
      * apply list_elem_of_lookup. exists i. rewrite list_lookup_alter_eq, Hx. done.
      * done.
  - rewrite findIndex_None in Hi. split_and!; [done|done|].
    intros (x & Hid & Hx)%list_elem_of_fmap. apply Hi in Hx.
    apply String.eqb_neq in Hx. congruence.
Qed.

Lemma updateFriendStatus_known_only_witness :
  updateFriendStatus empty "ann" "bob" true 3 = empty ∧
  ∃ g, g ∈ getFriends (updateFriendStatus (addFriend empty "ann" friend_bob 1) "ann" "bob" true 3) "ann" ∧
       friend_id g = "bob" ∧ friend_isOnline g = Some true ∧ friend_lastSeen g = 3%Z.
Proof.
  split.
  - destruct (updateFriendStatus_known_only empty "ann" "bob" true 3) as (H & _).
    apply H. intros Hin. apply elem_of_nil in Hin. exact Hin.
  - destruct (updateFriendStatus_known_only (addFriend empty "ann" friend_bob 1)
                "ann" "bob" true 3) as (_ & _ & H).
    apply H. left.
Defined.

End FriendsFacts.
